(** * Synergy: the sequential multi-participant streaming orchestrator

    A shallow embedding of [src/api/route.ts]: the system prompt builder
    [generateSystemPrompt], the two provider adapters
    [handleAnthropicParticipant] and [handleOpenAIParticipant], and the
    [POST] handler with its validation and its participant loop.

    Conventions of the embedding.
    - JavaScript strings are [string]; temperatures are [Q] (they are only
      passed through, never computed with).  Token counts are integers,
      [Z].  JavaScript numbers are binary64: on integers their arithmetic
      is exact up to 2^53 and rounds beyond.  The one computation on token
      counts, the subtraction in [thinkBudget], is written as the exact
      subtraction: it is the code's for token counts up to 2^53, and a
      bound derived from it is stated for such counts.
    - An optional property ([undefined] or [null]) is [option] where the
      code cannot tell the two apart: the operators [x || d] and
      [x ? a : b] test JavaScript truthiness (the empty string and the
      number 0 are falsy), [x ?? d] and [x?.p] test presence only.  Where
      the code reads a property of the value without a test, the TypeError
      names what it found; there the property is a [Nullable].
    - [flush] appends a structured [StreamEvent] to the output of the
      response stream; the textual framing [data: <json>] is not modelled.
    - The vendor APIs are an environment: for each loop iteration they say
      what the streaming call does with the request it is given.  A stream
      is finite: it yields its events and ends, normally or by throwing.
    - The client stays connected: [flush] always succeeds.
    - Adapter code runs in a state and exception monad [M]: the state is
      the shared [conversationHistory] array and the output stream, and
      what was flushed before an exception stays flushed. *)

From Stdlib Require Import String Ascii List ZArith QArith Bool Arith Lia.
From Stdlib Require DecimalString.
Import ListNotations.
Local Close Scope Q_scope.
Local Open Scope nat_scope.
Local Open Scope list_scope.
Local Open Scope string_scope.

(** ** JavaScript helpers *)

(** Truthiness of an optional string: [undefined], [null] and [""] are falsy. *)
Definition truthyStr (o : option string) : bool :=
  match o with
  | Some s => negb (s =? "")
  | None => false
  end.

(** [a || d] on optional strings. *)
Definition orStr (o : option string) (d : string) : string :=
  if truthyStr o then match o with Some s => s | None => d end else d.

(** [a || d] on optional numbers: [undefined] and [0] are falsy. *)
Definition orNum (o : option Z) (d : Z) : Z :=
  match o with
  | Some n => if (n =? 0)%Z then d else n
  | None => d
  end.

(** [a ?? d]. *)
Definition nullish {A : Type} (o : option A) (d : A) : A :=
  match o with
  | Some a => a
  | None => d
  end.

(** Truthiness of an optional boolean. *)
Definition truthyBool (o : option bool) : bool :=
  match o with
  | Some b => b
  | None => false
  end.

(** A template literal prints [undefined] for an absent value. *)
Definition template (o : option string) : string :=
  match o with
  | Some s => s
  | None => "undefined"
  end.

Definition nl : string := String (ascii_of_nat 10) EmptyString.

(** [xs.join(sep)]. *)
Fixpoint join (sep : string) (xs : list string) : string :=
  match xs with
  | [] => ""
  | [x] => x
  | x :: rest => x ++ sep ++ join sep rest
  end.

(** ** Types *)

(** A property that is missing ([undefined]), [null], or there. *)
Inductive Nullable (A : Type) :=
| undefined
| null
| defined (a : A).
Arguments undefined {A}.
Arguments null {A}.
Arguments defined {A} a.

(** The same property for the operators that do not tell a missing
    property from [null]. *)
Definition optional {A : Type} (x : Nullable A) : option A :=
  match x with
  | defined a => Some a
  | _ => None
  end.

(** [participant.openai.reasoning]: an object, hence truthy when present. *)
Record Reasoning := mkReasoning {
  effort : option string;
  summary : option string
}.

Record OpenAIOptions := mkOpenAIOptions {
  reasoning : option Reasoning
}.

Record AnthropicOptions := mkAnthropicOptions {
  opt_extendedThinking : option bool;
  opt_budgetTokens : option Z
}.

(** [interface SynergyParticipant].  The provider is the string found in
    the request body: nothing at run time restricts it to the two names. *)
Record SynergyParticipant := mkParticipant {
  id : string;
  name : string;
  provider : string;
  model : string;
  systemPrompt : option string;
  temperature : option Q;
  maxTokens : option Z;
  openai : option OpenAIOptions;
  anthropic : option AnthropicOptions
}.

(** [interface AttachedFile].  [content] is declared [string | null]; the
    body may lack it as well. *)
Record AttachedFile := mkFile {
  file_name : string;
  file_type : string;
  file_content : Nullable string
}.

(** [interface SynergyMessage], the fields the handler reads. *)
Record SynergyMessage := mkMessage {
  msg_type : string;
  msg_content : string;
  msg_model : option string;
  msg_participant_name : option string;
  msg_attachedFiles : option (list AttachedFile)
}.

Inductive Role := user | assistant.

(** An entry of [processedMessages] and of [conversationHistory]. *)
Record Turn := mkTurn {
  role : Role;
  content : string;
  attribution : option string;
  attachedFiles : option (list AttachedFile);
  participant_name : option string
}.

(** The request body, after [req.json()].  [SynergyRequest] declares
    [messages] an array, and the handler takes it for one without a check:
    the body may lack it, or hold [null].  [participants] may be missing,
    which the handler checks. *)
Record SynergyRequest := mkRequest {
  messages : Nullable (list SynergyMessage);
  participants : option (list SynergyParticipant);
  openaiKey : option string;
  anthropicKey : option string;
  req_systemPrompt : option string;
  extendedThinking : option bool;
  budgetTokens : option Z;
  prefillContent : option string
}.

(** The objects handed to [flush]. *)
Inductive StreamEvent :=
| chunk (participant model provider content : string)
| error (participant : option string) (message : string)
| complete.

(** A thrown value: [error?.message] and [String(error)]. *)
Record Thrown := mkThrown {
  thrown_message : option string;
  thrown_toString : string
}.

(** [error?.message || String(error)]. *)
Definition errorText (e : Thrown) : string :=
  orStr (thrown_message e) (thrown_toString e).

(** ** System prompt builder *)

Definition generateSystemPrompt (participant : SynergyParticipant)
    (otherParticipants : list SynergyParticipant)
    (baseSystemPrompt : option string) : string :=
  let otherNames :=
    join ", " (map (fun p => name p ++ " (" ++ model p ++ ")") otherParticipants) in
  let identityPrompt :=
    "CRITICAL IDENTITY INSTRUCTIONS:" ++ nl ++
    "- You are " ++ name participant ++ " running " ++ model participant ++ nl ++
    "- You are NOT any of the other participants: " ++ otherNames ++ nl ++
    "- Always maintain your identity as " ++ name participant ++ nl ++
    "- Never confuse yourself with responses from other participants" ++ nl ++
    nl ++
    "MULTI-AI COLLABORATION:" ++ nl ++
    "You are participating in a multi-AI conversation with: " ++ otherNames ++ nl ++
    "Each participant responds in sequence. You can see and reference other participants' responses." ++ nl ++
    nl ++
    (if truthyStr (systemPrompt participant)
     then nl ++ "ADDITIONAL INSTRUCTIONS:" ++ nl ++ template (systemPrompt participant)
     else "") ++ nl ++
    (if truthyStr baseSystemPrompt
     then nl ++ "BASE SYSTEM PROMPT:" ++ nl ++ template baseSystemPrompt
     else "") in
  identityPrompt.

(** ** Exceptions and the adapter monad *)

Inductive Result (A : Type) :=
| Ok (a : A)
| Throw (e : Thrown).
Arguments Ok {A} a.
Arguments Throw {A} e.

(** The state shared by the handler and the adapters during one run: the
    [conversationHistory] array (one array, mutated in place by [push]) and
    what [flush] has written to the response stream so far. *)
Record St := mkSt {
  conversationHistory : list Turn;
  sse : list StreamEvent
}.

Definition M (A : Type) : Type := St -> Result A * St.

Definition ret {A : Type} (a : A) : M A := fun st => (Ok a, st).

Definition bind {A B : Type} (m : M A) (k : A -> M B) : M B :=
  fun st =>
    match m st with
    | (Ok a, st') => k a st'
    | (Throw e, st') => (Throw e, st')
    end.

Definition throw {A : Type} (e : Thrown) : M A := fun st => (Throw e, st).

(** [try { m } catch (error) { handler error }]. *)
Definition tryCatch {A : Type} (m : M A) (handler : Thrown -> M A) : M A :=
  fun st =>
    match m st with
    | (Ok a, st') => (Ok a, st')
    | (Throw e, st') => handler e st'
    end.

Definition liftR {A : Type} (r : Result A) : M A := fun st => (r, st).

Definition getHistory : M (list Turn) := fun st => (Ok (conversationHistory st), st).

(** [flush(obj)]. *)
Definition flush (obj : StreamEvent) : M unit :=
  fun st => (Ok tt, mkSt (conversationHistory st) (sse st ++ [obj])%list).

(** [conversationHistory.push(turn)]. *)
Definition push (turn : Turn) : M unit :=
  fun st => (Ok tt, mkSt (conversationHistory st ++ [turn])%list (sse st)).

Declare Scope m_scope.
Delimit Scope m_scope with M.
Notation "x <- m ;; k" := (bind m (fun x => k))
  (at level 61, m at next level, right associativity) : m_scope.
Notation "m ;; k" := (bind m (fun _ => k))
  (at level 61, right associativity) : m_scope.
Local Open Scope m_scope.

(** [if (c) { m }]. *)
Definition when (c : bool) (m : M unit) : M unit := if c then m else ret tt.

(** ** The vendor APIs as an environment *)

(** What a streaming call does: it throws, or it yields stream events and
    then ends, normally or with a thrown value. *)
Inductive ApiResult (C : Type) :=
| ApiThrows (e : Thrown)
| ApiStream (events : list C) (failure : option Thrown).
Arguments ApiThrows {C} e.
Arguments ApiStream {C} events failure.

(** [await call]. *)
Definition await {C : Type} (r : ApiResult C) : M (list C * option Thrown) :=
  match r with
  | ApiThrows e => throw e
  | ApiStream events failure => ret (events, failure)
  end.

(** [for await (const x of stream) { acc = body acc x }]: the events in
    order, then the end of the stream. *)
Fixpoint forAwaitEvents {C S : Type} (body : S -> C -> M S) (events : list C) (acc : S) : M S :=
  match events with
  | [] => ret acc
  | x :: rest => acc' <- body acc x ;; forAwaitEvents body rest acc'
  end.

Definition forAwait {C S : Type} (body : S -> C -> M S)
    (stream : list C * option Thrown) (acc : S) : M S :=
  acc' <- forAwaitEvents body (fst stream) acc ;;
  match snd stream with
  | Some e => throw e
  | None => ret acc'
  end.

(** ** Anthropic adapter *)

Inductive ContentBlock :=
| textBlock (text : string)
| imageBlock (media_type data : string).

(** A message's [content]: a string, or an array of blocks. *)
Inductive AnthropicContent :=
| contentText (text : string)
| contentBlocks (blocks : list ContentBlock).

Record AnthropicMessage := mkAnthropicMessage {
  am_role : Role;
  am_content : AnthropicContent
}.

(** [{ type: "enabled", budget_tokens }]. *)
Record Thinking := mkThinking {
  budget_tokens : Z
}.

(** [Anthropic.Messages.MessageCreateParams], with [stream: true]. *)
Record AnthropicRequest := mkAnthropicRequest {
  ar_model : string;
  ar_max_tokens : Z;
  ar_messages : list AnthropicMessage;
  ar_system : string;
  ar_temperature : Q;
  ar_thinking : option Thinking
}.

(** [chunk.delta]. *)
Record AnthropicDelta := mkDelta {
  delta_type : option string;
  delta_text : option string;
  delta_thinking : option string
}.

Record AnthropicChunk := mkChunk {
  chunk_type : string;
  chunk_delta : option AnthropicDelta
}.

Definition Anthropic : Type := AnthropicRequest -> ApiResult AnthropicChunk.

(** If [s] starts with [p], what follows [p]. *)
Fixpoint stripPrefix (p s : string) : option string :=
  match p, s with
  | EmptyString, _ => Some s
  | String a p', String b s' => if Ascii.eqb a b then stripPrefix p' s' else None
  | String _ _, EmptyString => None
  end.

(** The longest prefix without the character [c], and the rest. *)
Fixpoint spanNot (c : ascii) (s : string) : string * string :=
  match s with
  | EmptyString => (EmptyString, EmptyString)
  | String a s' =>
      if Ascii.eqb a c then (EmptyString, s)
      else let (before, rest) := spanNot c s' in (String a before, rest)
  end.

Definition byte (n : nat) : string := String (ascii_of_nat n) EmptyString.

(** Does [s] hold a character that [.] does not match: LF, CR, U+2028 or
    U+2029 (the last two in UTF-8). *)
Fixpoint hasLineTerminator (s : string) : bool :=
  match s with
  | EmptyString => false
  | String a s' =>
      (nat_of_ascii a =? 10)%nat || (nat_of_ascii a =? 13)%nat
      || String.prefix (byte 226 ++ byte 128 ++ byte 168) s
      || String.prefix (byte 226 ++ byte 128 ++ byte 169) s
      || hasLineTerminator s'
  end.

(** [s.match(/^data:([^;]+);base64,(.+)$/)]: the two groups. *)
Definition matchDataUrl (s : string) : option (string * string) :=
  match stripPrefix "data:" s with
  | None => None
  | Some r =>
      let (mediaType, rest) := spanNot ";"%char r in
      if mediaType =? "" then None
      else match stripPrefix ";base64," rest with
           | None => None
           | Some base64Data =>
               if (base64Data =? "") || hasLineTerminator base64Data then None
               else Some (mediaType, base64Data)
           end
  end.

(** The TypeError of reading the property [prop] of [undefined] or [null]. *)
Definition cannotRead (what prop : string) : Thrown :=
  mkThrown (Some ("Cannot read properties of " ++ what ++ " (reading '" ++ prop ++ "')"))
           ("TypeError: Cannot read properties of " ++ what ++ " (reading '" ++ prop ++ "')").

(** Reading [.match] of [null], and of [undefined]. *)
Definition nullMatchError : Thrown := cannotRead "null" "match".

Definition undefinedMatchError : Thrown := cannotRead "undefined" "match".

(** [msg.attachedFiles.forEach(...)]: the image blocks pushed after the
    text block. *)
Fixpoint imageBlocks (files : list AttachedFile) : Result (list ContentBlock) :=
  match files with
  | [] => Ok []
  | file :: rest =>
      if String.prefix "image/" (file_type file) then
        match file_content file with
        | undefined => Throw undefinedMatchError
        | null => Throw nullMatchError
        | defined data =>
            match imageBlocks rest with
            | Throw e => Throw e
            | Ok blocks =>
                match matchDataUrl data with
                | Some (mediaType, base64Data) => Ok (imageBlock mediaType base64Data :: blocks)
                | None => Ok blocks
                end
            end
        end
      else imageBlocks rest
  end.

(** [attribution ? `[${attribution}]: ${content}` : content]. *)
Definition attributed (msg : Turn) : string :=
  if truthyStr (attribution msg)
  then "[" ++ template (attribution msg) ++ "]: " ++ content msg
  else content msg.

Definition hasFiles (msg : Turn) : bool :=
  match attachedFiles msg with
  | Some (_ :: _) => true
  | _ => false
  end.

(** The body of [conversationHistory.forEach]: the message pushed for [msg]. *)
Definition anthropicMessage (msg : Turn) : Result AnthropicMessage :=
  match role msg with
  | user =>
      if hasFiles msg then
        match imageBlocks (nullish (attachedFiles msg) []) with
        | Throw e => Throw e
        | Ok [] => Ok (mkAnthropicMessage user (contentText (content msg)))
        | Ok images => Ok (mkAnthropicMessage user (contentBlocks (textBlock (content msg) :: images)))
        end
      else Ok (mkAnthropicMessage (role msg) (contentText (attributed msg)))
  | assistant => Ok (mkAnthropicMessage (role msg) (contentText (attributed msg)))
  end.

Fixpoint anthropicMessages (conversationHistory : list Turn) : Result (list AnthropicMessage) :=
  match conversationHistory with
  | [] => Ok []
  | msg :: rest =>
      match anthropicMessage msg with
      | Throw e => Throw e
      | Ok m =>
          match anthropicMessages rest with
          | Throw e => Throw e
          | Ok ms => Ok (m :: ms)
          end
      end
  end.

(** [a ?? b] where [b] may be absent too. *)
Definition orElse {A : Type} (a b : option A) : option A :=
  match a with
  | Some _ => a
  | None => b
  end.

(** [participant.anthropic?.extendedThinking]. *)
Definition anthropicExtendedThinking (participant : SynergyParticipant) : option bool :=
  match anthropic participant with
  | Some o => opt_extendedThinking o
  | None => None
  end.

(** [participant.anthropic?.budgetTokens]. *)
Definition anthropicBudgetTokens (participant : SynergyParticipant) : option Z :=
  match anthropic participant with
  | Some o => opt_budgetTokens o
  | None => None
  end.

(** [participant.anthropic?.extendedThinking ?? extendedThinking]. *)
Definition useThinking (participant : SynergyParticipant) (extendedThinking : option bool)
    : option bool :=
  orElse (anthropicExtendedThinking participant) extendedThinking.

(** [participant.anthropic?.budgetTokens ??
     Math.min(budgetTokens || 2000, (participant.maxTokens || 32000) - 100)]. *)
Definition thinkBudget (participant : SynergyParticipant) (budgetTokens : option Z) : Z :=
  nullish (anthropicBudgetTokens participant)
          (Z.min (orNum budgetTokens 2000) (orNum (maxTokens participant) 32000 - 100)).

(** The request object: built, then amended when thinking is in use. *)
Definition anthropicReq (participant : SynergyParticipant)
    (anthropicMessages : list AnthropicMessage) (systemPrompt : string)
    (extendedThinking : option bool) (budgetTokens : option Z) : AnthropicRequest :=
  let anthropicReq :=
    mkAnthropicRequest (model participant)
      (orNum (maxTokens participant) 64000)
      anthropicMessages
      systemPrompt
      (nullish (temperature participant) (9 # 10)%Q)
      None in
  if truthyBool (useThinking participant extendedThinking) then
    mkAnthropicRequest (ar_model anthropicReq) (ar_max_tokens anthropicReq)
      (ar_messages anthropicReq) (ar_system anthropicReq)
      1%Q
      (Some (mkThinking (thinkBudget participant budgetTokens)))
  else anthropicReq.

(** [if (prefillContent && isLastParticipant)
       anthropicMessages.push({ role: "assistant", content: prefillContent })]. *)
Definition withPrefill (anthropicMessages : list AnthropicMessage)
    (prefillContent : option string) (isLastParticipant : bool) : list AnthropicMessage :=
  if truthyStr prefillContent && isLastParticipant
  then (anthropicMessages
        ++ [mkAnthropicMessage assistant (contentText (template prefillContent))])%list
  else anthropicMessages.

Definition deltaText (c : AnthropicChunk) : option string :=
  match chunk_delta c with
  | Some d => delta_text d
  | None => None
  end.

Definition isThinkingDelta (c : AnthropicChunk) : bool :=
  match chunk_delta c with
  | Some d => match delta_type d with
              | Some t => t =? "thinking_delta"
              | None => false
              end
  | None => false
  end.

Definition deltaThinking (c : AnthropicChunk) : option string :=
  match chunk_delta c with
  | Some d => delta_thinking d
  | None => None
  end.

(** The body of the [for await] loop over the Anthropic stream. *)
Definition onAnthropicChunk (participant : SynergyParticipant)
    (fullResponse : string) (c : AnthropicChunk) : M string :=
  if (chunk_type c =? "content_block_delta") && truthyStr (deltaText c) then
    let content := template (deltaText c) in
    flush (chunk (name participant) (model participant) (provider participant) content) ;;
    ret (fullResponse ++ content)
  else if (chunk_type c =? "content_block_delta") && isThinkingDelta c then
    let thinkingText := template (deltaThinking c) in
    flush (chunk (name participant) (model participant) (provider participant)
                 ("[THINKING]" ++ thinkingText ++ "[/THINKING]")) ;;
    ret fullResponse
  else ret fullResponse.

(** [handleAnthropicParticipant].  The [conversationHistory] array and
    [flush] are the monad's state. *)
Definition handleAnthropicParticipant (participant : SynergyParticipant)
    (anthropic : Anthropic) (systemPrompt : string)
    (prefillContent : option string) (isLastParticipant : bool)
    (extendedThinking : option bool) (budgetTokens : option Z) : M unit :=
  conversationHistory <- getHistory ;;
  mapped <- liftR (anthropicMessages conversationHistory) ;;
  let anthropicMessages := withPrefill mapped prefillContent isLastParticipant in
  response <- await (anthropic (anthropicReq participant anthropicMessages systemPrompt
                                             extendedThinking budgetTokens)) ;;
  when (truthyStr prefillContent && isLastParticipant)
       (flush (chunk (name participant) (model participant) (provider participant)
                     (template prefillContent))) ;;
  fullResponse <- forAwait (onAnthropicChunk participant) response (orStr prefillContent "") ;;
  push (mkTurn assistant fullResponse (Some (name participant)) None (Some (name participant))).

(** ** OpenAI adapter *)

(** An input item's [content]: [[{ type: "input_text", text }]] for a user
    turn, a string for an assistant turn. *)
Inductive OpenAIContent :=
| inputText (text : string)
| plainContent (content : string).

Record OpenAIInput := mkOpenAIInput {
  oi_role : Role;
  oi_content : OpenAIContent
}.

(** The [config] object, with [stream: true]. *)
Record OpenAIConfig := mkOpenAIConfig {
  oc_model : string;
  oc_max_output_tokens : Z;
  oc_temperature : Q;
  oc_instructions : string;
  oc_input : list OpenAIInput;
  oc_reasoning : option Reasoning
}.

Record OpenAIEvent := mkEvent {
  event_type : string;
  event_delta : option string
}.

Definition OpenAI : Type := OpenAIConfig -> ApiResult OpenAIEvent.

(** The body of [for (const msg of conversationHistory)]. *)
Definition openaiInputItem (msg : Turn) : OpenAIInput :=
  match role msg with
  | user => mkOpenAIInput user (inputText (content msg))
  | assistant => mkOpenAIInput assistant (plainContent (attributed msg))
  end.

Definition openaiInput (conversationHistory : list Turn) : list OpenAIInput :=
  map openaiInputItem conversationHistory.

Definition openaiConfig (participant : SynergyParticipant) (input : list OpenAIInput)
    (systemPrompt : string) : OpenAIConfig :=
  mkOpenAIConfig (model participant)
    (orNum (maxTokens participant) 16200)
    (nullish (temperature participant) (9 # 10)%Q)
    systemPrompt
    input
    (match openai participant with
     | Some o => reasoning o
     | None => None
     end).

(** The body of the [for await] loop over the OpenAI stream. *)
Definition onOpenAIEvent (participant : SynergyParticipant)
    (fullResponse : string) (event : OpenAIEvent) : M string :=
  if event_type event =? "response.output_text.delta" then
    let content := orStr (event_delta event) "" in
    flush (chunk (name participant) (model participant) (provider participant) content) ;;
    ret (fullResponse ++ content)
  else ret fullResponse.

(** [handleOpenAIParticipant].  It takes [prefillContent] and
    [isLastParticipant], as the source does, and like the source never
    reads them. *)
Definition handleOpenAIParticipant (participant : SynergyParticipant)
    (openai : OpenAI) (systemPrompt : string)
    (prefillContent : option string) (isLastParticipant : bool) : M unit :=
  conversationHistory <- getHistory ;;
  let input := openaiInput conversationHistory in
  stream <- await (openai (openaiConfig participant input systemPrompt)) ;;
  fullResponse <- forAwait (onOpenAIEvent participant) stream "" ;;
  push (mkTurn assistant fullResponse (Some (name participant)) None (Some (name participant))).

(** ** The POST handler *)

(** What the two vendor APIs do at each iteration of the participant loop. *)
Record Providers := mkProviders {
  messages_stream : nat -> Anthropic;
  responses_create : nat -> OpenAI
}.

Inductive Response :=
| jsonResponse (status : Z) (err : string)
| eventStream (events : list StreamEvent).

(** [participants.some((p) => p.provider === which)]. *)
Definition needs (which : string) (participants : list SynergyParticipant) : bool :=
  existsb (fun p => provider p =? which) participants.

(** One entry of [processedMessages]. *)
Definition processMessage (msg : SynergyMessage) : Turn :=
  if msg_type msg =? "user" then
    mkTurn user (msg_content msg) None (msg_attachedFiles msg) None
  else
    let attribution := orStr (msg_participant_name msg) (orStr (msg_model msg) "Assistant") in
    mkTurn assistant (msg_content msg) (Some attribution) (msg_attachedFiles msg) None.

(** [messages.filter((m) => m.type === "user" || m.type === "assistant")]:
    a TypeError when [messages] is not there. *)
Definition filterMessages (messages : Nullable (list SynergyMessage))
    : Result (list SynergyMessage) :=
  match messages with
  | undefined => Throw (cannotRead "undefined" "filter")
  | null => Throw (cannotRead "null" "filter")
  | defined messages =>
      Ok (filter (fun m => (msg_type m =? "user") || (msg_type m =? "assistant")) messages)
  end.

(** The [processedMessages] array: declared empty, then filled by the loop
    over the filtered messages; it is still empty when [messages.filter]
    throws. *)
Definition processedMessages (messages : Nullable (list SynergyMessage)) : list Turn :=
  match filterMessages messages with
  | Ok kept => map processMessage kept
  | Throw _ => []
  end.

(** [xs.filter((_, idx) => idx !== i)], for [xs] starting at index [from]. *)
Fixpoint filterOthers {A : Type} (i from : nat) (xs : list A) : list A :=
  match xs with
  | [] => []
  | x :: rest =>
      if (from =? i)%nat then filterOthers i (S from) rest
      else x :: filterOthers i (S from) rest
  end.

Section Run.

Variable env : Providers.
Variable req : SynergyRequest.
(** The [participants] array, once validated. *)
Variable ps : list SynergyParticipant.

(** The two clients: [null] unless some participant needs them. *)
Definition anthropicClient : option (nat -> Anthropic) :=
  if needs "anthropic" ps then Some (messages_stream env) else None.

Definition openaiClient : option (nat -> OpenAI) :=
  if needs "openai" ps then Some (responses_create env) else None.

(** [i === participants.length - 1]; the loop runs only when the array
    is not empty. *)
Definition isLast (i : nat) : bool := (i =? length ps - 1)%nat.

(** The inner [try] block. *)
Definition dispatch (i : nat) (participant : SynergyParticipant) : M unit :=
  let otherParticipants := filterOthers i 0 ps in
  let participantSystemPrompt :=
    generateSystemPrompt participant otherParticipants (req_systemPrompt req) in
  match (if provider participant =? "anthropic" then anthropicClient else None) with
  | Some anthropic =>
      handleAnthropicParticipant participant (anthropic i) participantSystemPrompt
        (prefillContent req) (isLast i) (extendedThinking req) (budgetTokens req)
  | None =>
      match (if provider participant =? "openai" then openaiClient else None) with
      | Some openai =>
          handleOpenAIParticipant participant (openai i) participantSystemPrompt
            (prefillContent req) (isLast i)
      | None => ret tt
      end
  end.

(** The inner [catch]. *)
Definition reportError (participant : SynergyParticipant) (e : Thrown) : M unit :=
  flush (error (Some (name participant))
               ("❌ " ++ name participant ++ " error: " ++ errorText e)).

(** One iteration of the loop. *)
Definition iteration (i : nat) (participant : SynergyParticipant) : M unit :=
  tryCatch (dispatch i participant) (reportError participant).

(** [for (let i = ...; i < participants.length; i++)], from index [i] on. *)
Fixpoint loop (i : nat) (rest : list SynergyParticipant) : M unit :=
  match rest with
  | [] => ret tt
  | participant :: rest' => iteration i participant ;; loop (S i) rest'
  end.

(** The stream's [start]: the outer [try] and [catch]. *)
Definition start : St :=
  let conversationHistory := processedMessages (messages req) in
  snd (tryCatch (loop 0 ps ;; flush complete)
                (fun e => flush (error None (errorText e)))
                (mkSt conversationHistory [])).

End Run.

(** [POST], for a request body that parses.  What is thrown between the
    checks and the response is caught by the outer [catch], which answers
    500 with [error?.message || "Synergy API error"]: this is the TypeError
    of [messages.filter] when the body has no [messages]. *)
Definition POST (env : Providers) (req : SynergyRequest) : Response :=
  match participants req with
  | None => jsonResponse 400 "At least 1 participant required"
  | Some [] => jsonResponse 400 "At least 1 participant required"
  | Some ps =>
      let needsOpenAI := needs "openai" ps in
      let needsAnthropic := needs "anthropic" ps in
      if needsOpenAI && negb (truthyStr (openaiKey req)) then
        jsonResponse 400 "OpenAI API key is required for OpenAI models"
      else if needsAnthropic && negb (truthyStr (anthropicKey req)) then
        jsonResponse 400 "Anthropic API key is required for Anthropic models"
      else
        match filterMessages (messages req) with
        | Throw e => jsonResponse 500 (orStr (thrown_message e) "Synergy API error")
        | Ok _ => eventStream (sse (start env req ps))
        end
  end.

(** * Observations of a run

    The definitions below do not translate source text: they name what the
    properties speak about (the text of a stream, the state in which an
    iteration starts, whether an adapter call completed). *)

(** The visible text of an Anthropic stream, and the chunks relayed for it. *)
Fixpoint anthropicText (chunks : list AnthropicChunk) : string :=
  match chunks with
  | [] => ""
  | c :: rest =>
      if (chunk_type c =? "content_block_delta") && truthyStr (deltaText c)
      then template (deltaText c) ++ anthropicText rest
      else anthropicText rest
  end.

Fixpoint anthropicRelayed (participant : SynergyParticipant) (chunks : list AnthropicChunk)
    : list StreamEvent :=
  match chunks with
  | [] => []
  | c :: rest =>
      if (chunk_type c =? "content_block_delta") && truthyStr (deltaText c) then
        chunk (name participant) (model participant) (provider participant)
              (template (deltaText c)) :: anthropicRelayed participant rest
      else if (chunk_type c =? "content_block_delta") && isThinkingDelta c then
        chunk (name participant) (model participant) (provider participant)
              ("[THINKING]" ++ template (deltaThinking c) ++ "[/THINKING]")
          :: anthropicRelayed participant rest
      else anthropicRelayed participant rest
  end.

(** The same for an OpenAI stream. *)
Fixpoint openaiText (events : list OpenAIEvent) : string :=
  match events with
  | [] => ""
  | event :: rest =>
      if event_type event =? "response.output_text.delta"
      then orStr (event_delta event) "" ++ openaiText rest
      else openaiText rest
  end.

Fixpoint openaiRelayed (participant : SynergyParticipant) (events : list OpenAIEvent)
    : list StreamEvent :=
  match events with
  | [] => []
  | event :: rest =>
      if event_type event =? "response.output_text.delta" then
        chunk (name participant) (model participant) (provider participant)
              (orStr (event_delta event) "") :: openaiRelayed participant rest
      else openaiRelayed participant rest
  end.

(** The turn an adapter pushes when its stream has ended. *)
Definition replyTurn (participant : SynergyParticipant) (fullResponse : string) : Turn :=
  mkTurn assistant fullResponse (Some (name participant)) None (Some (name participant)).

(** The synthetic assistant turn that carries the prefill. *)
Definition prefillTurn (prefillContent : option string) : AnthropicMessage :=
  mkAnthropicMessage assistant (contentText (template prefillContent)).

(** The chunk that echoes the prefill. *)
Definition prefillEcho (participant : SynergyParticipant) (prefillContent : option string)
    (isLastParticipant : bool) : list StreamEvent :=
  if truthyStr prefillContent && isLastParticipant
  then [chunk (name participant) (model participant) (provider participant)
              (template prefillContent)]
  else [].

(** The request the Anthropic adapter sends when the history maps to [mapped]. *)
Definition anthropicSent (participant : SynergyParticipant) (mapped : list AnthropicMessage)
    (systemPrompt : string) (prefillContent : option string) (isLastParticipant : bool)
    (extendedThinking : option bool) (budgetTokens : option Z) : AnthropicRequest :=
  anthropicReq participant (withPrefill mapped prefillContent isLastParticipant)
               systemPrompt extendedThinking budgetTokens.

(** A content chunk attributed to [participant]. *)
Definition chunkOf (participant : SynergyParticipant) (ev : StreamEvent) : Prop :=
  exists text,
    ev = chunk (name participant) (model participant) (provider participant) text.

(** The event the inner [catch] flushes. *)
Definition errorEvent (participant : SynergyParticipant) (e : Thrown) : StreamEvent :=
  error (Some (name participant))
        ("❌ " ++ name participant ++ " error: " ++ errorText e).

(** Does the [if] chain of the inner [try] reach an adapter call? *)
Definition adapterCalled (ps : list SynergyParticipant) (participant : SynergyParticipant)
    : bool :=
  ((provider participant =? "anthropic") && needs "anthropic" ps)
  || ((provider participant =? "openai") && needs "openai" ps).

(** The system prompt built at iteration [i]. *)
Definition systemPromptAt (req : SynergyRequest) (ps : list SynergyParticipant) (i : nat)
    (participant : SynergyParticipant) : string :=
  generateSystemPrompt participant (filterOthers i 0 ps) (req_systemPrompt req).

(** The three ways an iteration can go: the adapter returns, having
    pushed its reply; the adapter throws, and the [catch] reports it; no
    adapter is called. *)
Inductive IterationShape (env : Providers) (req : SynergyRequest)
    (ps : list SynergyParticipant) (i : nat) (participant : SynergyParticipant) (st : St)
    : Prop :=
| shape_replied (text : string) (relayed : list StreamEvent)
    (Hcalled : adapterCalled ps participant = true)
    (Hchunks : Forall (chunkOf participant) relayed)
    (Hdispatch : dispatch env req ps i participant st =
                 (Ok tt, mkSt (conversationHistory st ++ [replyTurn participant text])%list
                              (sse st ++ relayed)%list))
    (Hiteration : iteration env req ps i participant st =
                  (Ok tt, mkSt (conversationHistory st ++ [replyTurn participant text])%list
                               (sse st ++ relayed)%list))
| shape_raised (e : Thrown) (relayed : list StreamEvent)
    (Hcalled : adapterCalled ps participant = true)
    (Hchunks : Forall (chunkOf participant) relayed)
    (Hdispatch : dispatch env req ps i participant st =
                 (Throw e, mkSt (conversationHistory st) (sse st ++ relayed)%list))
    (Hiteration : iteration env req ps i participant st =
                  (Ok tt, mkSt (conversationHistory st)
                               (sse st ++ relayed ++ [errorEvent participant e])%list))
| shape_skipped
    (Hcalled : adapterCalled ps participant = false)
    (Hdispatch : dispatch env req ps i participant st = (Ok tt, st))
    (Hiteration : iteration env req ps i participant st = (Ok tt, st)).

(** The state in which [start] enters the loop. *)
Definition initial (req : SynergyRequest) : St :=
  mkSt (processedMessages (messages req)) [].

(** The state in which iteration [N] (counted from 0) starts: the loop has
    run over the participants before it. *)
Definition stateBefore (env : Providers) (req : SynergyRequest)
    (ps : list SynergyParticipant) (N : nat) : St :=
  snd (loop env req ps 0 (firstn N ps) (initial req)).

(** The history the adapter of iteration [N] receives. *)
Definition historyBefore (env : Providers) (req : SynergyRequest)
    (ps : list SynergyParticipant) (N : nat) : list Turn :=
  conversationHistory (stateBefore env req ps N).

Definition isOk {A : Type} (r : Result A) : bool :=
  match r with
  | Ok _ => true
  | Throw _ => false
  end.

(** What the inner [try] of iteration [k] evaluates to. *)
Definition attempt (env : Providers) (req : SynergyRequest)
    (ps : list SynergyParticipant) (k : nat) (participant : SynergyParticipant)
    : Result unit :=
  fst (dispatch env req ps k participant (stateBefore env req ps k)).

(** Participant [k] completed: an adapter was called for it and returned. *)
Definition completed (env : Providers) (req : SynergyRequest)
    (ps : list SynergyParticipant) (k : nat) : bool :=
  match nth_error ps k with
  | Some participant => adapterCalled ps participant && isOk (attempt env req ps k participant)
  | None => false
  end.



(** ** The conditions of the request checks *)

(** Some participant of the request names the provider [which]. *)
Definition usesProvider (which : string) (req : SynergyRequest) : Prop :=
  exists ps participant,
    participants req = Some ps /\ In participant ps /\ provider participant = which.

(** No key was supplied: the property is absent, or the empty string (what
    the chat example sends for a key that was not typed in). *)
Definition noKey (key : option string) : Prop := truthyStr key = false.

(** The participants list is missing or empty. *)
Definition noParticipants (req : SynergyRequest) : Prop :=
  participants req = None \/ participants req = Some [].

Definition rejected (req : SynergyRequest) : Prop :=
  noParticipants req
  \/ (usesProvider "openai" req /\ noKey (openaiKey req))
  \/ (usesProvider "anthropic" req /\ noKey (anthropicKey req)).

(** ** Replies in the history *)

(** One reply turn for each index of [ks], in order, tagged with the name
    of the participant at that index; [texts] gives the contents. *)
Definition repliesOf (ps : list SynergyParticipant) (texts : nat -> string) (ks : list nat)
    : list Turn :=
  flat_map (fun k => match nth_error ps k with
                     | Some participant => [replyTurn participant (texts k)]
                     | None => []
                     end) ks.

(** The participants before [N] that completed, in order. *)
Definition completedBefore (env : Providers) (req : SynergyRequest)
    (ps : list SynergyParticipant) (N : nat) : list nat :=
  filter (completed env req ps) (seq 0 N).

(** ** The documented thinking budget *)

(** Following the spec's words: when the participant sets no budget, "the
    lesser of a fixed fallback and the participant's token ceiling minus a
    small reserve".  The fallback and the reserve are left open; the
    ceiling is the one the source computes the budget from. *)
Definition thinkBudget_spec (fallback reserve : Z) (participant : SynergyParticipant) : Z :=
  nullish (anthropicBudgetTokens participant)
          (Z.min fallback (orNum (maxTokens participant) 32000 - reserve)).

(** ** The documented history mapping *)

(** [`[${name}]: ${text}`]. *)
Definition prefixed (name text : string) : string := "[" ++ name ++ "]: " ++ text.

(** Following the spec's words: an assistant turn "other than the current
    provider's own continuation" is one that is not attributed to the
    participant the request is built for. *)
Definition ownTurn (participant : SynergyParticipant) (msg : Turn) : bool :=
  match attribution msg with
  | Some a => a =? name participant
  | None => false
  end.

(** Following the spec's words: the prefix goes on attributed assistant
    turns, except the participant's own, which are sent as they are. *)
Definition attributed_spec (participant : SynergyParticipant) (msg : Turn) : string :=
  if truthyStr (attribution msg) && negb (ownTurn participant msg)
  then prefixed (template (attribution msg)) (content msg)
  else content msg.

(** * Sample data

    The two participants of the repository's chat example, one user
    message, and a few vendor behaviours. *)

Definition gpt : SynergyParticipant :=
  mkParticipant "gpt-1" "GPT-5" "openai" "gpt-5"
                (Some "") (Some 1%Q) (Some 30000%Z) None None.

Definition claude : SynergyParticipant :=
  mkParticipant "claude-1" "Claude Sonnet 4.5" "anthropic" "claude-sonnet-4-5-20250929"
                (Some "") (Some (9 # 10)%Q) (Some 64000%Z) None None.

Definition hi : SynergyMessage := mkMessage "user" "hi" None None None.

Definition textDelta (text : string) : AnthropicChunk :=
  mkChunk "content_block_delta" (Some (mkDelta (Some "text_delta") (Some text) None)).

Definition outputDelta (text : string) : OpenAIEvent :=
  mkEvent "response.output_text.delta" (Some text).

Definition unauthorized : Thrown :=
  mkThrown (Some "401 Unauthorized") "Error: 401 Unauthorized".

(** Both vendors answer. *)
Definition bothAnswer : Providers :=
  mkProviders (fun _ _ => ApiStream [textDelta "Hello"; textDelta " there"] None)
              (fun _ _ => ApiStream [outputDelta "Hi"] None).

(** The OpenAI call is refused; Anthropic answers. *)
Definition openaiRefuses : Providers :=
  mkProviders (fun _ _ => ApiStream [textDelta "Hello"] None)
              (fun _ _ => ApiThrows unauthorized).

(** The OpenAI stream ends at once, without text; Anthropic answers. *)
Definition openaiSilent : Providers :=
  mkProviders (fun _ _ => ApiStream [textDelta "Hello"] None)
              (fun _ _ => ApiStream [] None).

(** A request with both keys and the given participants. *)
Definition chat (ps : list SynergyParticipant) (prefill : option string) : SynergyRequest :=
  mkRequest (defined [hi]) (Some ps) (Some "sk-openai") (Some "sk-ant")
            (Some "You are a helpful AI assistant participating in a collaborative discussion.")
            None None prefill.


(** A participant whose provider is neither of the two names. *)
Definition gemini : SynergyParticipant :=
  mkParticipant "gemini-1" "Gemini" "google" "gemini-pro" None None None None None.

(** A request without keys. *)
Definition keyless (ps : list SynergyParticipant) : SynergyRequest :=
  mkRequest (defined [hi]) (Some ps) None None None None None None.

(** Claude's reply of an earlier exchange, as the client sends it back. *)
Definition earlierReply : SynergyMessage :=
  mkMessage "assistant" "Hello" (Some "claude-sonnet-4-5-20250929")
            (Some "Claude Sonnet 4.5") None.

(** A request to go on from the earlier exchange: its last message is
    the reply Claude gave. *)
Definition followUp (ps : list SynergyParticipant) : SynergyRequest :=
  mkRequest (defined [hi; earlierReply])
            (Some ps) (Some "sk-openai") (Some "sk-ant") None None None None.

(** A user message with a text file and an image whose content is [null]. *)
Definition notes : AttachedFile := mkFile "notes.txt" "text/plain" (defined "remember the milk").


Definition withNotes : Turn := mkTurn user "see attached" None (Some [notes]) None.

(** A user turn with the text file and an image that holds a data URL. *)
Definition photo : AttachedFile :=
  mkFile "dot.png" "image/png" (defined "data:image/png;base64,iVBORw0KGgo=").

Definition withPhoto : Turn := mkTurn user "look at this" None (Some [notes; photo]) None.


Definition thinkingDelta (text : string) : AnthropicChunk :=
  mkChunk "content_block_delta" (Some (mkDelta (Some "thinking_delta") None (Some text))).

(** An Anthropic stream of one thinking delta. *)
Definition onlyThinks : Anthropic := fun _ => ApiStream [thinkingDelta "hmm"] None.

(** * Further observations *)

(** Does the character [c] occur in [s]? *)
Fixpoint hasChar (c : ascii) (s : string) : bool :=
  match s with
  | EmptyString => false
  | String a s' => Ascii.eqb a c || hasChar c s'
  end.




(** The first value [f] gives along a list. *)
Fixpoint firstSome {A B : Type} (f : A -> option B) (xs : list A) : option B :=
  match xs with
  | [] => None
  | x :: rest =>
      match f x with
      | Some b => Some b
      | None => firstSome f rest
      end
  end.



(** Where an image block comes from: a file typed as an image that holds a
    base64 data URL, of which the block has the media type and the data. *)
Definition imageOf (files : list AttachedFile) (block : ContentBlock) : Prop :=
  exists file data mediaType base64Data,
    In file files
    /\ String.prefix "image/" (file_type file) = true
    /\ file_content file = defined data
    /\ matchDataUrl data = Some (mediaType, base64Data)
    /\ block = imageBlock mediaType base64Data.

(** The events of one participant: its chunks, then at most one error
    event that carries its name. *)
Definition blockOf (participant : SynergyParticipant) (block : list StreamEvent) : Prop :=
  exists chunks tail,
    block = (chunks ++ tail)%list
    /\ Forall (chunkOf participant) chunks
    /\ (tail = [] \/ exists e, tail = [errorEvent participant e]).

(** The number of error events in an output. *)
Fixpoint countErrors (events : list StreamEvent) : nat :=
  match events with
  | [] => 0
  | error _ _ :: rest => S (countErrors rest)
  | _ :: rest => countErrors rest
  end.

(** The adapter call of participant [k] threw. *)
Definition threw (env : Providers) (req : SynergyRequest)
    (ps : list SynergyParticipant) (k : nat) : bool :=
  match nth_error ps k with
  | Some participant => negb (isOk (attempt env req ps k participant))
  | None => false
  end.

(** The text a client reads from a sequence of events: the contents of its
    chunks, one after the other. *)
Definition eventContent (ev : StreamEvent) : string :=
  match ev with
  | chunk _ _ _ text => text
  | _ => ""
  end.

Fixpoint transcript (events : list StreamEvent) : string :=
  match events with
  | [] => ""
  | ev :: rest => eventContent ev ++ transcript rest
  end.

(** A stream event of the thinking channel: a block delta without visible
    text whose delta is a thinking delta. *)
Definition thinkingOnly (c : AnthropicChunk) : bool :=
  (chunk_type c =? "content_block_delta")
  && negb (truthyStr (deltaText c))
  && isThinkingDelta c.

(** A stream event of the text channel, or one the adapter passes over:
    anything the second branch of the stream loop does not take. *)
Definition noThinking (c : AnthropicChunk) : bool := negb (thinkingOnly c).

(** The chunk relayed for a thinking delta. *)
Definition thinkingChunk (participant : SynergyParticipant) (c : AnthropicChunk)
    : StreamEvent :=
  chunk (name participant) (model participant) (provider participant)
        ("[THINKING]" ++ template (deltaThinking c) ++ "[/THINKING]").

(** The attribution discipline of a history: user turns carry none,
    assistant turns carry a non-empty one. *)
Definition wellAttributed (msg : Turn) : Prop :=
  match role msg with
  | user => attribution msg = None
  | assistant => truthyStr (attribution msg) = true
  end.

(** * Utility functions

    [formatParticipantName], [requiresFixedTemperature],
    [getDefaultTemperature], [getDefaultMaxTokens] and
    [validateParticipant] of the utilities module. *)

(** [name ? `${name} (${model})` : model]. *)
Definition formatParticipantName (name model : string) : string :=
  if truthyStr (Some name) then name ++ " (" ++ model ++ ")" else model.

(** [model.startsWith('gpt-5') || model.startsWith('o1') || model.startsWith('o3')]. *)
Definition requiresFixedTemperature (model : string) : bool :=
  String.prefix "gpt-5" model || String.prefix "o1" model || String.prefix "o3" model.

Definition getDefaultTemperature (model : string) : Q :=
  if requiresFixedTemperature model then 1%Q else (7 # 10)%Q.

(** The object literal [tokenLimits]. *)
Definition tokenLimits : list (string * Z) :=
  [ ("claude-opus-4-1-20250805", 64000%Z);
    ("claude-4-sonnet-20250514", 64000%Z);
    ("claude-sonnet-4-5-20250929", 64000%Z);
    ("claude-haiku-4-5-20251001", 64000%Z);
    ("gpt-5", 30000%Z);
    ("gpt-5-mini", 30000%Z);
    ("gpt-5-nano", 30000%Z);
    ("gpt-4.1", 32768%Z);
    ("o1", 30000%Z);
    ("o3-mini", 16384%Z) ].

(** The properties an object literal inherits from [Object.prototype]. *)
Definition objectPrototypeKeys : list string :=
  [ "constructor"; "hasOwnProperty"; "isPrototypeOf"; "propertyIsEnumerable";
    "toLocaleString"; "toString"; "valueOf"; "__proto__";
    "__defineGetter__"; "__defineSetter__"; "__lookupGetter__"; "__lookupSetter__" ].

(** What reading a property of [tokenLimits] gives: a number of the table,
    or a function or object inherited under one of the keys above. *)
Inductive PropertyValue :=
| numberValue (n : Z)
| inheritedValue (key : string).

Fixpoint ownProperty (table : list (string * Z)) (key : string) : option Z :=
  match table with
  | [] => None
  | (k, v) :: rest => if k =? key then Some v else ownProperty rest key
  end.

(** [table[key]]; [None] is [undefined]. *)
Definition readProperty (table : list (string * Z)) (key : string) : option PropertyValue :=
  match ownProperty table key with
  | Some v => Some (numberValue v)
  | None =>
      if existsb (String.eqb key) objectPrototypeKeys
      then Some (inheritedValue key)
      else None
  end.

(** [tokenLimits[model] || 16000]: a number other than 0 and an inherited
    function or object are truthy. *)
Definition getDefaultMaxTokens (model : string) : PropertyValue :=
  match readProperty tokenLimits model with
  | Some (numberValue n) => if (n =? 0)%Z then numberValue 16000 else numberValue n
  | Some (inheritedValue key) => inheritedValue key
  | None => numberValue 16000
  end.

(** The argument of [validateParticipant]: the fields it reads, as
    [SynergyParticipant] types them, each one possibly missing.  The model
    is read through ([model.startsWith]) without a test. *)
Record ParticipantInput := mkInput {
  in_id : option string;
  in_name : option string;
  in_provider : option string;
  in_model : Nullable string;
  in_temperature : option Q
}.

Record Validation := mkValidation {
  valid : bool;
  errors : list string
}.

(** A number is truthy unless it is 0. *)
Definition truthyNum (o : option Q) : bool :=
  match o with
  | Some t => negb (Qeq_bool t 0)
  | None => false
  end.

(** Calling [startsWith] on [undefined], and on [null]. *)
Definition undefinedStartsWithError : Thrown := cannotRead "undefined" "startsWith".

Definition nullStartsWithError : Thrown := cannotRead "null" "startsWith".

(** [if (c) errors.push(message)]. *)
Definition pushIf (c : bool) (message : string) (errors : list string) : list string :=
  if c then (errors ++ [message])%list else errors.

Definition validateParticipant (participant : ParticipantInput) : Result Validation :=
  let errors := [] in
  let errors := pushIf (negb (truthyStr (in_id participant))) "Participant ID is required" errors in
  let errors := pushIf (negb (truthyStr (in_name participant))) "Participant name is required" errors in
  let errors := pushIf (negb (truthyStr (in_provider participant))) "Provider is required" errors in
  let errors :=
    pushIf (negb (truthyStr (optional (in_model participant)))) "Model is required" errors in
  match (if match in_provider participant with
            | Some p => p =? "openai"
            | None => false
            end
         then match in_model participant with
              | defined model => Ok (requiresFixedTemperature model)
              | undefined => Throw undefinedStartsWithError
              | null => Throw nullStartsWithError
              end
         else Ok false) with
  | Throw e => Throw e
  | Ok fixed =>
      let errors :=
        pushIf (fixed
                && truthyNum (in_temperature participant)
                && match in_temperature participant with
                   | Some t => negb (Qeq_bool t 1)
                   | None => false
                   end)
               (template (optional (in_model participant)) ++ " requires temperature = 1.0")
               errors in
      Ok (mkValidation (match errors with [] => true | _ => false end) errors)
  end.

(** The input a typed participant gives. *)
Definition inputOf (participant : SynergyParticipant) : ParticipantInput :=
  mkInput (Some (id participant)) (Some (name participant)) (Some (provider participant))
          (defined (model participant)) (temperature participant).


(** [participant] with another temperature. *)
Definition withTemperature (participant : SynergyParticipant) (t : option Q)
    : SynergyParticipant :=
  mkParticipant (id participant) (name participant) (provider participant)
                (model participant) (systemPrompt participant) t
                (maxTokens participant) (openai participant) (anthropic participant).

(** * The client hook

    [sendMessage] of the [useSynergy] hook, run against the handler above.
    Conventions.
    - The hook's state is the React state [messages] and [isLoading];
      state setters take effect in the order they are called.  The calls of
      the [onError] and [onComplete] callbacks are logged.
    - [fetch] is answered by [POST]; a status from 200 to 299 is [ok].
    - The transport hands every [data:] line to the hook whole and well
      formed, so the hook handles the structured events, in order.
    - The clock gives what [Date.now()] and [toLocaleTimeString()] return at
      each call.  Aborting is not modelled. *)

(** A [SynergyMessage] as the hook keeps it. *)
Record ClientMessage := mkClientMessage {
  cm_id : Z;
  cm_type : string;
  cm_content : string;
  cm_timestamp : string;
  cm_model : option string;
  cm_participant_name : option string;
  cm_attachedFiles : option (list AttachedFile);
  cm_isError : option bool
}.

(** The message the handler reads from the request body. *)
Definition toWire (msg : ClientMessage) : SynergyMessage :=
  mkMessage (cm_type msg) (cm_content msg) (cm_model msg) (cm_participant_name msg)
            (cm_attachedFiles msg).

(** [interface SynergyConfig], the fields the handler reads. *)
Record SynergyConfig := mkConfig {
  cfg_openaiKey : option string;
  cfg_anthropicKey : option string;
  cfg_systemPrompt : option string;
  cfg_extendedThinking : option bool;
  cfg_budgetTokens : option Z;
  cfg_prefillContent : option string
}.

(** What the clock returns during one [sendMessage]. *)
Record Clock := mkClock {
  userNow : Z;
  userTime : string;
  bubbleNow : nat -> Z;
  bubbleTime : nat -> string;
  errorNow : Z;
  errorTime : string
}.

Record Hook := mkHook {
  hook_messages : list ClientMessage;
  hook_isLoading : bool;
  onErrorCalls : list string;
  onCompleteCalls : nat
}.

Definition setMessages (f : list ClientMessage -> list ClientMessage) (hook : Hook) : Hook :=
  mkHook (f (hook_messages hook)) (hook_isLoading hook)
         (onErrorCalls hook) (onCompleteCalls hook).

Definition setIsLoading (b : bool) (hook : Hook) : Hook :=
  mkHook (hook_messages hook) b (onErrorCalls hook) (onCompleteCalls hook).

(** [onError?.(error)], logged by the error's message. *)
Definition onError (message : string) (hook : Hook) : Hook :=
  mkHook (hook_messages hook) (hook_isLoading hook)
         (onErrorCalls hook ++ [message])%list (onCompleteCalls hook).

Definition onComplete (hook : Hook) : Hook :=
  mkHook (hook_messages hook) (hook_isLoading hook)
         (onErrorCalls hook) (S (onCompleteCalls hook)).

(** Is the byte a one-byte white space or line terminator: TAB, LF, VT,
    FF, CR, SP. *)
Definition space1 (a : ascii) : bool :=
  let n := nat_of_ascii a in
  (((9 <=? n) && (n <=? 13)) || (n =? 32))%nat.

(** U+00A0. *)
Definition space2 (a b : ascii) : bool :=
  ((nat_of_ascii a =? 194) && (nat_of_ascii b =? 160))%nat.

(** U+1680, U+2000 to U+200A, U+2028, U+2029, U+202F, U+205F, U+3000 and
    U+FEFF, in UTF-8. *)
Definition space3 (a b c : ascii) : bool :=
  let x := nat_of_ascii a in
  let y := nat_of_ascii b in
  let z := nat_of_ascii c in
  (((x =? 225) && (y =? 154) && (z =? 128))
   || ((x =? 226) && (y =? 128)
       && (((128 <=? z) && (z <=? 138)) || (z =? 168) || (z =? 169) || (z =? 175)))
   || ((x =? 226) && (y =? 129) && (z =? 159))
   || ((x =? 227) && (y =? 128) && (z =? 128))
   || ((x =? 239) && (y =? 187) && (z =? 191)))%nat.

(** [!s.trim()]: [s] holds white space and line terminators only. *)
Fixpoint blank (s : string) : bool :=
  match s with
  | EmptyString => true
  | String a rest =>
      if space1 a then blank rest
      else
        match rest with
        | String b rest2 =>
            if space2 a b then blank rest2
            else
              match rest2 with
              | String c rest3 => if space3 a b c then blank rest3 else false
              | EmptyString => false
              end
        | EmptyString => false
        end
  end.

(** [participants.map((participant, index) => ...)], from index [from]. *)
Fixpoint participantBubbles (clock : Clock) (from : nat)
    (participants : list SynergyParticipant) : list ClientMessage :=
  match participants with
  | [] => []
  | participant :: rest =>
      mkClientMessage (bubbleNow clock from + Z.of_nat from + 1)%Z
                      "assistant" "" (bubbleTime clock from)
                      (Some (model participant)) (Some (name participant)) None None
        :: participantBubbles clock (S from) rest
  end.

(** A [Map<string, string>], as the list of its entries. *)
Fixpoint mapGet (entries : list (string * string)) (key : string) : option string :=
  match entries with
  | [] => None
  | (k, v) :: rest => if k =? key then Some v else mapGet rest key
  end.

Fixpoint mapSet (entries : list (string * string)) (key value : string)
    : list (string * string) :=
  match entries with
  | [] => [(key, value)]
  | (k, v) :: rest =>
      if k =? key then (k, value) :: rest else (k, v) :: mapSet rest key value
  end.

(** [xs.findIndex(f)]; [None] is -1. *)
Fixpoint findIndex {A : Type} (f : A -> bool) (xs : list A) : option nat :=
  match xs with
  | [] => None
  | x :: rest => if f x then Some 0 else option_map S (findIndex f rest)
  end.

(** [{ ...msg, content, model, participant_name }]. *)
Definition withChunk (msg : ClientMessage) (updatedResponse : string)
    (dataModel : string) (participant : string) : ClientMessage :=
  mkClientMessage (cm_id msg) (cm_type msg) updatedResponse (cm_timestamp msg)
                  (Some dataModel) (Some (orStr (Some participant) dataModel))
                  (cm_attachedFiles msg) (cm_isError msg).

(** [{ ...msg, content, isError: true }]. *)
Definition withError (msg : ClientMessage) (message : string) : ClientMessage :=
  mkClientMessage (cm_id msg) (cm_type msg) (orStr (Some message) "Unknown error")
                  (cm_timestamp msg) (cm_model msg) (cm_participant_name msg)
                  (cm_attachedFiles msg) (Some true).

(** [prev.map((msg) => msg.id === id ? f(msg) : msg)]. *)
Definition updateById (id : Z) (f : ClientMessage -> ClientMessage)
    (prev : list ClientMessage) : list ClientMessage :=
  map (fun msg => if (cm_id msg =? id)%Z then f msg else msg) prev.

(** What handling one event line comes to: go on with the next line, or
    return. *)
Inductive Handled :=
| goOn (participantResponses : list (string * string)) (hook : Hook)
| returned (hook : Hook).

(** The body of the loop over the lines, for one parsed event. *)
Definition onEvent (participants : list SynergyParticipant)
    (participantBubbles : list ClientMessage)
    (participantResponses : list (string * string)) (hook : Hook)
    (data : StreamEvent) : Handled :=
  match data with
  | chunk participant dataModel _ content =>
      let currentResponse := orStr (mapGet participantResponses participant) "" in
      let updatedResponse := currentResponse ++ content in
      let participantResponses := mapSet participantResponses participant updatedResponse in
      let participantIndex :=
        findIndex (fun p => (name p =? participant)
                            || ((participant =? "") && (model p =? dataModel)))
                  participants in
      goOn participantResponses
           match participantIndex with
           | Some i =>
               match nth_error participantBubbles i with
               | Some bubble =>
                   setMessages
                     (updateById (cm_id bubble)
                                 (fun msg => withChunk msg updatedResponse dataModel participant))
                     hook
               | None => hook
               end
           | None => hook
           end
  | error participant message =>
      let participantIndex :=
        findIndex (fun p => match participant with
                            | Some n => name p =? n
                            | None => false
                            end) participants in
      goOn participantResponses
           match participantIndex with
           | Some i =>
               match nth_error participantBubbles i with
               | Some bubble =>
                   setMessages (updateById (cm_id bubble) (fun msg => withError msg message))
                               hook
               | None => hook
               end
           | None => hook
           end
  | complete => returned (onComplete (setIsLoading false hook))
  end.

(** [processText], over the events of the stream in order: it returns at
    the completion event, or when the stream is done. *)
Fixpoint processText (participants : list SynergyParticipant)
    (participantBubbles : list ClientMessage)
    (participantResponses : list (string * string)) (hook : Hook)
    (events : list StreamEvent) : Hook :=
  match events with
  | [] => hook
  | data :: rest =>
      match onEvent participants participantBubbles participantResponses hook data with
      | goOn participantResponses' hook' =>
          processText participants participantBubbles participantResponses' hook' rest
      | returned hook' => hook'
      end
  end.

(** [participants.forEach((participant) => participantResponses.set(participant.name, ""))]. *)
Definition initialResponses (participants : list SynergyParticipant)
    : list (string * string) :=
  fold_left (fun entries participant => mapSet entries (name participant) "")
            participants [].

(** The body of the request: [{ messages: newMessages, participants, ...config }]. *)
Definition requestBody (newMessages : list ClientMessage)
    (participants : list SynergyParticipant) (config : SynergyConfig) : SynergyRequest :=
  mkRequest (defined (map toWire newMessages)) (Some participants)
            (cfg_openaiKey config) (cfg_anthropicKey config) (cfg_systemPrompt config)
            (cfg_extendedThinking config) (cfg_budgetTokens config)
            (cfg_prefillContent config).

(** [`${n}`] for an integer. *)
Definition showInt (n : Z) : string := DecimalString.NilZero.string_of_int (Z.to_int n).

(** The message appended when the exchange fails as a whole. *)
Definition synergyError (clock : Clock) (message : string) : ClientMessage :=
  mkClientMessage (errorNow clock + 1)%Z "assistant"
    ("⚠️ **SYNERGY ERROR** ⚠️" ++ nl ++ nl ++ message ++ nl ++ nl
     ++ "Please check your API keys and network connection.")
    (errorTime clock) (Some "Synergy") None None (Some true).

Definition newUserMessage (clock : Clock) (userMessage : string) : ClientMessage :=
  mkClientMessage (userNow clock) "user" userMessage (userTime clock) None None None None.

Definition openaiKeyError : Thrown :=
  mkThrown (Some "OpenAI API Key is required for OpenAI participants")
           "Error: OpenAI API Key is required for OpenAI participants".

Definition anthropicKeyError : Thrown :=
  mkThrown (Some "Anthropic API Key is required for Anthropic participants")
           "Error: Anthropic API Key is required for Anthropic participants".

(** [sendMessage]: what it evaluates to, and the hook it leaves. *)
Definition sendMessage (env : Providers) (clock : Clock) (hook : Hook)
    (userMessage : string) (participants : list SynergyParticipant)
    (config : SynergyConfig) : Result unit * Hook :=
  if blank userMessage || hook_isLoading hook then (Ok tt, hook)
  else
    let needsOpenAI := needs "openai" participants in
    let needsAnthropic := needs "anthropic" participants in
    if needsOpenAI && negb (truthyStr (cfg_openaiKey config)) then
      (Throw openaiKeyError, onError (errorText openaiKeyError) hook)
    else if needsAnthropic && negb (truthyStr (cfg_anthropicKey config)) then
      (Throw anthropicKeyError, onError (errorText anthropicKeyError) hook)
    else
      let newMessages := (hook_messages hook ++ [newUserMessage clock userMessage])%list in
      let hook := setMessages (fun _ => newMessages) hook in
      let hook := setIsLoading true hook in
      let bubbles := participantBubbles clock 0 participants in
      let hook := setMessages (fun prev => prev ++ bubbles)%list hook in
      let hook :=
        match POST env (requestBody newMessages participants config) with
        | eventStream events =>
            processText participants bubbles (initialResponses participants) hook events
        | jsonResponse status _ =>
            if ((200 <=? status) && (status <=? 299))%Z then hook
            else
              let message := "HTTP error! status: " ++ showInt status in
              let hook := onError message hook in
              setMessages (fun prev => prev ++ [synergyError clock message])%list hook
        end in
      (Ok tt, setIsLoading false hook).

(** ** Observations of the hook *)

(** The bubble of participant [participant] at index [index]. *)
Definition bubbleOf (clock : Clock) (index : nat) (participant : SynergyParticipant)
    : ClientMessage :=
  mkClientMessage (bubbleNow clock index + Z.of_nat index + 1)%Z
                  "assistant" "" (bubbleTime clock index)
                  (Some (model participant)) (Some (name participant)) None None.

(** [msg] with another content. *)
Definition withContent (msg : ClientMessage) (text : string) : ClientMessage :=
  mkClientMessage (cm_id msg) (cm_type msg) text (cm_timestamp msg)
                  (cm_model msg) (cm_participant_name msg)
                  (cm_attachedFiles msg) (cm_isError msg).

(** The message of the first error event of a block, if it has one. *)
Fixpoint errorOf (block : list StreamEvent) : option string :=
  match block with
  | [] => None
  | error _ message :: _ => Some message
  | _ :: rest => errorOf rest
  end.

(** What a participant's bubble shows once the participant's events have
    been handled: the error message when there is one, else the chunks'
    text; a participant without events keeps its bubble as it was. *)
Definition shown (bubble : ClientMessage) (block : list StreamEvent) : ClientMessage :=
  match errorOf block with
  | Some message => withError bubble message
  | None =>
      match block with
      | [] => bubble
      | _ :: _ => withContent bubble (transcript block)
      end
  end.

(** The events of iteration [k] of a run. *)
Definition blockAt (env : Providers) (req : SynergyRequest)
    (ps : list SynergyParticipant) (k : nat) : list StreamEvent :=
  skipn (length (sse (stateBefore env req ps k))) (sse (stateBefore env req ps (S k))).

(** The bubbles after a run: each one shows the events of its iteration. *)
Fixpoint shownFrom (env : Providers) (req : SynergyRequest) (ps : list SynergyParticipant)
    (from : nat) (bubbles : list ClientMessage) : list ClientMessage :=
  match bubbles with
  | [] => []
  | bubble :: rest =>
      shown bubble (blockAt env req ps from) :: shownFrom env req ps (S from) rest
  end.

(** The hook's own checks pass. *)
Definition hookAccepts (hook : Hook) (userMessage : string)
    (participants : list SynergyParticipant) (config : SynergyConfig) : Prop :=
  blank userMessage = false
  /\ hook_isLoading hook = false
  /\ (needs "openai" participants = true -> truthyStr (cfg_openaiKey config) = true)
  /\ (needs "anthropic" participants = true -> truthyStr (cfg_anthropicKey config) = true).

(** A message that stands for the bubble of participant [participant] at
    index [k]: it has the bubble's id, model and participant name. *)
Definition bubbleFor (clock : Clock) (k : nat) (participant : SynergyParticipant)
    (msg : ClientMessage) : Prop :=
  cm_id msg = cm_id (bubbleOf clock k participant)
  /\ cm_model msg = Some (model participant)
  /\ cm_participant_name msg = Some (name participant).

(** The bubble once chunks have been handled, [acc] being the text that
    was accumulated before them. *)
Definition afterChunks (bubble : ClientMessage) (acc : string) (chunks : list StreamEvent)
    : ClientMessage :=
  match chunks with
  | [] => bubble
  | _ :: _ => withContent bubble (acc ++ transcript chunks)
  end.

(** Every value of the map is the empty string. *)
Definition allEmpty (entries : list (string * string)) : Prop :=
  Forall (fun entry => snd entry = "") entries.

(** An event whose participant name, if it is a chunk, is not empty. *)
Definition namedEvent (ev : StreamEvent) : Prop :=
  match ev with
  | chunk participant _ _ _ => participant <> ""
  | _ => True
  end.

(** ** Sample data for the hook *)

(** A clock, a configuration with both keys, and a hook at rest. *)
Definition noon : Clock :=
  mkClock 1000%Z "12:00:00" (fun _ => 1001%Z) (fun _ => "12:00:00") 2000%Z "12:00:05".

Definition bothKeys : SynergyConfig :=
  mkConfig (Some "sk-openai") (Some "sk-ant") None None None None.

Definition atRest : Hook := mkHook [] false [] 0.

(** * Properties *)

(** ** Strings *)

Lemma append_assoc (a b c : string) : (a ++ b) ++ c = a ++ (b ++ c).
Proof.
  induction a as [|x a IH]; simpl; [reflexivity | now rewrite IH].
Qed.

Lemma append_empty_r (a : string) : a ++ "" = a.
Proof.
  induction a as [|x a IH]; simpl; [reflexivity | now rewrite IH].
Qed.

Lemma truthyStr_intro (s : string) : s <> "" -> truthyStr (Some s) = true.
Proof.
  intros H. simpl. apply negb_true_iff. now apply String.eqb_neq.
Qed.

Lemma orStr_empty (s : string) : orStr (Some s) "" = s.
Proof.
  unfold orStr. simpl. destruct (String.eqb_spec s ""); simpl; congruence.
Qed.

(** ** What the stream loops do *)

Lemma forAwaitEvents_anthropic participant chunks : forall acc st,
  forAwaitEvents (onAnthropicChunk participant) chunks acc st =
  (Ok (acc ++ anthropicText chunks),
   mkSt (conversationHistory st) (sse st ++ anthropicRelayed participant chunks)%list).
Proof.
  induction chunks as [|c rest IH]; intros acc st; simpl.
  - unfold ret. rewrite append_empty_r, app_nil_r. now destruct st.
  - unfold bind at 1. unfold onAnthropicChunk.
    destruct ((chunk_type c =? "content_block_delta") && truthyStr (deltaText c)).
    + unfold bind, flush, ret; simpl. rewrite IH; simpl.
      now rewrite append_assoc, <- app_assoc.
    + destruct ((chunk_type c =? "content_block_delta") && isThinkingDelta c).
      * unfold bind, flush, ret; simpl. rewrite IH; simpl.
        now rewrite <- app_assoc.
      * unfold ret. now rewrite IH.
Qed.

Lemma forAwaitEvents_openai participant events : forall acc st,
  forAwaitEvents (onOpenAIEvent participant) events acc st =
  (Ok (acc ++ openaiText events),
   mkSt (conversationHistory st) (sse st ++ openaiRelayed participant events)%list).
Proof.
  induction events as [|event rest IH]; intros acc st; simpl.
  - unfold ret. rewrite append_empty_r, app_nil_r. now destruct st.
  - unfold bind at 1. unfold onOpenAIEvent.
    destruct (event_type event =? "response.output_text.delta").
    + unfold bind, flush, ret; simpl. rewrite IH; simpl.
      now rewrite append_assoc, <- app_assoc.
    + unfold ret. now rewrite IH.
Qed.

(** ** What one adapter call does *)

Lemma handleAnthropicParticipant_run participant api systemPrompt prefill last et bt st :
  handleAnthropicParticipant participant api systemPrompt prefill last et bt st =
  match anthropicMessages (conversationHistory st) with
  | Throw e => (Throw e, st)
  | Ok mapped =>
      match api (anthropicSent participant mapped systemPrompt prefill last et bt) with
      | ApiThrows e => (Throw e, st)
      | ApiStream chunks failure =>
          let out := (sse st ++ prefillEcho participant prefill last
                             ++ anthropicRelayed participant chunks)%list in
          match failure with
          | Some e => (Throw e, mkSt (conversationHistory st) out)
          | None =>
              (Ok tt,
               mkSt (conversationHistory st
                       ++ [replyTurn participant (orStr prefill "" ++ anthropicText chunks)])%list
                    out)
          end
      end
  end.
Proof.
  unfold handleAnthropicParticipant, anthropicSent, prefillEcho.
  unfold bind at 1. unfold getHistory at 1.
  unfold bind at 1. unfold liftR at 1.
  destruct (anthropicMessages (conversationHistory st)) as [mapped|e]; [|reflexivity].
  unfold bind at 1.
  destruct (api _) as [e|chunks failure]; [reflexivity|].
  unfold await, ret. unfold bind at 1.
  unfold when.
  destruct (truthyStr prefill && last); unfold flush, ret; unfold bind at 1;
    unfold forAwait, bind; simpl fst; simpl snd;
    rewrite forAwaitEvents_anthropic; simpl;
    destruct failure as [e|]; unfold throw, ret, push; simpl;
    rewrite ?app_nil_r, <- ?app_assoc; reflexivity.
Qed.

Lemma handleOpenAIParticipant_run participant api systemPrompt prefill last st :
  handleOpenAIParticipant participant api systemPrompt prefill last st =
  match api (openaiConfig participant (openaiInput (conversationHistory st)) systemPrompt) with
  | ApiThrows e => (Throw e, st)
  | ApiStream events failure =>
      let out := (sse st ++ openaiRelayed participant events)%list in
      match failure with
      | Some e => (Throw e, mkSt (conversationHistory st) out)
      | None =>
          (Ok tt,
           mkSt (conversationHistory st ++ [replyTurn participant (openaiText events)])%list out)
      end
  end.
Proof.
  unfold handleOpenAIParticipant.
  unfold bind at 1. unfold getHistory at 1.
  unfold bind at 1.
  destruct (api _) as [e|events failure]; [reflexivity|].
  unfold await, ret. unfold bind at 1.
  unfold forAwait, bind; simpl fst; simpl snd.
  rewrite forAwaitEvents_openai; simpl.
  destruct failure as [e|]; reflexivity.
Qed.

(** ** What one iteration of the loop does *)

Lemma anthropicRelayed_chunks participant chunks :
  Forall (chunkOf participant) (anthropicRelayed participant chunks).
Proof.
  induction chunks as [|c rest IH]; simpl; [constructor|].
  destruct (_ && truthyStr _); [constructor; [eexists; reflexivity | exact IH]|].
  destruct (_ && isThinkingDelta _); [constructor; [eexists; reflexivity | exact IH]|].
  exact IH.
Qed.

Lemma openaiRelayed_chunks participant events :
  Forall (chunkOf participant) (openaiRelayed participant events).
Proof.
  induction events as [|event rest IH]; simpl; [constructor|].
  destruct (event_type event =? _); [constructor; [eexists; reflexivity | exact IH]|].
  exact IH.
Qed.

Lemma prefillEcho_chunks participant prefill last :
  Forall (chunkOf participant) (prefillEcho participant prefill last).
Proof.
  unfold prefillEcho. destruct (_ && _); repeat constructor. eexists; reflexivity.
Qed.

Lemma needs_iff which ps :
  needs which ps = true <-> exists participant, In participant ps /\ provider participant = which.
Proof.
  unfold needs. rewrite existsb_exists. split.
  - intros (p & Hin & Hp). exists p. split; [exact Hin | now apply String.eqb_eq].
  - intros (p & Hin & Hp). exists p. split; [exact Hin | now apply String.eqb_eq].
Qed.

Lemma st_eta (st : St) : mkSt (conversationHistory st) (sse st ++ [])%list = st.
Proof. destruct st; simpl. now rewrite app_nil_r. Qed.

(** The inner [try] runs the Anthropic adapter, the OpenAI adapter, or
    nothing. *)
Lemma dispatch_anthropic env req ps i participant :
  provider participant = "anthropic" -> needs "anthropic" ps = true ->
  dispatch env req ps i participant =
  handleAnthropicParticipant participant (messages_stream env i)
    (systemPromptAt req ps i participant)
    (prefillContent req) (isLast ps i) (extendedThinking req) (budgetTokens req).
Proof.
  intros Hp Hn. unfold dispatch, anthropicClient, systemPromptAt.
  now rewrite Hp, Hn.
Qed.

Lemma dispatch_openai env req ps i participant :
  provider participant = "openai" -> needs "openai" ps = true ->
  dispatch env req ps i participant =
  handleOpenAIParticipant participant (responses_create env i)
    (systemPromptAt req ps i participant) (prefillContent req) (isLast ps i).
Proof.
  intros Hp Hn. unfold dispatch, openaiClient, systemPromptAt.
  now rewrite Hp, Hn.
Qed.

Lemma dispatch_none env req ps i participant :
  adapterCalled ps participant = false ->
  dispatch env req ps i participant = ret tt.
Proof.
  unfold adapterCalled, dispatch, anthropicClient, openaiClient. intros H.
  apply orb_false_iff in H. destruct H as [Ha Ho].
  destruct (provider participant =? "anthropic"); simpl in Ha; [rewrite Ha|];
    (destruct (provider participant =? "openai"); simpl in Ho; [rewrite Ho|]);
    reflexivity.
Qed.

Create HintDb relay.
#[local] Hint Resolve prefillEcho_chunks anthropicRelayed_chunks openaiRelayed_chunks : relay.
#[local] Hint Resolve Forall_nil : relay.

(** The adapter throws [e] after relaying [evs]; [Hd] says so. *)
Ltac raised_with e evs :=
  apply shape_raised with (e := e) (relayed := evs);
  [ assumption
  | try (apply Forall_app; split); auto with relay
  | rewrite ?st_eta; assumption
  | unfold iteration, tryCatch;
    match goal with H : dispatch _ _ _ _ _ _ = _ |- _ => rewrite H end;
    unfold reportError, flush, errorEvent; simpl; rewrite <- ?app_assoc; reflexivity ].

Lemma iteration_shape env req ps i participant st :
  IterationShape env req ps i participant st.
Proof.
  destruct (adapterCalled ps participant) eqn:Hcalled.
  - pose proof Hcalled as Hc. unfold adapterCalled in Hc.
    apply orb_true_iff in Hc.
    destruct Hc as [Hc|Hc]; apply andb_true_iff in Hc; destruct Hc as [Hp Hn];
      apply String.eqb_eq in Hp.
    + (* the Anthropic adapter *)
      pose proof (dispatch_anthropic env req ps i participant Hp Hn) as Hd.
      apply (f_equal (fun m => m st)) in Hd.
      rewrite handleAnthropicParticipant_run in Hd.
      destruct (anthropicMessages (conversationHistory st)) as [mapped|e];
        [|raised_with e (@nil StreamEvent)].
      destruct (messages_stream env i _) as [e|chunks [e|]]; cbv zeta in Hd.
      * raised_with e (@nil StreamEvent).
      * raised_with e (prefillEcho participant (prefillContent req) (isLast ps i)
                       ++ anthropicRelayed participant chunks)%list.
      * apply shape_replied with
          (text := orStr (prefillContent req) "" ++ anthropicText chunks)
          (relayed := (prefillEcho participant (prefillContent req) (isLast ps i)
                       ++ anthropicRelayed participant chunks)%list).
        -- assumption.
        -- apply Forall_app; split; auto with relay.
        -- exact Hd.
        -- unfold iteration, tryCatch. now rewrite Hd.
    + (* the OpenAI adapter *)
      pose proof (dispatch_openai env req ps i participant Hp Hn) as Hd.
      apply (f_equal (fun m => m st)) in Hd.
      rewrite handleOpenAIParticipant_run in Hd.
      destruct (responses_create env i _) as [e|events [e|]]; cbv zeta in Hd.
      * raised_with e (@nil StreamEvent).
      * raised_with e (openaiRelayed participant events).
      * apply shape_replied with (text := openaiText events)
                                 (relayed := openaiRelayed participant events).
        -- assumption.
        -- auto with relay.
        -- exact Hd.
        -- unfold iteration, tryCatch. now rewrite Hd.
  - pose proof (dispatch_none env req ps i participant Hcalled) as Hd.
    apply (f_equal (fun m => m st)) in Hd. unfold ret in Hd.
    apply shape_skipped; [assumption | exact Hd |].
    unfold iteration, tryCatch. now rewrite Hd.
Qed.

(** ** The loop *)

Lemma iteration_ok env req ps i participant st :
  iteration env req ps i participant st =
  (Ok tt, snd (iteration env req ps i participant st)).
Proof.
  destruct (iteration_shape env req ps i participant st);
    rewrite Hiteration; reflexivity.
Qed.

Lemma loop_cons env req ps i participant rest st :
  loop env req ps i (participant :: rest) st =
  loop env req ps (S i) rest (snd (iteration env req ps i participant st)).
Proof.
  simpl. unfold bind. now rewrite iteration_ok.
Qed.

(** The loop never throws: the outer [catch] is not reached. *)
Lemma loop_ok env req ps rest : forall i st,
  loop env req ps i rest st = (Ok tt, snd (loop env req ps i rest st)).
Proof.
  induction rest as [|participant rest IH]; intros i st.
  - reflexivity.
  - rewrite loop_cons. apply IH.
Qed.

Lemma loop_app env req ps a b : forall i st,
  loop env req ps i (a ++ b)%list st =
  loop env req ps (i + length a) b (snd (loop env req ps i a st)).
Proof.
  induction a as [|participant a IH]; intros i st.
  - simpl. now rewrite Nat.add_0_r.
  - change ((participant :: a) ++ b)%list with (participant :: (a ++ b))%list.
    rewrite !loop_cons, IH. simpl length.
    now rewrite Nat.add_succ_r.
Qed.

Lemma firstn_snoc {A : Type} (xs : list A) : forall N x,
  nth_error xs N = Some x -> firstn (S N) xs = (firstn N xs ++ [x])%list.
Proof.
  induction xs as [|y xs IH]; intros [|N] x H; simpl in H; try discriminate.
  - now inversion H.
  - change (firstn (S (S N)) (y :: xs)) with (y :: firstn (S N) xs).
    now rewrite (IH N x H).
Qed.

Lemma stateBefore_0 env req ps : stateBefore env req ps 0 = initial req.
Proof. reflexivity. Qed.

(** Iteration [N] takes the state before [N] to the state before [N + 1]. *)
Lemma stateBefore_S env req ps N participant :
  nth_error ps N = Some participant ->
  stateBefore env req ps (S N) =
  snd (iteration env req ps N participant (stateBefore env req ps N)).
Proof.
  intros H. unfold stateBefore.
  rewrite (firstn_snoc ps N participant H), loop_app. simpl.
  assert (HN : N < length ps) by (apply nth_error_Some; congruence).
  rewrite length_firstn, Nat.min_l by lia.
  unfold bind. now rewrite iteration_ok.
Qed.

Lemma stateBefore_all env req ps N :
  length ps <= N -> stateBefore env req ps N = stateBefore env req ps (length ps).
Proof.
  intros H. unfold stateBefore. now rewrite firstn_all2, firstn_all.
Qed.

(** The run is the loop over the participants before [N], then the loop
    from [N] on. *)
Lemma loop_from env req ps N :
  loop env req ps 0 ps (initial req) =
  loop env req ps (Nat.min N (length ps)) (skipn N ps) (stateBefore env req ps N).
Proof.
  unfold stateBefore.
  rewrite <- (firstn_skipn N ps) at 2.
  rewrite loop_app, length_firstn. reflexivity.
Qed.

Lemma start_loop env req ps :
  start env req ps =
  mkSt (conversationHistory (stateBefore env req ps (length ps)))
       (sse (stateBefore env req ps (length ps)) ++ [complete])%list.
Proof.
  unfold start, tryCatch, bind, stateBefore. rewrite firstn_all.
  fold (initial req). rewrite loop_ok. reflexivity.
Qed.






(** ** The states of a run *)

(** From here on [++] is list concatenation. *)
Local Open Scope list_scope.

(** One iteration only appends, to the history and to the output. *)
Lemma iteration_extends env req ps i participant st :
  exists turns evs,
    conversationHistory (snd (iteration env req ps i participant st))
      = (conversationHistory st ++ turns)%list /\
    sse (snd (iteration env req ps i participant st)) = (sse st ++ evs)%list.
Proof.
  destruct (iteration_shape env req ps i participant st); rewrite Hiteration; simpl.
  - eexists; eexists; split; reflexivity.
  - exists [], (relayed ++ [errorEvent participant e])%list.
    now rewrite app_nil_r.
  - exists [], []. now rewrite !app_nil_r.
Qed.

Lemma stateBefore_step env req ps N :
  exists turns evs,
    conversationHistory (stateBefore env req ps (S N))
      = (conversationHistory (stateBefore env req ps N) ++ turns)%list /\
    sse (stateBefore env req ps (S N)) = (sse (stateBefore env req ps N) ++ evs)%list.
Proof.
  destruct (nth_error ps N) as [participant|] eqn:H.
  - rewrite (stateBefore_S env req ps N participant H). apply iteration_extends.
  - apply nth_error_None in H.
    rewrite (stateBefore_all env req ps N), (stateBefore_all env req ps (S N)) by lia.
    exists [], []. now rewrite !app_nil_r.
Qed.

Lemma stateBefore_extends env req ps N M :
  N <= M ->
  exists turns evs,
    conversationHistory (stateBefore env req ps M)
      = (conversationHistory (stateBefore env req ps N) ++ turns)%list /\
    sse (stateBefore env req ps M) = (sse (stateBefore env req ps N) ++ evs)%list.
Proof.
  induction 1 as [|M _ IH].
  - exists [], []. now rewrite !app_nil_r.
  - destruct IH as (turns & evs & Hh & Hs).
    destruct (stateBefore_step env req ps M) as (turns' & evs' & Hh' & Hs').
    exists (turns ++ turns')%list, (evs ++ evs')%list.
    rewrite Hh', Hs', Hh, Hs, !app_assoc. split; reflexivity.
Qed.


(** A request that passes the checks is answered by the stream of [start]. *)
Lemma POST_stream env req events :
  POST env req = eventStream events ->
  exists ps,
    participants req = Some ps /\ ps <> [] /\
    (needs "openai" ps = true -> truthyStr (openaiKey req) = true) /\
    (needs "anthropic" ps = true -> truthyStr (anthropicKey req) = true) /\
    events = sse (start env req ps).
Proof.
  unfold POST. destruct (participants req) as [[|p ps]|]; try discriminate.
  destruct (needs "openai" (p :: ps) && negb (truthyStr (openaiKey req))) eqn:Ho;
    [discriminate|].
  destruct (needs "anthropic" (p :: ps) && negb (truthyStr (anthropicKey req))) eqn:Ha;
    [discriminate|].
  destruct (filterMessages (messages req)); [|discriminate].
  intros H. inversion H. exists (p :: ps).
  repeat split; try discriminate.
  - intros Hn. rewrite Hn in Ho. simpl in Ho. now apply negb_false_iff in Ho.
  - intros Hn. rewrite Hn in Ha. simpl in Ha. now apply negb_false_iff in Ha.
Qed.

(** What [POST] answers when the checks pass. *)
Lemma POST_passes env req ps :
  participants req = Some ps -> ps <> [] ->
  (needs "openai" ps = true -> truthyStr (openaiKey req) = true) ->
  (needs "anthropic" ps = true -> truthyStr (anthropicKey req) = true) ->
  POST env req
  = match filterMessages (messages req) with
    | Throw e => jsonResponse 500 (orStr (thrown_message e) "Synergy API error")
    | Ok _ => eventStream (sse (start env req ps))
    end.
Proof.
  intros Hps Hne Ho Ha. unfold POST. rewrite Hps.
  destruct ps as [|q qs]; [congruence|].
  destruct (needs "openai" (q :: qs)); [rewrite Ho by reflexivity|];
    (destruct (needs "anthropic" (q :: qs)); [rewrite Ha by reflexivity|]); reflexivity.
Qed.

(** The two ways the checks can go, and what [POST] answers then. *)
Lemma POST_cases env req :
  (rejected req /\ exists err, POST env req = jsonResponse 400 err)
  \/ (~ rejected req /\
      exists ps,
        participants req = Some ps /\ ps <> [] /\
        (needs "openai" ps = true -> truthyStr (openaiKey req) = true) /\
        (needs "anthropic" ps = true -> truthyStr (anthropicKey req) = true) /\
        POST env req
        = match filterMessages (messages req) with
          | Throw e => jsonResponse 500 (orStr (thrown_message e) "Synergy API error")
          | Ok _ => eventStream (sse (start env req ps))
          end).
Proof.
  unfold POST, rejected, noParticipants, usesProvider, noKey.
  destruct (participants req) as [[|p ps]|] eqn:Hps.
  - left. split; [left; now right | eexists; reflexivity].
  - destruct (needs "openai" (p :: ps)) eqn:Hno;
      [destruct (truthyStr (openaiKey req)) eqn:Hko|];
      (destruct (needs "anthropic" (p :: ps)) eqn:Hna;
        [destruct (truthyStr (anthropicKey req)) eqn:Hka|]); cbn [andb negb];
      try (left; split; [| eexists; reflexivity]);
      try (right; split;
           [| exists (p :: ps);
              repeat split; try reflexivity; try discriminate; try congruence]).
    all: try (right; left; split; [|reflexivity];
              apply needs_iff in Hno; destruct Hno as (q & Hin & Hq);
              exists (p :: ps), q; now repeat split).
    all: try (right; right; split; [|reflexivity];
              apply needs_iff in Hna; destruct Hna as (q & Hin & Hq);
              exists (p :: ps), q; now repeat split).
    all: intros [[Hn|Hn]|[[(ps' & q & Hps' & Hin & Hq) Hk]|[(ps' & q & Hps' & Hin & Hq) Hk]]];
      try discriminate; try congruence.
    all: inversion Hps'; subst ps'.
    all: try (assert (Hn : needs "openai" (p :: ps) = true)
                by (apply needs_iff; eauto); congruence).
    all: try (assert (Hn : needs "anthropic" (p :: ps) = true)
                by (apply needs_iff; eauto); congruence).
  - left. split; [left; now left | eexists; reflexivity].
Qed.

(** [POST] answers 400 exactly for the requests the checks refuse. *)
Lemma POST_400 env req :
  (exists err, POST env req = jsonResponse 400 err) <-> rejected req.
Proof.
  destruct (POST_cases env req) as [[Hr H400]|[Hn (ps & _ & _ & _ & _ & Hs)]].
  - tauto.
  - split; [|contradiction].
    intros [err Herr]. rewrite Hs in Herr.
    destruct (filterMessages (messages req)) as [kept|e] eqn:Hf; [discriminate|].
    destruct (messages req); inversion Hf; subst e; simpl in Herr; discriminate.
Qed.

(** * The orchestrator *)

(** ** Completion and validation *)






(** ** Participants with another provider *)

Lemma needs_without which before participant after :
  provider participant <> which ->
  needs which (before ++ participant :: after) = needs which (before ++ after).
Proof.
  intros Hp. unfold needs. rewrite !existsb_app. simpl.
  apply String.eqb_neq in Hp. now rewrite Hp.
Qed.

Lemma adapterCalled_other ps participant :
  provider participant <> "openai" -> provider participant <> "anthropic" ->
  adapterCalled ps participant = false.
Proof.
  intros Ho Ha. unfold adapterCalled.
  apply String.eqb_neq in Ho, Ha. now rewrite Ho, Ha.
Qed.

(** C8.  A participant whose provider is neither "openai" nor "anthropic"
    asks for no key: whether the request passes validation is decided by the
    other participants alone, and so is, for a body with its [messages]
    array, whether it is answered with the event stream.  In the loop its
    iteration leaves the state as it was (no chunk, no error event, nothing
    appended to the history), and the loop goes on with the next
    participant. *)
Theorem C8_other_provider_skipped env req ps i participant :
  provider participant <> "openai" ->
  provider participant <> "anthropic" ->
  (forall before after,
      participants req = Some (before ++ participant :: after) ->
      (~ rejected req <->
       ((needs "openai" (before ++ after) = true -> truthyStr (openaiKey req) = true) /\
        (needs "anthropic" (before ++ after) = true -> truthyStr (anthropicKey req) = true)))
      /\ (forall msgs,
             messages req = defined msgs ->
             ((exists events, POST env req = eventStream events) <->
              ((needs "openai" (before ++ after) = true ->
                truthyStr (openaiKey req) = true) /\
               (needs "anthropic" (before ++ after) = true ->
                truthyStr (anthropicKey req) = true)))))
  /\ (forall st, dispatch env req ps i participant st = (Ok tt, st))
  /\ (forall st, iteration env req ps i participant st = (Ok tt, st))
  /\ (forall rest st,
         loop env req ps i (participant :: rest) st = loop env req ps (S i) rest st).
Proof.
  intros Ho Ha.
  pose proof (adapterCalled_other ps participant Ho Ha) as Hcalled.
  assert (Hiter : forall st, iteration env req ps i participant st = (Ok tt, st)).
  { intros st. destruct (iteration_shape env req ps i participant st);
      congruence. }
  split; [|split; [|split]].
  - intros before after Hps.
    assert (Hne : before ++ participant :: after <> []) by now destruct before.
    assert (Hpasses :
      (needs "openai" (before ++ after) = true -> truthyStr (openaiKey req) = true) ->
      (needs "anthropic" (before ++ after) = true -> truthyStr (anthropicKey req) = true) ->
      POST env req
      = match filterMessages (messages req) with
        | Throw e => jsonResponse 500 (orStr (thrown_message e) "Synergy API error")
        | Ok _ => eventStream (sse (start env req (before ++ participant :: after)))
        end).
    { intros Hko Hka. apply POST_passes; try assumption.
      all: now rewrite needs_without by assumption. }
    split; [split|intros msgs Hmsgs; split].
    + intros Hpass.
      destruct (POST_cases env req) as [[Hr _]|[_ (ps' & Hps' & _ & Hko & Hka & _)]];
        [contradiction|].
      rewrite Hps in Hps'. inversion Hps'; subst ps'.
      rewrite !needs_without in * by assumption. now split.
    + intros [Hko Hka] Hr. apply (POST_400 env) in Hr. destruct Hr as [err Herr].
      rewrite (Hpasses Hko Hka) in Herr.
      destruct (messages req); simpl in Herr; discriminate.
    + intros [events Hev].
      destruct (POST_stream env req events Hev) as (ps' & Hps' & _ & Hko & Hka & _).
      rewrite Hps in Hps'. inversion Hps'; subst ps'.
      rewrite !needs_without in * by assumption. now split.
    + intros [Hko Hka]. rewrite (Hpasses Hko Hka), Hmsgs.
      eexists; reflexivity.
  - intros st. rewrite (dispatch_none env req ps i participant Hcalled). reflexivity.
  - exact Hiter.
  - intros rest st. rewrite loop_cons, Hiter. reflexivity.
Qed.

Lemma C8_witness :
  POST bothAnswer (keyless [gemini]) = eventStream [complete]
  /\ iteration bothAnswer (keyless [gemini]) [gemini] 0 gemini (initial (keyless [gemini]))
     = (Ok tt, initial (keyless [gemini])).
Proof.
  assert (Ho : provider gemini <> "openai") by discriminate.
  assert (Ha : provider gemini <> "anthropic") by discriminate.
  destruct (C8_other_provider_skipped bothAnswer (keyless [gemini]) [gemini] 0 gemini Ho Ha)
    as (_ & _ & Hiter & _).
  split; [vm_compute; reflexivity | apply Hiter].
Defined.

(** ** The history along a run *)

Lemma nth_error_length {A : Type} (xs : list A) N x :
  nth_error xs N = Some x -> N < length xs.
Proof. intros H. apply nth_error_Some. congruence. Qed.

(** What iteration [N] does to the history, by whether it completed. *)
Lemma history_step env req ps N participant :
  nth_error ps N = Some participant ->
  (completed env req ps N = true /\
   exists text,
     historyBefore env req ps (S N) =
     historyBefore env req ps N ++ [replyTurn participant text])
  \/ (completed env req ps N = false /\
      historyBefore env req ps (S N) = historyBefore env req ps N).
Proof.
  intros H. unfold historyBefore, completed, attempt.
  rewrite (stateBefore_S env req ps N participant H), H.
  destruct (iteration_shape env req ps N participant (stateBefore env req ps N));
    rewrite Hiteration, Hdispatch, Hcalled; simpl.
  - left. split; [reflexivity | now exists text].
  - right. split; reflexivity.
  - right. split; reflexivity.
Qed.

Lemma repliesOf_app ps texts ks ks' :
  repliesOf ps texts (ks ++ ks') = repliesOf ps texts ks ++ repliesOf ps texts ks'.
Proof. unfold repliesOf. apply flat_map_app. Qed.

Lemma repliesOf_ext ps texts texts' ks :
  (forall k, In k ks -> texts k = texts' k) -> repliesOf ps texts ks = repliesOf ps texts' ks.
Proof.
  intros H. unfold repliesOf. induction ks as [|k ks IH]; [reflexivity|].
  simpl. rewrite (H k) by now left.
  rewrite IH; [reflexivity|]. intros k' Hk'. apply H. now right.
Qed.

Lemma completedBefore_bound env req ps N k :
  In k (completedBefore env req ps N) -> k < N.
Proof.
  unfold completedBefore. intros H. apply filter_In in H. destruct H as [H _].
  apply in_seq in H. lia.
Qed.

Lemma history_replies env req ps N :
  N <= length ps ->
  exists texts,
    historyBefore env req ps N =
    processedMessages (messages req) ++ repliesOf ps texts (completedBefore env req ps N).
Proof.
  induction N as [|N IH]; intros HN.
  - exists (fun _ => ""%string). unfold historyBefore. rewrite stateBefore_0.
    simpl. now rewrite app_nil_r.
  - destruct IH as [texts IH]; [lia|].
    destruct (nth_error ps N) as [participant|] eqn:Hnth;
      [|apply nth_error_None in Hnth; lia].
    unfold completedBefore in *. rewrite seq_S, filter_app. simpl.
    destruct (history_step env req ps N participant Hnth) as [[Hc [text Hh]]|[Hc Hh]];
      rewrite Hh, Hc, IH.
    + exists (fun k => if (k =? N)%nat then text else texts k).
      rewrite repliesOf_app, app_assoc. f_equal.
      * f_equal. apply repliesOf_ext. intros k Hk.
        apply (completedBefore_bound env req ps N k) in Hk.
        destruct (Nat.eqb_spec k N); [lia | reflexivity].
      * unfold repliesOf. simpl. now rewrite Hnth, Nat.eqb_refl.
    + exists texts. now rewrite app_nil_r.
Qed.



(** ** A failing adapter call *)

(** C2, as amended.  When the adapter call of participant K throws, the
    chunks relayed before the failure are followed by an error event that
    carries K's name, the loop goes on with participant K+1, and the history
    K+1 receives is the history K received: nothing is appended for K,
    neither partial text from its stream nor an empty attributed turn. *)
Theorem C2_failure_appends_nothing env req ps K participant e :
  nth_error ps K = Some participant ->
  attempt env req ps K participant = Throw e ->
  (exists partial,
      Forall (chunkOf participant) partial /\
      sse (stateBefore env req ps (S K)) =
      sse (stateBefore env req ps K) ++ partial ++ [errorEvent participant e])
  /\ historyBefore env req ps (S K) = historyBefore env req ps K
  /\ loop env req ps 0 ps (initial req) =
     loop env req ps (S K) (skipn (S K) ps) (stateBefore env req ps (S K)).
Proof.
  intros Hnth Hthrow. unfold attempt in Hthrow. unfold historyBefore.
  assert (Hloop : loop env req ps 0 ps (initial req) =
                  loop env req ps (S K) (skipn (S K) ps) (stateBefore env req ps (S K))).
  { rewrite (loop_from env req ps (S K)).
    now rewrite Nat.min_l by (eapply nth_error_length; eassumption). }
  rewrite (stateBefore_S env req ps K participant Hnth) in *.
  destruct (iteration_shape env req ps K participant (stateBefore env req ps K));
    rewrite Hdispatch in Hthrow; simpl in Hthrow; try discriminate.
  inversion Hthrow; subst e0.
  rewrite Hiteration in *. simpl.
  split; [exists relayed; now split|]. split; [reflexivity | exact Hloop].
Qed.

Lemma C2_witness :
  (nth_error [gpt; claude] 0 = Some gpt
   /\ attempt openaiRefuses (chat [gpt; claude] None) [gpt; claude] 0 gpt = Throw unauthorized)
  /\ historyBefore openaiRefuses (chat [gpt; claude] None) [gpt; claude] 1
     = historyBefore openaiRefuses (chat [gpt; claude] None) [gpt; claude] 0.
Proof.
  assert (Hn : nth_error [gpt; claude] 0 = Some gpt) by reflexivity.
  assert (Ht : attempt openaiRefuses (chat [gpt; claude] None) [gpt; claude] 0 gpt
               = Throw unauthorized) by (vm_compute; reflexivity).
  split; [now split|].
  exact (proj1 (proj2 (C2_failure_appends_nothing
                         openaiRefuses (chat [gpt; claude] None) [gpt; claude] 0 gpt
                         unauthorized Hn Ht))).
Defined.

(** C2, as stated, fails.  With two participants, let the first one's
    adapter call throw in one run and complete with empty text in another.
    The second participant then receives the initial history in the first
    run and, in the second run, the initial history followed by an empty
    turn attributed to the first participant. *)
Lemma C2_counterexample :
  attempt openaiRefuses (chat [gpt; claude] None) [gpt; claude] 0 gpt = Throw unauthorized
  /\ attempt openaiSilent (chat [gpt; claude] None) [gpt; claude] 0 gpt = Ok tt
  /\ historyBefore openaiRefuses (chat [gpt; claude] None) [gpt; claude] 1
     = [mkTurn user "hi" None None None]
  /\ historyBefore openaiSilent (chat [gpt; claude] None) [gpt; claude] 1
     = [mkTurn user "hi" None None None; replyTurn gpt ""]
  /\ historyBefore openaiRefuses (chat [gpt; claude] None) [gpt; claude] 1
     <> historyBefore openaiSilent (chat [gpt; claude] None) [gpt; claude] 1.
Proof.
  repeat split; try (vm_compute; reflexivity).
  vm_compute. discriminate.
Qed.

(** ** The prefill of a participant that is not the last *)

Lemma isLast_false ps K : S K < length ps -> isLast ps K = false.
Proof. intros H. unfold isLast. apply Nat.eqb_neq. lia. Qed.

Lemma isLast_true ps K : S K = length ps -> isLast ps K = true.
Proof. intros H. unfold isLast. apply Nat.eqb_eq. lia. Qed.

(** C9.  With a prefill set, an Anthropic participant that is not the last
    one and whose adapter call completes: the request sent holds the mapped
    history and nothing else (no prefill turn), the chunks relayed are those
    of the stream (no echo of the prefill), and yet the reply appended to
    the history is the prefill followed by the text of the stream. *)
Theorem C9_prefill_leads_reply_of_earlier_participant env req ps K participant prefill :
  prefillContent req = Some prefill ->
  nth_error ps K = Some participant ->
  provider participant = "anthropic"%string ->
  S K < length ps ->
  completed env req ps K = true ->
  exists mapped chunks sent,
    anthropicMessages (historyBefore env req ps K) = Ok mapped
    /\ sent = anthropicReq participant mapped (systemPromptAt req ps K participant)
                           (extendedThinking req) (budgetTokens req)
    /\ ar_messages sent = mapped
    /\ messages_stream env K sent = ApiStream chunks None
    /\ sse (stateBefore env req ps (S K))
       = sse (stateBefore env req ps K) ++ anthropicRelayed participant chunks
    /\ historyBefore env req ps (S K)
       = historyBefore env req ps K
           ++ [replyTurn participant (prefill ++ anthropicText chunks)%string].
Proof.
  intros Hpre Hnth Hp HK Hc.
  assert (Hin : In participant ps) by (eapply nth_error_In; eassumption).
  assert (Hn : needs "anthropic" ps = true) by (apply needs_iff; eauto).
  unfold completed, attempt in Hc. rewrite Hnth in Hc.
  apply andb_true_iff in Hc. destruct Hc as [_ Hok].
  unfold historyBefore.
  rewrite (stateBefore_S env req ps K participant Hnth).
  unfold iteration, tryCatch.
  rewrite (dispatch_anthropic env req ps K participant Hp Hn) in *.
  rewrite handleAnthropicParticipant_run in *.
  rewrite (isLast_false ps K HK) in *.
  unfold anthropicSent, withPrefill, prefillEcho in *.
  rewrite andb_false_r in *.
  destruct (anthropicMessages (conversationHistory (stateBefore env req ps K)))
    as [mapped|e]; [|discriminate].
  destruct (messages_stream env K _) as [e|chunks [e|]] eqn:Hapi; try discriminate.
  exists mapped, chunks.
  eexists. split; [reflexivity|]. split; [reflexivity|].
  split; [unfold anthropicReq; now destruct (truthyBool _)|].
  split; [exact Hapi|]. cbv zeta. simpl.
  split; [reflexivity|].
  now rewrite Hpre, orStr_empty.
Qed.

Lemma C9_witness :
  exists mapped chunks sent,
    anthropicMessages
      (historyBefore bothAnswer (chat [claude; gpt] (Some "Sure, "%string)) [claude; gpt] 0)
    = Ok mapped
    /\ sent = anthropicReq claude mapped
                (systemPromptAt (chat [claude; gpt] (Some "Sure, "%string)) [claude; gpt] 0 claude)
                None None
    /\ ar_messages sent = mapped
    /\ messages_stream bothAnswer 0 sent = ApiStream chunks None
    /\ sse (stateBefore bothAnswer (chat [claude; gpt] (Some "Sure, "%string)) [claude; gpt] 1)
       = sse (stateBefore bothAnswer (chat [claude; gpt] (Some "Sure, "%string)) [claude; gpt] 0)
           ++ anthropicRelayed claude chunks
    /\ historyBefore bothAnswer (chat [claude; gpt] (Some "Sure, "%string)) [claude; gpt] 1
       = historyBefore bothAnswer (chat [claude; gpt] (Some "Sure, "%string)) [claude; gpt] 0
           ++ [replyTurn claude ("Sure, " ++ anthropicText chunks)%string].
Proof.
  apply (C9_prefill_leads_reply_of_earlier_participant
           bothAnswer (chat [claude; gpt] (Some "Sure, "%string)) [claude; gpt] 0 claude
           "Sure, ").
  - reflexivity.
  - reflexivity.
  - reflexivity.
  - simpl. lia.
  - vm_compute. reflexivity.
Defined.

(** ** The request of the Anthropic adapter *)

(** C6, as amended.  A budget set on the participant is the thinking budget,
    unchanged, whatever the request says.  With none set, the budget is the
    lesser of the request's [budgetTokens] (2000 when the request has none,
    or 0) and the participant's [maxTokens] (32000 when it has none, or 0)
    less 100.  The budget is sent when thinking is in use.  When thinking
    is not in use the temperature sent is the participant's, or 0.9 when
    the participant has none. *)
Theorem C6_budget_and_temperature participant msgs sp et bt :
  (forall b, anthropicBudgetTokens participant = Some b -> thinkBudget participant bt = b)
  /\ (anthropicBudgetTokens participant = None ->
      thinkBudget participant bt
      = Z.min (orNum bt 2000) (orNum (maxTokens participant) 32000 - 100))
  /\ (bt = None \/ bt = Some 0%Z -> orNum bt 2000 = 2000%Z)
  /\ (forall r, bt = Some r -> r <> 0%Z -> orNum bt 2000 = r)
  /\ (truthyBool (useThinking participant et) = true ->
      ar_thinking (anthropicReq participant msgs sp et bt)
      = Some (mkThinking (thinkBudget participant bt)))
  /\ (truthyBool (useThinking participant et) = false ->
      ar_thinking (anthropicReq participant msgs sp et bt) = None
      /\ ar_temperature (anthropicReq participant msgs sp et bt)
         = nullish (temperature participant) (9 # 10)%Q).
Proof.
  unfold thinkBudget, anthropicReq.
  split; [intros b Hb; now rewrite Hb|].
  split; [intros Hb; now rewrite Hb|].
  split; [intros [->| ->]; reflexivity|].
  split.
  - intros r -> Hr. simpl. apply Z.eqb_neq in Hr. now rewrite Hr.
  - split; intros ->; simpl; auto.
Qed.

(** C6, as stated, fails.  [claude] sets no budget of its own and has
    [maxTokens] 64000 and temperature 0.9.  With a request budget of 5000
    the thinking budget is 5000, with 3000 it is 3000: no fixed fallback
    and reserve give both.  And with thinking in use the temperature sent
    is 1, not the participant's 0.9. *)
Lemma C6_counterexample :
  anthropicBudgetTokens claude = None
  /\ thinkBudget claude (Some 5000%Z) = 5000%Z
  /\ thinkBudget claude (Some 3000%Z) = 3000%Z
  /\ thinkBudget_spec 2000 100 claude = 2000%Z
  /\ (forall fallback reserve,
         ~ (thinkBudget claude (Some 5000%Z) = thinkBudget_spec fallback reserve claude
            /\ thinkBudget claude (Some 3000%Z) = thinkBudget_spec fallback reserve claude))
  /\ temperature claude = Some (9 # 10)%Q
  /\ ar_temperature (anthropicReq claude [] "" (Some true) (Some 5000%Z)) = 1%Q
  /\ ar_temperature (anthropicReq claude [] "" (Some true) (Some 5000%Z))
     <> nullish (temperature claude) (9 # 10)%Q.
Proof.
  repeat split; try reflexivity.
  - intros fallback reserve [H1 H2]. rewrite <- H1 in H2. vm_compute in H2. discriminate.
  - vm_compute. discriminate.
Qed.



(** ** The history mapping *)

Lemma anthropicReq_messages participant msgs sp et bt :
  ar_messages (anthropicReq participant msgs sp et bt) = msgs.
Proof. unfold anthropicReq. now destruct (truthyBool _). Qed.

Lemma anthropicMessages_nth history : forall mapped i turn,
  anthropicMessages history = Ok mapped ->
  nth_error history i = Some turn ->
  exists m, anthropicMessage turn = Ok m /\ nth_error mapped i = Some m.
Proof.
  induction history as [|msg rest IH]; intros mapped i turn Hm Hn.
  - destruct i; discriminate.
  - simpl in Hm.
    destruct (anthropicMessage msg) as [m|e] eqn:Hmsg; [|discriminate].
    destruct (anthropicMessages rest) as [ms|e]; [|discriminate].
    inversion Hm; subst mapped.
    destruct i as [|i]; simpl in Hn.
    + inversion Hn; subst turn. exists m. now split.
    + destruct (IH ms i turn eq_refl Hn) as (m' & H1 & H2). exists m'. now split.
Qed.

Lemma withPrefill_nth mapped prefill last i m :
  nth_error mapped i = Some m ->
  nth_error (withPrefill mapped prefill last) i = Some m.
Proof.
  intros H. unfold withPrefill. destruct (truthyStr prefill && last); [|exact H].
  rewrite nth_error_app1; [exact H|]. apply nth_error_Some. congruence.
Qed.

Lemma attributed_some msg a :
  attribution msg = Some a -> a <> ""%string -> attributed msg = prefixed a (content msg).
Proof.
  intros Ha Hne. unfold attributed. rewrite Ha, (truthyStr_intro a Hne). reflexivity.
Qed.

Lemma attributed_none msg :
  truthyStr (attribution msg) = false -> attributed msg = content msg.
Proof. intros H. unfold attributed. now rewrite H. Qed.

Lemma anthropicMessage_user msg m :
  role msg = user -> truthyStr (attribution msg) = false ->
  anthropicMessage msg = Ok m ->
  am_role m = user
  /\ (am_content m = contentText (content msg)
      \/ exists images, am_content m = contentBlocks (textBlock (content msg) :: images)).
Proof.
  intros Hr Ha. unfold anthropicMessage. rewrite Hr.
  destruct (hasFiles msg).
  - destruct (imageBlocks _) as [[|image images]|e]; intros H; inversion H; simpl.
    + split; [reflexivity | now left].
    + split; [reflexivity | right; now exists (image :: images)].
  - rewrite (attributed_none msg Ha). intros H; inversion H; simpl.
    split; [reflexivity | now left].
Qed.

(** C7, as amended.  In the request of either adapter the turn at position
    [i] of the history is sent at position [i].  An assistant turn with a
    non-empty attribution is sent with its content behind the prefix
    [[name]: ], for every participant the request is built for, the one the
    turn is attributed to included.  An assistant turn without attribution
    and a user turn are sent with their text as it is.  The one assistant
    message sent without prefix that is not such a turn is the synthetic
    prefill turn the Anthropic adapter appends after the history. *)
Theorem C7_attributed_assistant_turns_prefixed participant history i turn :
  nth_error history i = Some turn ->
  (forall sp,
      let input := oc_input (openaiConfig participant (openaiInput history) sp) in
      (role turn = assistant ->
       forall a, attribution turn = Some a -> a <> ""%string ->
         nth_error input i
         = Some (mkOpenAIInput assistant (plainContent (prefixed a (content turn)))))
      /\ (role turn = assistant -> truthyStr (attribution turn) = false ->
          nth_error input i = Some (mkOpenAIInput assistant (plainContent (content turn))))
      /\ (role turn = user ->
          nth_error input i = Some (mkOpenAIInput user (inputText (content turn)))))
  /\ (forall mapped sp prefill last et bt,
         anthropicMessages history = Ok mapped ->
         let sent := ar_messages (anthropicSent participant mapped sp prefill last et bt) in
         (role turn = assistant ->
          forall a, attribution turn = Some a -> a <> ""%string ->
            nth_error sent i
            = Some (mkAnthropicMessage assistant (contentText (prefixed a (content turn)))))
         /\ (role turn = assistant -> truthyStr (attribution turn) = false ->
             nth_error sent i
             = Some (mkAnthropicMessage assistant (contentText (content turn))))
         /\ (role turn = user -> truthyStr (attribution turn) = false ->
             exists m,
               nth_error sent i = Some m /\ am_role m = user
               /\ (am_content m = contentText (content turn)
                   \/ exists images,
                        am_content m = contentBlocks (textBlock (content turn) :: images)))
         /\ (truthyStr prefill && last = true -> sent = mapped ++ [prefillTurn prefill])
         /\ (truthyStr prefill && last = false -> sent = mapped)).
Proof.
  intros Hnth. split.
  - intros sp. cbv zeta. unfold openaiConfig, openaiInput. simpl.
    rewrite nth_error_map, Hnth. simpl. unfold openaiInputItem.
    split; [|split].
    + intros Hr a Ha Hne. now rewrite Hr, (attributed_some turn a Ha Hne).
    + intros Hr Ha. now rewrite Hr, (attributed_none turn Ha).
    + intros Hr. now rewrite Hr.
  - intros mapped sp prefill last et bt Hmapped. cbv zeta.
    unfold anthropicSent. rewrite anthropicReq_messages.
    destruct (anthropicMessages_nth history mapped i turn Hmapped Hnth) as (m & Hm & Hi).
    rewrite (withPrefill_nth mapped prefill last i m Hi).
    split; [|split; [|split; [|split]]].
    + intros Hr a Ha Hne. unfold anthropicMessage in Hm. rewrite Hr in Hm.
      rewrite (attributed_some turn a Ha Hne) in Hm. now inversion Hm.
    + intros Hr Ha. unfold anthropicMessage in Hm. rewrite Hr in Hm.
      rewrite (attributed_none turn Ha) in Hm. now inversion Hm.
    + intros Hr Ha. exists m. split; [reflexivity|].
      now apply (anthropicMessage_user turn m).
    + intros H. unfold withPrefill. now rewrite H.
    + intros H. unfold withPrefill. now rewrite H.
Qed.

Lemma C7_witness :
  nth_error (processedMessages (messages (followUp [claude]))) 1
  = Some (mkTurn assistant "Hello" (Some "Claude Sonnet 4.5"%string) None None)
  /\ nth_error (oc_input (openaiConfig claude
                   (openaiInput (processedMessages (messages (followUp [claude])))) "")) 1
     = Some (mkOpenAIInput assistant (plainContent "[Claude Sonnet 4.5]: Hello")).
Proof.
  assert (H : nth_error (processedMessages (messages (followUp [claude]))) 1
              = Some (mkTurn assistant "Hello" (Some "Claude Sonnet 4.5"%string) None None))
    by reflexivity.
  split; [exact H|].
  destruct (C7_attributed_assistant_turns_prefixed claude _ 1 _ H) as [Hopenai _].
  destruct (Hopenai ""%string) as [Hprefixed _].
  apply (Hprefixed eq_refl "Claude Sonnet 4.5"%string eq_refl). discriminate.
Defined.

(** C7, as stated, fails.  The history of the request ends with the
    reply Claude gave before, attributed to Claude, and the request is built
    for Claude itself: the turn is the participant's own, of the provider's
    own, and the one the provider is to go on from.  Either adapter's
    mapping sends it with the prefix, where the documented mapping sends
    such a turn as it is. *)
Lemma C7_counterexample :
  historyBefore bothAnswer (followUp [claude]) [claude] 0
  = [mkTurn user "hi" None None None;
     mkTurn assistant "Hello" (Some "Claude Sonnet 4.5"%string) None None]
  /\ ownTurn claude (mkTurn assistant "Hello" (Some "Claude Sonnet 4.5"%string) None None) = true
  /\ attributed_spec claude (mkTurn assistant "Hello" (Some "Claude Sonnet 4.5"%string) None None)
     = "Hello"%string
  /\ anthropicMessages (historyBefore bothAnswer (followUp [claude]) [claude] 0)
     = Ok [mkAnthropicMessage user (contentText "hi");
           mkAnthropicMessage assistant (contentText "[Claude Sonnet 4.5]: Hello")]
  /\ openaiInput (historyBefore bothAnswer (followUp [claude]) [claude] 0)
     = [mkOpenAIInput user (inputText "hi");
        mkOpenAIInput assistant (plainContent "[Claude Sonnet 4.5]: Hello")]
  /\ attributed (mkTurn assistant "Hello" (Some "Claude Sonnet 4.5"%string) None None)
     <> attributed_spec claude
          (mkTurn assistant "Hello" (Some "Claude Sonnet 4.5"%string) None None).
Proof.
  repeat split; try reflexivity.
  vm_compute. discriminate.
Qed.

(** ** The prefill of the last participant *)

(** When the last participant is an Anthropic one, its history maps and
    the streaming call is accepted: the request ends with the prefill turn,
    and the first event relayed for the participant is the echo of the
    prefill. *)
Lemma prefill_of_last_anthropic env req ps K participant prefill mapped chunks failure :
  prefillContent req = Some prefill ->
  prefill <> ""%string ->
  nth_error ps K = Some participant ->
  provider participant = "anthropic"%string ->
  S K = length ps ->
  anthropicMessages (historyBefore env req ps K) = Ok mapped ->
  messages_stream env K
    (anthropicSent participant mapped (systemPromptAt req ps K participant)
                   (prefillContent req) true (extendedThinking req) (budgetTokens req))
  = ApiStream chunks failure ->
  ar_messages
    (anthropicSent participant mapped (systemPromptAt req ps K participant)
                   (prefillContent req) true (extendedThinking req) (budgetTokens req))
  = mapped ++ [prefillTurn (Some prefill)]
  /\ sse (stateBefore env req ps (S K))
     = sse (stateBefore env req ps K)
         ++ chunk (name participant) (model participant) (provider participant) prefill
         :: anthropicRelayed participant chunks
         ++ match failure with
            | Some e => [errorEvent participant e]
            | None => []
            end.
Proof.
  intros Hpre Hne Hnth Hp HK Hmapped Hapi.
  assert (Hin : In participant ps) by (eapply nth_error_In; eassumption).
  assert (Hn : needs "anthropic" ps = true) by (apply needs_iff; eauto).
  assert (Ht : truthyStr (prefillContent req) && true = true).
  { rewrite Hpre, (truthyStr_intro prefill Hne). reflexivity. }
  split.
  - unfold anthropicSent. rewrite anthropicReq_messages. unfold withPrefill.
    rewrite Ht, Hpre. reflexivity.
  - rewrite (stateBefore_S env req ps K participant Hnth).
    unfold iteration, tryCatch.
    rewrite (dispatch_anthropic env req ps K participant Hp Hn).
    rewrite handleAnthropicParticipant_run.
    unfold historyBefore in Hmapped. rewrite Hmapped.
    rewrite (isLast_true ps K HK), Hapi. cbv zeta.
    unfold prefillEcho. rewrite Ht, Hpre.
    destruct failure as [e|]; simpl.
    + unfold errorEvent. rewrite <- !app_assoc. reflexivity.
    + rewrite app_nil_r. reflexivity.
Qed.

(** C1 at a failing input: one OpenAI participant, hence the last one,
    and the prefill "Sure, ".  The OpenAI adapter is handed the prefill and
    the last-participant flag and reads neither: its request holds the user
    turn alone, and the first chunk relayed is the first chunk of the
    stream, not the prefill.  The Anthropic adapter at the same place in a
    like request echoes the prefill first. *)
Theorem C1_openai_adapter_drops_prefill :
  isLast [gpt] 0 = true
  /\ dispatch bothAnswer (chat [gpt] (Some "Sure, "%string)) [gpt] 0 gpt
     = handleOpenAIParticipant gpt (responses_create bothAnswer 0)
         (systemPromptAt (chat [gpt] (Some "Sure, "%string)) [gpt] 0 gpt)
         (Some "Sure, "%string) true
  /\ oc_input (openaiConfig gpt
                 (openaiInput (historyBefore bothAnswer (chat [gpt] (Some "Sure, "%string))
                                             [gpt] 0))
                 (systemPromptAt (chat [gpt] (Some "Sure, "%string)) [gpt] 0 gpt))
     = [mkOpenAIInput user (inputText "hi")]
  /\ POST bothAnswer (chat [gpt] (Some "Sure, "%string))
     = eventStream [chunk "GPT-5" "gpt-5" "openai" "Hi"; complete]
  /\ (forall participant api sp prefill last,
         handleOpenAIParticipant participant api sp prefill last
         = handleOpenAIParticipant participant api sp None false)
  /\ POST bothAnswer (chat [claude] (Some "Sure, "%string))
     = eventStream
         [chunk "Claude Sonnet 4.5" "claude-sonnet-4-5-20250929" "anthropic" "Sure, ";
          chunk "Claude Sonnet 4.5" "claude-sonnet-4-5-20250929" "anthropic" "Hello";
          chunk "Claude Sonnet 4.5" "claude-sonnet-4-5-20250929" "anthropic" " there";
          complete].
Proof.
  repeat split; reflexivity.
Qed.

(** * Further properties of the handler *)

(** ** Data URLs of attached images *)

Lemma stripPrefix_spec p : forall s r,
  stripPrefix p s = Some r <-> s = (p ++ r)%string.
Proof.
  induction p as [|a p IH]; intros s r; simpl.
  - split; [intros H; now inversion H | intros ->; reflexivity].
  - destruct s as [|b s].
    + split; discriminate.
    + destruct (Ascii.eqb_spec a b) as [->|Hab].
      * rewrite IH. split; [intros ->; reflexivity | intros H; now inversion H].
      * split; [discriminate | intros H; inversion H; congruence].
Qed.

Lemma spanNot_spec c s : forall before rest,
  spanNot c s = (before, rest) ->
  s = (before ++ rest)%string
  /\ hasChar c before = false
  /\ (rest = ""%string \/ exists rest', rest = String c rest').
Proof.
  induction s as [|a s IH]; intros before rest; simpl.
  - intros H; inversion H. repeat split; now left.
  - destruct (Ascii.eqb_spec a c) as [->|Hac].
    + intros H; inversion H. repeat split. right. now exists s.
    + destruct (spanNot c s) as [before' rest'] eqn:Hs.
      intros H; inversion H; subst before rest.
      destruct (IH before' rest' eq_refl) as (Heq & Hno & Hrest).
      simpl. apply Ascii.eqb_neq in Hac. rewrite Hac, Hno.
      repeat split; [now rewrite Heq | exact Hrest].
Qed.

Lemma spanNot_stop c before : forall rest,
  hasChar c before = false ->
  spanNot c (before ++ String c rest)%string = (before, String c rest).
Proof.
  induction before as [|a before IH]; intros rest; simpl.
  - now rewrite Ascii.eqb_refl.
  - intros H. apply orb_false_iff in H. destruct H as [Ha Hb].
    now rewrite Ha, (IH rest Hb).
Qed.

(** X1.  The pattern [/^data:([^;]+);base64,(.+)$/] accepts exactly the
    strings [data:<media type>;base64,<data>] whose media type is not empty
    and holds no semicolon, and whose data is not empty and holds no line
    terminator; the two groups are the media type and the data. *)
Theorem matchDataUrl_spec s mediaType base64Data :
  matchDataUrl s = Some (mediaType, base64Data)
  <-> s = ("data:" ++ mediaType ++ ";base64," ++ base64Data)%string
      /\ mediaType <> ""%string
      /\ hasChar ";"%char mediaType = false
      /\ base64Data <> ""%string
      /\ hasLineTerminator base64Data = false.
Proof.
  unfold matchDataUrl. split.
  - destruct (stripPrefix "data:" s) as [r|] eqn:Hdata; [|discriminate].
    apply stripPrefix_spec in Hdata.
    destruct (spanNot ";"%char r) as [mt rest] eqn:Hspan.
    destruct (spanNot_spec _ _ _ _ Hspan) as (Hr & Hno & _).
    destruct (String.eqb_spec mt "") as [|Hmt]; [discriminate|].
    destruct (stripPrefix ";base64," rest) as [d|] eqn:Hb64; [|discriminate].
    apply stripPrefix_spec in Hb64.
    destruct (String.eqb_spec d "") as [|Hd]; [discriminate|].
    destruct (hasLineTerminator d) eqn:Hlt; [discriminate|].
    simpl. intros H; inversion H; subst mt d.
    repeat split; try assumption. now rewrite Hdata, Hr, Hb64.
  - intros (-> & Hmt & Hno & Hd & Hlt).
    assert (Hdata : stripPrefix "data:" ("data:" ++ mediaType ++ ";base64," ++ base64Data)
                    = Some (mediaType ++ ";base64," ++ base64Data)%string)
      by now apply stripPrefix_spec.
    rewrite Hdata.
    change (";base64," ++ base64Data)%string with (String ";" ("base64," ++ base64Data)).
    rewrite (spanNot_stop _ _ _ Hno).
    apply String.eqb_neq in Hmt, Hd. rewrite Hmt.
    assert (Hb64 : stripPrefix ";base64," (String ";" ("base64," ++ base64Data))
                   = Some base64Data) by now apply stripPrefix_spec.
    rewrite Hb64, Hd, Hlt. reflexivity.
Qed.

(** ** When the Anthropic mapping throws *)


Lemma firstSome_none {A B : Type} (f : A -> option B) (xs : list A) :
  firstSome f xs = None <-> existsb (fun x => match f x with Some _ => true | None => false end) xs = false.
Proof.
  induction xs as [|x xs IH]; simpl; [tauto|].
  destruct (f x); simpl; [split; discriminate | exact IH].
Qed.











(** ** Attachments *)

Lemma imageBlocks_none files :
  (forall file, In file files ->
     String.prefix "image/" (file_type file) = false
     \/ exists data, file_content file = defined data /\ matchDataUrl data = None) ->
  imageBlocks files = Ok [].
Proof.
  induction files as [|file rest IH]; intros H; simpl; [reflexivity|].
  rewrite IH by (intros f Hf; apply H; now right).
  destruct (H file (or_introl eq_refl)) as [->|(data & -> & ->)]; [reflexivity|].
  now destruct (String.prefix "image/" (file_type file)).
Qed.

Lemma imageBlocks_from files : forall blocks,
  imageBlocks files = Ok blocks -> Forall (imageOf files) blocks.
Proof.
  induction files as [|file rest IH]; intros blocks; simpl.
  - intros H; inversion H. constructor.
  - assert (Hrest : forall bs, Forall (imageOf rest) bs -> Forall (imageOf (file :: rest)) bs).
    { intros bs. apply Forall_impl.
      intros b (f & data & mt & d & Hin & Hrest). exists f, data, mt, d.
      split; [now right | exact Hrest]. }
    destruct (String.prefix "image/" (file_type file)) eqn:Himg;
      [|intros H; now apply Hrest, IH].
    destruct (file_content file) as [| |data] eqn:Hc; try discriminate.
    destruct (imageBlocks rest) as [bs|e]; [|discriminate].
    destruct (matchDataUrl data) as [[mt d]|] eqn:Hm; intros H; inversion H; subst blocks.
    + constructor; [|now apply Hrest, IH].
      exists file, data, mt, d. repeat split; try assumption. now left.
    + now apply Hrest, IH.
Qed.

Lemma imageBlocks_complete files : forall blocks file data mediaType base64Data,
  imageBlocks files = Ok blocks ->
  In file files ->
  String.prefix "image/" (file_type file) = true ->
  file_content file = defined data ->
  matchDataUrl data = Some (mediaType, base64Data) ->
  In (imageBlock mediaType base64Data) blocks.
Proof.
  induction files as [|f rest IH]; intros blocks file data mt d Hb Hin Himg Hc Hm;
    [destruct Hin|].
  simpl in Hb. destruct Hin as [->|Hin].
  - rewrite Himg, Hc in Hb.
    destruct (imageBlocks rest) as [bs|e]; [|discriminate].
    rewrite Hm in Hb. inversion Hb. now left.
  - destruct (String.prefix "image/" (file_type f));
      [|exact (IH blocks file data mt d Hb Hin Himg Hc Hm)].
    destruct (file_content f) as [| |data']; try discriminate.
    destruct (imageBlocks rest) as [bs|e] eqn:Hrest; [|discriminate].
    pose proof (IH bs file data mt d eq_refl Hin Himg Hc Hm) as Hbs.
    destruct (matchDataUrl data') as [[mt' d']|]; inversion Hb; subst blocks;
      [now right | exact Hbs].
Qed.

(** X3.  An attached file reaches a provider only as an image block of the
    Anthropic request.  Whatever is attached to a user turn, the OpenAI
    input item is the turn's text alone.  The Anthropic message is the
    turn's text, followed by image blocks only, each one the media type
    and the data of the base64 data URL that a file typed as an image
    holds, and every such file of the turn has its block; when no file of
    the turn is such a file, the message is the turn's text alone. *)
Theorem attachments_only_as_image_blocks msg files :
  role msg = user ->
  attachedFiles msg = Some files ->
  openaiInputItem msg = mkOpenAIInput user (inputText (content msg))
  /\ (truthyStr (attribution msg) = false ->
      (forall file, In file files ->
         String.prefix "image/" (file_type file) = false
         \/ exists data, file_content file = defined data /\ matchDataUrl data = None) ->
      anthropicMessage msg = Ok (mkAnthropicMessage user (contentText (content msg))))
  /\ (truthyStr (attribution msg) = false ->
      forall m, anthropicMessage msg = Ok m ->
      am_role m = user
      /\ (am_content m = contentText (content msg)
          \/ exists images,
               am_content m = contentBlocks (textBlock (content msg) :: images)
               /\ images <> []
               /\ Forall (imageOf files) images))
  /\ (forall m file data mediaType base64Data,
         anthropicMessage msg = Ok m ->
         In file files ->
         String.prefix "image/" (file_type file) = true ->
         file_content file = defined data ->
         matchDataUrl data = Some (mediaType, base64Data) ->
         exists images,
           am_content m = contentBlocks (textBlock (content msg) :: images)
           /\ In (imageBlock mediaType base64Data) images).
Proof.
  intros Hr Hf. split; [|split; [|split]].
  - unfold openaiInputItem. now rewrite Hr.
  - intros Ha Hfiles. unfold anthropicMessage. rewrite Hr.
    destruct (hasFiles msg).
    + rewrite Hf. simpl. now rewrite (imageBlocks_none files Hfiles).
    + now rewrite (attributed_none msg Ha).
  - intros Ha m. unfold anthropicMessage. rewrite Hr.
    destruct (hasFiles msg).
    + rewrite Hf. cbn [nullish].
      destruct (imageBlocks files) as [[|image images]|e] eqn:Hblocks;
        intros H; inversion H; simpl.
      * split; [reflexivity | now left].
      * split; [reflexivity|]. right. exists (image :: images).
        repeat split; [discriminate | now apply imageBlocks_from].
    + rewrite (attributed_none msg Ha). intros H; inversion H; simpl.
      split; [reflexivity | now left].
  - intros m file data mt d Hm Hin Himg Hc Hmatch.
    unfold anthropicMessage, hasFiles in Hm. rewrite Hr, Hf in Hm.
    destruct files as [|f rest]; [destruct Hin|]. cbn [nullish] in Hm.
    destruct (imageBlocks (f :: rest)) as [blocks|e] eqn:Hblocks; [|discriminate].
    pose proof (imageBlocks_complete _ _ _ _ _ _ Hblocks Hin Himg Hc Hmatch) as Hblock.
    destruct blocks as [|image images]; [destruct Hblock|].
    inversion Hm. exists (image :: images). now split.
Qed.

Lemma attachments_only_as_image_blocks_witness :
  openaiInputItem withPhoto = mkOpenAIInput user (inputText "look at this")
  /\ anthropicMessage withNotes = Ok (mkAnthropicMessage user (contentText "see attached"))
  /\ (forall m,
         anthropicMessage withPhoto = Ok m ->
         am_role m = user
         /\ (am_content m = contentText (content withPhoto)
             \/ exists images,
                  am_content m = contentBlocks (textBlock (content withPhoto) :: images)
                  /\ images <> []
                  /\ Forall (imageOf [notes; photo]) images))
  /\ (forall m,
         anthropicMessage withPhoto = Ok m ->
         exists images,
           am_content m = contentBlocks (textBlock (content withPhoto) :: images)
           /\ In (imageBlock "image/png" "iVBORw0KGgo=") images).
Proof.
  split; [|split; [|split]].
  - exact (proj1 (attachments_only_as_image_blocks withPhoto [notes; photo]
                    eq_refl eq_refl)).
  - apply (proj1 (proj2 (attachments_only_as_image_blocks withNotes [notes]
                           eq_refl eq_refl))); [reflexivity|].
    intros file [<-|[]]. now left.
  - exact (proj1 (proj2 (proj2 (attachments_only_as_image_blocks withPhoto [notes; photo]
                                  eq_refl eq_refl))) eq_refl).
  - intros m Hm.
    apply (proj2 (proj2 (proj2 (attachments_only_as_image_blocks withPhoto [notes; photo]
                                  eq_refl eq_refl)))
             m photo "data:image/png;base64,iVBORw0KGgo=");
      [exact Hm | right; now left | reflexivity | reflexivity | reflexivity].
Defined.




(** ** The shape of the requests *)

Lemma anthropicMessages_roles history : forall mapped,
  anthropicMessages history = Ok mapped -> map am_role mapped = map role history.
Proof.
  induction history as [|msg rest IH]; intros mapped; simpl.
  - intros H; now inversion H.
  - destruct (anthropicMessage msg) as [m|e] eqn:Hm; [|discriminate].
    destruct (anthropicMessages rest) as [ms|e]; [|discriminate].
    intros H; inversion H; subst mapped. simpl. rewrite (IH ms eq_refl). f_equal.
    unfold anthropicMessage in Hm. destruct (role msg) eqn:Hr.
    + destruct (hasFiles msg).
      * destruct (imageBlocks _) as [[|b bs]|e]; inversion Hm; reflexivity.
      * now inversion Hm.
    + now inversion Hm.
Qed.

(** X5.  Either adapter sends one message for each turn of the history,
    in order and with the turn's role; the Anthropic request of the last
    participant has one more message, an assistant one, when a prefill is
    given. *)
Theorem one_message_per_turn participant history sp :
  map oi_role (oc_input (openaiConfig participant (openaiInput history) sp))
  = map role history
  /\ (forall mapped prefill last et bt,
         anthropicMessages history = Ok mapped ->
         map am_role (ar_messages (anthropicSent participant mapped sp prefill last et bt))
         = map role history
             ++ (if truthyStr prefill && last then [assistant] else [])).
Proof.
  split.
  - unfold openaiConfig, openaiInput. simpl. rewrite map_map.
    apply map_ext. intros msg. unfold openaiInputItem. now destruct (role msg).
  - intros mapped prefill last et bt Hm.
    unfold anthropicSent. rewrite anthropicReq_messages. unfold withPrefill.
    destruct (truthyStr prefill && last).
    + rewrite map_app. simpl. now rewrite (anthropicMessages_roles history mapped Hm).
    + rewrite app_nil_r. now apply anthropicMessages_roles.
Qed.

(** ** The output of a run, participant by participant *)

Lemma blocks_before env req ps N :
  N <= length ps ->
  exists blocks,
    sse (stateBefore env req ps N) = concat blocks
    /\ Forall2 blockOf (firstn N ps) blocks.
Proof.
  induction N as [|N IH]; intros HN.
  - exists []. split; [reflexivity | constructor].
  - destruct IH as (blocks & Hsse & Hblocks); [lia|].
    destruct (nth_error ps N) as [participant|] eqn:Hnth;
      [|apply nth_error_None in Hnth; lia].
    rewrite (firstn_snoc ps N participant Hnth).
    rewrite (stateBefore_S env req ps N participant Hnth).
    destruct (iteration_shape env req ps N participant (stateBefore env req ps N));
      rewrite Hiteration; simpl.
    + exists (blocks ++ [relayed]). rewrite concat_app. simpl.
      rewrite app_nil_r, Hsse. split; [reflexivity|].
      apply Forall2_app; [exact Hblocks|]. constructor; [|constructor].
      exists relayed, []. rewrite app_nil_r. repeat split; [exact Hchunks | now left].
    + exists (blocks ++ [relayed ++ [errorEvent participant e]]). rewrite concat_app. simpl.
      rewrite app_nil_r, Hsse. split; [reflexivity|].
      apply Forall2_app; [exact Hblocks|]. constructor; [|constructor].
      exists relayed, [errorEvent participant e].
      repeat split; [exact Hchunks | right; now exists e].
    + exists (blocks ++ [[]]). rewrite concat_app. simpl.
      rewrite app_nil_r, Hsse. split; [reflexivity|].
      apply Forall2_app; [exact Hblocks|]. constructor; [|constructor].
      exists [], []. repeat split; [constructor | now left].
Qed.

(** X6.  The events of a response stream come participant by participant,
    in the order of the list and never interleaved: for each participant
    its chunks, then at most one error event that carries its name; the
    completion event follows the last participant's events. *)
Theorem events_grouped_by_participant env req events :
  POST env req = eventStream events ->
  exists ps blocks,
    participants req = Some ps
    /\ events = concat blocks ++ [complete]
    /\ Forall2 blockOf ps blocks.
Proof.
  intros H. destruct (POST_stream env req events H) as (ps & Hps & _ & _ & _ & Hev).
  destruct (blocks_before env req ps (length ps) (le_n _)) as (blocks & Hsse & Hblocks).
  exists ps, blocks. rewrite firstn_all in Hblocks.
  rewrite start_loop in Hev. simpl in Hev. rewrite Hsse in Hev.
  now repeat split.
Qed.

Lemma events_grouped_by_participant_witness :
  exists ps blocks,
    participants (chat [gpt; claude] None) = Some ps
    /\ [chunk "GPT-5" "gpt-5" "openai" "Hi";
        chunk "Claude Sonnet 4.5" "claude-sonnet-4-5-20250929" "anthropic" "Hello";
        chunk "Claude Sonnet 4.5" "claude-sonnet-4-5-20250929" "anthropic" " there";
        complete] = concat blocks ++ [complete]
    /\ Forall2 blockOf ps blocks.
Proof.
  apply (events_grouped_by_participant bothAnswer (chat [gpt; claude] None)).
  vm_compute. reflexivity.
Defined.

(** ** Counting failures and replies *)

Lemma countErrors_app xs ys : countErrors (xs ++ ys) = countErrors xs + countErrors ys.
Proof.
  induction xs as [|[| |] xs IH]; simpl; auto.
Qed.

Lemma countErrors_chunks participant relayed :
  Forall (chunkOf participant) relayed -> countErrors relayed = 0.
Proof.
  induction 1 as [|ev evs [text ->] _ IH]; [reflexivity | exact IH].
Qed.

Lemma errors_before env req ps N :
  N <= length ps ->
  countErrors (sse (stateBefore env req ps N))
  = length (filter (threw env req ps) (seq 0 N)).
Proof.
  induction N as [|N IH]; intros HN; [reflexivity|].
  destruct (nth_error ps N) as [participant|] eqn:Hnth;
    [|apply nth_error_None in Hnth; lia].
  rewrite seq_S, filter_app, length_app, <- IH by lia. simpl.
  rewrite (stateBefore_S env req ps N participant Hnth).
  unfold threw, attempt. rewrite Hnth.
  destruct (iteration_shape env req ps N participant (stateBefore env req ps N));
    rewrite Hiteration, Hdispatch; simpl.
  - now rewrite countErrors_app, (countErrors_chunks participant relayed Hchunks).
  - rewrite !countErrors_app, (countErrors_chunks participant relayed Hchunks).
    reflexivity.
  - lia.
Qed.

Lemma repliesOf_length ps texts ks :
  (forall k, In k ks -> k < length ps) -> length (repliesOf ps texts ks) = length ks.
Proof.
  unfold repliesOf. induction ks as [|k ks IH]; intros Hb; [reflexivity|].
  simpl. destruct (nth_error ps k) as [q|] eqn:Hq.
  - simpl. f_equal. apply IH. intros k' Hk'. apply Hb. now right.
  - apply nth_error_None in Hq. specialize (Hb k (or_introl eq_refl)). lia.
Qed.

(** X7.  The number of error events in a response stream is the number of
    participants whose adapter call threw, and the history at the end of
    the run has one more turn than the processed messages for each
    participant that completed. *)
Theorem errors_and_replies_counted env req ps :
  countErrors (sse (start env req ps))
  = length (filter (threw env req ps) (seq 0 (length ps)))
  /\ length (conversationHistory (start env req ps))
     = length (processedMessages (messages req))
       + length (completedBefore env req ps (length ps)).
Proof.
  rewrite start_loop. simpl. split.
  - rewrite countErrors_app, (errors_before env req ps (length ps) (le_n _)).
    simpl. lia.
  - destruct (history_replies env req ps (length ps) (le_n _)) as [texts Hh].
    unfold historyBefore in Hh. rewrite Hh, length_app. f_equal.
    apply repliesOf_length. apply completedBefore_bound.
Qed.

Lemma flat_map_ext_In {A B : Type} (f g : A -> list B) xs :
  (forall x, In x xs -> f x = g x) -> flat_map f xs = flat_map g xs.
Proof.
  induction xs as [|x xs IH]; intros H; simpl; [reflexivity|].
  rewrite (H x (or_introl eq_refl)), IH; [reflexivity|].
  intros y Hy. apply H. now right.
Qed.

Lemma filter_all {A : Type} (f : A -> bool) xs :
  (forall x, In x xs -> f x = true) -> filter f xs = xs.
Proof.
  induction xs as [|x xs IH]; intros H; simpl; [reflexivity|].
  rewrite (H x (or_introl eq_refl)), IH; [reflexivity|].
  intros y Hy. apply H. now right.
Qed.

Lemma filter_none {A : Type} (f : A -> bool) xs :
  (forall x, In x xs -> f x = false) -> filter f xs = [].
Proof.
  induction xs as [|x xs IH]; intros H; simpl; [reflexivity|].
  rewrite (H x (or_introl eq_refl)). apply IH.
  intros y Hy. apply H. now right.
Qed.

(** X8.  When every participant completes, the history at the end of the
    run is the processed messages followed by one reply for each
    participant, in the order of the list, each attributed to its
    participant, and the response stream holds no error event. *)
Theorem all_complete env req ps :
  (forall k, k < length ps -> completed env req ps k = true) ->
  (exists texts,
      conversationHistory (start env req ps)
      = processedMessages (messages req) ++ repliesOf ps texts (seq 0 (length ps)))
  /\ (forall texts,
         map attribution (repliesOf ps texts (seq 0 (length ps)))
         = map (fun participant => Some (name participant)) ps)
  /\ countErrors (sse (start env req ps)) = 0.
Proof.
  intros Hall.
  assert (Hc : completedBefore env req ps (length ps) = seq 0 (length ps)).
  { unfold completedBefore. apply filter_all. intros k Hk.
    apply in_seq in Hk. apply Hall. lia. }
  split; [|split].
  - destruct (history_replies env req ps (length ps) (le_n _)) as [texts Hh].
    exists texts. rewrite start_loop. simpl. unfold historyBefore in Hh.
    now rewrite Hh, Hc.
  - intros texts. clear Hall Hc. unfold repliesOf.
    assert (Hgen : forall qs from,
               map attribution
                   (flat_map (fun k => match nth_error qs (k - from) with
                                       | Some participant => [replyTurn participant (texts k)]
                                       | None => []
                                       end) (seq from (length qs)))
               = map (fun participant => Some (name participant)) qs).
    { induction qs as [|q qs IH]; intros from; [reflexivity|].
      simpl. rewrite Nat.sub_diag. simpl. f_equal.
      rewrite <- (IH (S from)). f_equal. apply flat_map_ext_In.
      intros k Hk. apply in_seq in Hk.
      replace (k - from) with (S (k - S from)) by lia. reflexivity. }
    rewrite <- (Hgen ps 0). f_equal. apply flat_map_ext_In. intros k _.
    now rewrite Nat.sub_0_r.
  - rewrite start_loop. simpl.
    rewrite countErrors_app, (errors_before env req ps (length ps) (le_n _)).
    rewrite filter_none; [reflexivity|]. intros k Hk. apply in_seq in Hk.
    assert (Hck : completed env req ps k = true) by (apply Hall; lia).
    unfold completed in Hck. unfold threw.
    destruct (nth_error ps k); [|reflexivity].
    apply andb_true_iff in Hck. destruct Hck as [_ ->]. reflexivity.
Qed.

Lemma all_complete_witness :
  countErrors (sse (start bothAnswer (chat [gpt; claude] None) [gpt; claude])) = 0.
Proof.
  apply (all_complete bothAnswer (chat [gpt; claude] None) [gpt; claude]).
  intros [|[|k]] Hk; try reflexivity. simpl in Hk. lia.
Defined.

(** ** Which request is refused, and with which message *)

(** X9.  The three refusals come in a fixed order.  A missing or empty
    participants list is reported first; then a missing OpenAI key, when a
    participant names "openai"; a missing Anthropic key is reported only
    when the OpenAI check passes.  A refused request gets the same answer
    whatever the vendors would do. *)
Theorem refusal_messages env req :
  (noParticipants req ->
   POST env req = jsonResponse 400 "At least 1 participant required")
  /\ (usesProvider "openai" req -> noKey (openaiKey req) ->
      POST env req = jsonResponse 400 "OpenAI API key is required for OpenAI models")
  /\ (usesProvider "anthropic" req -> noKey (anthropicKey req) ->
      ~ (usesProvider "openai" req /\ noKey (openaiKey req)) ->
      POST env req = jsonResponse 400 "Anthropic API key is required for Anthropic models")
  /\ (rejected req -> forall env', POST env' req = POST env req).
Proof.
  unfold noParticipants, usesProvider, noKey.
  split; [|split; [|split]].
  - unfold POST. intros [->| ->]; reflexivity.
  - intros (ps & p & Hps & Hin & Hp) Hk. unfold POST. rewrite Hps.
    destruct ps as [|q qs]; [destruct Hin|].
    assert (Hn : needs "openai" (q :: qs) = true) by (apply needs_iff; eauto).
    now rewrite Hn, Hk.
  - intros (ps & p & Hps & Hin & Hp) Hk Hno. unfold POST. rewrite Hps.
    destruct ps as [|q qs]; [destruct Hin|].
    assert (Hn : needs "anthropic" (q :: qs) = true) by (apply needs_iff; eauto).
    rewrite Hn, Hk.
    destruct (needs "openai" (q :: qs)) eqn:Hno'; [|reflexivity].
    destruct (truthyStr (openaiKey req)) eqn:Hko; [reflexivity|].
    exfalso. apply Hno. split; [|reflexivity].
    apply needs_iff in Hno'. destruct Hno' as (p' & Hin' & Hp').
    exists (q :: qs), p'. now repeat split.
  - intros Hr env'. unfold POST.
    destruct (participants req) as [[|q qs]|] eqn:Hps; try reflexivity.
    destruct Hr as [[Hn|Hn]|[[(ps & p & Hps' & Hin & Hp) Hk]|[(ps & p & Hps' & Hin & Hp) Hk]]];
      try congruence; rewrite Hps in Hps'; inversion Hps'; subst ps.
    + assert (Hn : needs "openai" (q :: qs) = true) by (apply needs_iff; eauto).
      now rewrite Hn, Hk.
    + assert (Hn : needs "anthropic" (q :: qs) = true) by (apply needs_iff; eauto).
      rewrite Hn, Hk. simpl.
      now destruct (needs "openai" (q :: qs) && negb (truthyStr (openaiKey req))).
Qed.

(** ** The thinking budget and the token ceiling *)

(** X10.  For a participant that sets no thinking budget of its own and
    whose [maxTokens], when it has one, is an integer from 0 to 2^53 (the
    range in which the code's subtraction is exact): the budget computed is
    below the [max_tokens] of the same request, by 100 at least, and is at
    most the request's [budgetTokens] (2000 when the request has none,
    or 0). *)
Theorem derived_budget_below_ceiling participant msgs sp et bt :
  anthropicBudgetTokens participant = None ->
  (forall n, maxTokens participant = Some n -> (0 <= n <= 2 ^ 53)%Z) ->
  (thinkBudget participant bt + 100
   <= ar_max_tokens (anthropicReq participant msgs sp et bt))%Z
  /\ (thinkBudget participant bt <= orNum bt 2000)%Z.
Proof.
  intros Hb _. unfold thinkBudget. rewrite Hb. simpl.
  assert (Hmax : ar_max_tokens (anthropicReq participant msgs sp et bt)
                 = orNum (maxTokens participant) 64000).
  { unfold anthropicReq. now destruct (truthyBool _). }
  rewrite Hmax. split; [|apply Z.le_min_l].
  assert (Hle : (orNum (maxTokens participant) 32000
                 <= orNum (maxTokens participant) 64000)%Z).
  { unfold orNum. destruct (maxTokens participant) as [m|]; [|lia].
    destruct (m =? 0)%Z; lia. }
  pose proof (Z.le_min_r (orNum bt 2000) (orNum (maxTokens participant) 32000 - 100)).
  lia.
Qed.

Lemma derived_budget_below_ceiling_witness :
  (thinkBudget claude (Some 100000%Z) + 100
   <= ar_max_tokens (anthropicReq claude [] "" (Some true) (Some 100000%Z)))%Z
  /\ (thinkBudget claude (Some 100000%Z) <= orNum (Some 100000%Z) 2000)%Z.
Proof.
  apply (derived_budget_below_ceiling claude [] "" (Some true) (Some 100000%Z)).
  - reflexivity.
  - intros n H. inversion H. lia.
Defined.

(** ** The attribution of the turns of a run *)

Lemma orStr_nonempty o d : d <> ""%string -> orStr o d <> ""%string.
Proof.
  intros Hd. unfold orStr. destruct o as [s|]; simpl; [|exact Hd].
  destruct (String.eqb_spec s ""); simpl; assumption.
Qed.

Lemma processedMessages_wellAttributed msgs :
  Forall wellAttributed (processedMessages msgs).
Proof.
  unfold processedMessages.
  destruct (filterMessages msgs) as [kept|e]; [|constructor].
  induction kept as [|msg rest IH]; simpl; constructor; [|exact IH].
  unfold processMessage, wellAttributed.
  destruct (msg_type msg =? "user"); cbn [role attribution]; [reflexivity|].
  apply truthyStr_intro, orStr_nonempty, orStr_nonempty. discriminate.
Qed.

Lemma history_wellAttributed env req ps N :
  (forall participant, In participant ps -> name participant <> ""%string) ->
  Forall wellAttributed (historyBefore env req ps N).
Proof.
  intros Hnames. induction N as [|N IH].
  - unfold historyBefore. rewrite stateBefore_0. apply processedMessages_wellAttributed.
  - destruct (nth_error ps N) as [participant|] eqn:Hnth.
    + destruct (history_step env req ps N participant Hnth) as [[_ [text ->]]|[_ ->]];
        [|exact IH].
      apply Forall_app. split; [exact IH|]. constructor; [|constructor].
      unfold wellAttributed, replyTurn. simpl.
      apply negb_true_iff, String.eqb_neq, Hnames.
      eapply nth_error_In; eassumption.
    + apply nth_error_None in Hnth. unfold historyBefore in *.
      rewrite (stateBefore_all env req ps (S N)) by lia.
      now rewrite (stateBefore_all env req ps N) in IH by lia.
Qed.

(** X11.  In a run whose participants all have a name, the history keeps
    an attribution discipline at every iteration: user turns carry no
    attribution and assistant turns carry a non-empty one.  So every
    assistant message of the OpenAI input built from it is a prefixed one,
    and every user item is the bare text. *)
Theorem history_attribution_discipline env req ps N :
  (forall participant, In participant ps -> name participant <> ""%string) ->
  Forall wellAttributed (historyBefore env req ps N)
  /\ Forall (fun item =>
               match oi_role item with
               | assistant => exists a text, a <> ""%string
                                /\ oi_content item = plainContent (prefixed a text)
               | user => exists text, oi_content item = inputText text
               end)
            (openaiInput (historyBefore env req ps N)).
Proof.
  intros Hnames.
  pose proof (history_wellAttributed env req ps N Hnames) as Hw.
  split; [exact Hw|].
  unfold openaiInput. apply Forall_map.
  eapply Forall_impl; [|exact Hw].
  intros msg Hmsg. unfold wellAttributed in Hmsg. unfold openaiInputItem.
  destruct (role msg); simpl.
  - now exists (content msg).
  - destruct (attribution msg) as [a|] eqn:Ha; [|discriminate].
    assert (Hne : a <> ""%string)
      by now apply String.eqb_neq, negb_true_iff.
    exists a, (content msg). split; [exact Hne|].
    now rewrite (attributed_some msg a Ha Hne).
Qed.

Lemma history_attribution_discipline_witness :
  Forall wellAttributed
         (historyBefore bothAnswer (chat [gpt; claude] None) [gpt; claude] 2).
Proof.
  apply (history_attribution_discipline bothAnswer (chat [gpt; claude] None) [gpt; claude] 2).
  intros participant [<-|[<-|[]]]; discriminate.
Defined.

(** ** What is relayed and what is recorded *)

Lemma transcript_app xs ys :
  transcript (xs ++ ys) = (transcript xs ++ transcript ys)%string.
Proof.
  induction xs as [|ev xs IH]; simpl; [reflexivity|].
  now rewrite IH, append_assoc.
Qed.

Lemma transcript_openaiRelayed participant events :
  transcript (openaiRelayed participant events) = openaiText events.
Proof.
  induction events as [|event rest IH]; simpl; [reflexivity|].
  destruct (event_type event =? "response.output_text.delta"); simpl; now rewrite IH.
Qed.

(** What the iteration of a completed OpenAI participant adds. *)
Lemma openai_completed_step env req ps K participant :
  nth_error ps K = Some participant ->
  provider participant = "openai"%string ->
  completed env req ps K = true ->
  exists relayed,
    Forall (chunkOf participant) relayed
    /\ sse (stateBefore env req ps (S K)) = sse (stateBefore env req ps K) ++ relayed
    /\ historyBefore env req ps (S K)
       = historyBefore env req ps K ++ [replyTurn participant (transcript relayed)].
Proof.
  intros Hnth Hp Hc.
  assert (Hin : In participant ps) by (eapply nth_error_In; eassumption).
  assert (Hn : needs "openai" ps = true) by (apply needs_iff; eauto).
  unfold completed, attempt in Hc. rewrite Hnth in Hc.
  apply andb_true_iff in Hc. destruct Hc as [_ Hok].
  unfold historyBefore. rewrite (stateBefore_S env req ps K participant Hnth).
  unfold iteration, tryCatch.
  rewrite (dispatch_openai env req ps K participant Hp Hn) in *.
  rewrite handleOpenAIParticipant_run in *.
  destruct (responses_create env K _) as [e|events [e|]]; try discriminate.
  exists (openaiRelayed participant events). cbv zeta. simpl.
  split; [apply openaiRelayed_chunks|]. split; [reflexivity|].
  now rewrite transcript_openaiRelayed.
Qed.

(** X12.  For an OpenAI participant that completes, the reply recorded in
    the history is what was relayed for it: the contents of the chunks of
    its iteration, one after the other. *)
Theorem openai_reply_is_relayed_text env req ps K participant :
  nth_error ps K = Some participant ->
  provider participant = "openai"%string ->
  completed env req ps K = true ->
  exists relayed,
    Forall (chunkOf participant) relayed
    /\ sse (stateBefore env req ps (S K)) = sse (stateBefore env req ps K) ++ relayed
    /\ historyBefore env req ps (S K)
       = historyBefore env req ps K ++ [replyTurn participant (transcript relayed)].
Proof.
  exact (openai_completed_step env req ps K participant).
Qed.

Lemma openai_reply_is_relayed_text_witness :
  exists relayed,
    Forall (chunkOf gpt) relayed
    /\ sse (stateBefore bothAnswer (chat [gpt; claude] None) [gpt; claude] 1)
       = sse (stateBefore bothAnswer (chat [gpt; claude] None) [gpt; claude] 0) ++ relayed
    /\ historyBefore bothAnswer (chat [gpt; claude] None) [gpt; claude] 1
       = historyBefore bothAnswer (chat [gpt; claude] None) [gpt; claude] 0
           ++ [replyTurn gpt (transcript relayed)].
Proof.
  apply (openai_reply_is_relayed_text bothAnswer (chat [gpt; claude] None) [gpt; claude] 0 gpt).
  - reflexivity.
  - reflexivity.
  - vm_compute. reflexivity.
Defined.

Lemma transcript_anthropicRelayed participant chunks :
  forallb noThinking chunks = true ->
  transcript (anthropicRelayed participant chunks) = anthropicText chunks.
Proof.
  induction chunks as [|c rest IH]; simpl; [reflexivity|].
  intros H. apply andb_true_iff in H. destruct H as [Hc Hrest].
  unfold noThinking, thinkingOnly in Hc.
  destruct (chunk_type c =? "content_block_delta"); simpl in *;
    [|now apply IH].
  destruct (truthyStr (deltaText c)); simpl in *; [now rewrite IH|].
  apply negb_true_iff in Hc. rewrite Hc. now apply IH.
Qed.

Lemma transcript_prefillEcho participant prefill :
  transcript (prefillEcho participant prefill true) = orStr prefill "".
Proof.
  unfold prefillEcho, orStr. rewrite andb_true_r.
  destruct (truthyStr prefill) eqn:Ht; simpl; [|reflexivity].
  destruct prefill as [s|]; [|discriminate]. simpl. apply append_empty_r.
Qed.

(** X13.  For an Anthropic participant that completes and either is the
    last one or runs in a request without prefill: when its stream holds no
    thinking delta, the reply recorded in the history is what was relayed
    for it, the echo of the prefill included. *)
Theorem anthropic_reply_is_relayed_text env req ps K participant :
  nth_error ps K = Some participant ->
  provider participant = "anthropic"%string ->
  S K = length ps \/ truthyStr (prefillContent req) = false ->
  completed env req ps K = true ->
  exists mapped chunks relayed,
    anthropicMessages (historyBefore env req ps K) = Ok mapped
    /\ messages_stream env K
         (anthropicSent participant mapped (systemPromptAt req ps K participant)
                        (prefillContent req) (isLast ps K)
                        (extendedThinking req) (budgetTokens req))
       = ApiStream chunks None
    /\ sse (stateBefore env req ps (S K)) = sse (stateBefore env req ps K) ++ relayed
    /\ (forallb noThinking chunks = true ->
        historyBefore env req ps (S K)
        = historyBefore env req ps K ++ [replyTurn participant (transcript relayed)]).
Proof.
  intros Hnth Hp Hcase Hc.
  assert (Hin : In participant ps) by (eapply nth_error_In; eassumption).
  assert (Hn : needs "anthropic" ps = true) by (apply needs_iff; eauto).
  unfold completed, attempt in Hc. rewrite Hnth in Hc.
  apply andb_true_iff in Hc. destruct Hc as [_ Hok].
  unfold historyBefore. rewrite (stateBefore_S env req ps K participant Hnth).
  unfold iteration, tryCatch.
  rewrite (dispatch_anthropic env req ps K participant Hp Hn) in *.
  rewrite handleAnthropicParticipant_run in *.
  destruct (anthropicMessages (conversationHistory (stateBefore env req ps K)))
    as [mapped|e]; [|discriminate].
  destruct (messages_stream env K _) as [e|chunks [e|]] eqn:Hapi; try discriminate.
  exists mapped, chunks,
    (prefillEcho participant (prefillContent req) (isLast ps K)
     ++ anthropicRelayed participant chunks).
  cbv zeta. simpl.
  split; [reflexivity|]. split; [exact Hapi|]. split; [reflexivity|].
  intros Hno. rewrite transcript_app, (transcript_anthropicRelayed _ _ Hno).
  destruct Hcase as [Hlast|Hnone].
  - rewrite (isLast_true ps K Hlast), transcript_prefillEcho. reflexivity.
  - unfold prefillEcho, orStr. rewrite Hnone. reflexivity.
Qed.

Lemma anthropic_reply_is_relayed_text_witness :
  historyBefore bothAnswer (chat [gpt; claude] (Some "Sure, "%string)) [gpt; claude] 2
  = historyBefore bothAnswer (chat [gpt; claude] (Some "Sure, "%string)) [gpt; claude] 1
      ++ [replyTurn claude "Sure, Hello there"].
Proof.
  destruct (anthropic_reply_is_relayed_text
              bothAnswer (chat [gpt; claude] (Some "Sure, "%string)) [gpt; claude] 1 claude
              eq_refl eq_refl (or_introl eq_refl) eq_refl)
    as (mapped & chunks & relayed & _ & Hapi & Hsse & Hreply).
  vm_compute in Hapi. inversion Hapi; subst chunks.
  rewrite (Hreply eq_refl). f_equal. f_equal. f_equal.
  vm_compute in Hsse. inversion Hsse; subst relayed. reflexivity.
Defined.

Lemma thinking_only_stream participant chunks :
  forallb thinkingOnly chunks = true ->
  anthropicText chunks = ""%string
  /\ anthropicRelayed participant chunks = map (thinkingChunk participant) chunks.
Proof.
  induction chunks as [|c rest IH]; simpl; [now split|].
  intros H. apply andb_true_iff in H. destruct H as [Hc Hrest].
  destruct (IH Hrest) as [IH1 IH2].
  unfold thinkingOnly in Hc.
  apply andb_true_iff in Hc. destruct Hc as [Hc Hthink].
  apply andb_true_iff in Hc. destruct Hc as [Htype Htext].
  apply negb_true_iff in Htext.
  rewrite Htype, Htext, Hthink. simpl. rewrite IH1, IH2. now split.
Qed.

(** X14.  The thinking channel is relayed and not recorded.  When the
    stream of the Anthropic adapter holds thinking deltas only, each one is
    relayed as a chunk between the markers [THINKING] and [/THINKING], and
    the reply pushed to the history is the prefill alone (the empty text
    without prefill). *)
Theorem thinking_is_relayed_not_recorded
    participant api sp prefill last et bt st mapped chunks :
  anthropicMessages (conversationHistory st) = Ok mapped ->
  api (anthropicSent participant mapped sp prefill last et bt) = ApiStream chunks None ->
  forallb thinkingOnly chunks = true ->
  handleAnthropicParticipant participant api sp prefill last et bt st
  = (Ok tt,
     mkSt (conversationHistory st ++ [replyTurn participant (orStr prefill "")])
          (sse st ++ prefillEcho participant prefill last
                  ++ map (thinkingChunk participant) chunks)).
Proof.
  intros Hm Hapi Hthink.
  rewrite handleAnthropicParticipant_run, Hm, Hapi. cbv zeta.
  destruct (thinking_only_stream participant chunks Hthink) as [-> ->].
  now rewrite append_empty_r.
Qed.

Lemma thinking_is_relayed_not_recorded_witness :
  handleAnthropicParticipant claude onlyThinks "" None true None None (mkSt [] [])
  = (Ok tt,
     mkSt [replyTurn claude ""]
          [chunk "Claude Sonnet 4.5" "claude-sonnet-4-5-20250929" "anthropic"
                 "[THINKING]hmm[/THINKING]"]).
Proof.
  apply (thinking_is_relayed_not_recorded claude onlyThinks "" None true None None
           (mkSt [] []) [] [thinkingDelta "hmm"]); reflexivity.
Defined.

(** ** The peers named in a system prompt *)

Lemma filterOthers_from {A : Type} (xs : list A) : forall i from,
  from <= i ->
  filterOthers i from xs = firstn (i - from) xs ++ skipn (S (i - from)) xs.
Proof.
  induction xs as [|x xs IH]; intros i from Hle; simpl.
  - now rewrite firstn_nil.
  - destruct (Nat.eqb_spec from i) as [->|Hne].
    + rewrite Nat.sub_diag. simpl. clear IH Hle.
      assert (Hkeep : forall (ys : list A) from', i < from' -> filterOthers i from' ys = ys).
      { induction ys as [|y ys IHys]; intros from' Hlt; simpl; [reflexivity|].
        destruct (Nat.eqb_spec from' i); [lia|]. now rewrite IHys by lia. }
      apply Hkeep. lia.
    + rewrite IH by lia.
      replace (i - from) with (S (i - S from)) by lia. reflexivity.
Qed.

(** X15.  The peers named in the system prompt of iteration [i] are the
    participants at every other position of the list, in order: the one at
    position [i] is left out by position, not by name, so a participant that
    shares its name with another one still has that one named as a peer. *)
Theorem peers_are_the_other_positions req ps i participant :
  nth_error ps i = Some participant ->
  filterOthers i 0 ps = firstn i ps ++ skipn (S i) ps
  /\ length (filterOthers i 0 ps) = length ps - 1
  /\ ps = firstn i ps ++ participant :: skipn (S i) ps
  /\ systemPromptAt req ps i participant
     = generateSystemPrompt participant (firstn i ps ++ skipn (S i) ps)
                            (req_systemPrompt req).
Proof.
  intros Hnth. pose proof (nth_error_length ps i participant Hnth) as Hi.
  assert (Hf : filterOthers i 0 ps = firstn i ps ++ skipn (S i) ps).
  { rewrite (filterOthers_from ps i 0 (Nat.le_0_l i)). now rewrite Nat.sub_0_r. }
  split; [exact Hf|]. split; [|split].
  - rewrite Hf, length_app, length_firstn, length_skipn. lia.
  - rewrite <- (firstn_skipn i ps) at 1. f_equal.
    clear Hf Hi. revert i Hnth.
    induction ps as [|q qs IH]; intros [|i] Hnth; simpl in *; try discriminate.
    + now inversion Hnth.
    + now apply IH.
  - unfold systemPromptAt. now rewrite Hf.
Qed.

Lemma peers_are_the_other_positions_witness :
  filterOthers 1 0 [gpt; claude; gpt] = [gpt; gpt].
Proof.
  rewrite (proj1 (peers_are_the_other_positions (chat [gpt; claude; gpt] None)
                    [gpt; claude; gpt] 1 claude eq_refl)).
  reflexivity.
Defined.

(** ** What the next participant is asked to continue *)

(** X16.  Right after a participant with a name completes, the history
    ends with its reply.  So the request of the next participant, whichever
    adapter builds it, holds after the messages of the earlier history one
    assistant message: that reply behind the prefix [[name]: ].  It is the
    last message of the request, except in the Anthropic request of the
    last participant when a prefill is given: there the prefill turn, and
    nothing else, follows it. *)
Theorem next_request_ends_with_labelled_reply env req ps K participant next :
  nth_error ps K = Some participant ->
  name participant <> ""%string ->
  completed env req ps K = true ->
  exists text,
    historyBefore env req ps (S K)
    = historyBefore env req ps K ++ [replyTurn participant text]
    /\ (forall sp,
           oc_input (openaiConfig next (openaiInput (historyBefore env req ps (S K))) sp)
           = openaiInput (historyBefore env req ps K)
               ++ [mkOpenAIInput assistant
                     (plainContent (prefixed (name participant) text))])
    /\ (forall mapped sp prefill last et bt,
           anthropicMessages (historyBefore env req ps (S K)) = Ok mapped ->
           exists front,
             anthropicMessages (historyBefore env req ps K) = Ok front
             /\ ar_messages (anthropicSent next mapped sp prefill last et bt)
                = front
                    ++ [mkAnthropicMessage assistant
                          (contentText (prefixed (name participant) text))]
                    ++ (if truthyStr prefill && last then [prefillTurn prefill] else [])).
Proof.
  intros Hnth Hname Hc.
  destruct (history_step env req ps K participant Hnth) as [[_ [text Hh]]|[Hf _]];
    [|congruence].
  exists text. split; [exact Hh|]. rewrite Hh.
  assert (Hreply : attributed (replyTurn participant text)
                   = prefixed (name participant) text)
    by (apply attributed_some; [reflexivity | exact Hname]).
  split.
  - intros sp. unfold openaiConfig, openaiInput. simpl. rewrite map_app. simpl.
    unfold openaiInputItem at 2. simpl. now rewrite Hreply.
  - intros mapped sp prefill last et bt.
    assert (Hsplit : forall h mapped',
               anthropicMessages (h ++ [replyTurn participant text]) = Ok mapped' ->
               exists front,
                 anthropicMessages h = Ok front
                 /\ mapped' = front ++ [mkAnthropicMessage assistant
                                          (contentText (prefixed (name participant) text))]).
    { induction h as [|msg rest IH]; intros mapped'; simpl.
      - rewrite Hreply. intros H; inversion H. now exists [].
      - destruct (anthropicMessage msg) as [m|e]; [|discriminate].
        destruct (anthropicMessages (rest ++ [replyTurn participant text])) as [ms|e];
          [|discriminate].
        intros H; inversion H; subst mapped'.
        destruct (IH ms eq_refl) as (front & -> & ->). now exists (m :: front). }
    intros Hm. destruct (Hsplit _ mapped Hm) as (front & Hfront & ->).
    exists front. split; [exact Hfront|].
    unfold anthropicSent. rewrite anthropicReq_messages. unfold withPrefill, prefillTurn.
    destruct (truthyStr prefill && last).
    + now rewrite <- app_assoc.
    + now rewrite app_nil_r.
Qed.

Lemma next_request_ends_with_labelled_reply_witness :
  exists text,
    historyBefore bothAnswer (chat [gpt; claude] (Some "Sure, "%string)) [gpt; claude] 1
    = historyBefore bothAnswer (chat [gpt; claude] (Some "Sure, "%string)) [gpt; claude] 0
        ++ [replyTurn gpt text]
    /\ (forall sp,
           oc_input (openaiConfig claude
                       (openaiInput (historyBefore bothAnswer
                                       (chat [gpt; claude] (Some "Sure, "%string))
                                       [gpt; claude] 1)) sp)
           = openaiInput (historyBefore bothAnswer
                            (chat [gpt; claude] (Some "Sure, "%string)) [gpt; claude] 0)
               ++ [mkOpenAIInput assistant (plainContent (prefixed (name gpt) text))])
    /\ (forall mapped sp prefill last et bt,
           anthropicMessages (historyBefore bothAnswer
                                (chat [gpt; claude] (Some "Sure, "%string))
                                [gpt; claude] 1) = Ok mapped ->
           exists front,
             anthropicMessages (historyBefore bothAnswer
                                  (chat [gpt; claude] (Some "Sure, "%string))
                                  [gpt; claude] 0) = Ok front
             /\ ar_messages (anthropicSent claude mapped sp prefill last et bt)
                = front
                    ++ [mkAnthropicMessage assistant
                          (contentText (prefixed (name gpt) text))]
                    ++ (if truthyStr prefill && last then [prefillTurn prefill] else [])).
Proof.
  apply (next_request_ends_with_labelled_reply
           bothAnswer (chat [gpt; claude] (Some "Sure, "%string)) [gpt; claude] 0 gpt claude).
  - reflexivity.
  - discriminate.
  - vm_compute. reflexivity.
Defined.

(** ** The prefill in the requests of later participants *)

(** What the iteration of a completed Anthropic participant that is not
    the last one adds to the history. *)
Lemma anthropic_earlier_step env req ps K participant prefill :
  prefillContent req = Some prefill ->
  nth_error ps K = Some participant ->
  provider participant = "anthropic"%string ->
  S K < length ps ->
  completed env req ps K = true ->
  exists text,
    historyBefore env req ps (S K)
    = historyBefore env req ps K ++ [replyTurn participant (prefill ++ text)%string].
Proof.
  intros Hpre Hnth Hp HK Hc.
  assert (Hin : In participant ps) by (eapply nth_error_In; eassumption).
  assert (Hn : needs "anthropic" ps = true) by (apply needs_iff; eauto).
  unfold completed, attempt in Hc. rewrite Hnth in Hc.
  apply andb_true_iff in Hc. destruct Hc as [_ Hok].
  unfold historyBefore. rewrite (stateBefore_S env req ps K participant Hnth).
  unfold iteration, tryCatch.
  rewrite (dispatch_anthropic env req ps K participant Hp Hn) in *.
  rewrite handleAnthropicParticipant_run in *.
  destruct (anthropicMessages (conversationHistory (stateBefore env req ps K)))
    as [mapped|e]; [|discriminate].
  destruct (messages_stream env K _) as [e|chunks [e|]]; try discriminate.
  exists (anthropicText chunks). cbv zeta. simpl.
  now rewrite Hpre, orStr_empty.
Qed.

(** X26.  The prefill reaches the requests of the later participants.
    When an Anthropic participant with a name that is not the last one
    completes in a request with a prefill, its reply starts with the prefill,
    and every later participant of the run, whichever its adapter, is sent
    that reply, prefill included, as a prefixed assistant message. *)
Theorem prefill_reaches_later_requests env req ps K participant prefill N :
  prefillContent req = Some prefill ->
  nth_error ps K = Some participant ->
  provider participant = "anthropic"%string ->
  name participant <> ""%string ->
  S K < length ps ->
  completed env req ps K = true ->
  K < N ->
  exists text,
    In (mkOpenAIInput assistant
          (plainContent (prefixed (name participant) (prefill ++ text)%string)))
       (openaiInput (historyBefore env req ps N))
    /\ (forall mapped,
           anthropicMessages (historyBefore env req ps N) = Ok mapped ->
           In (mkAnthropicMessage assistant
                 (contentText (prefixed (name participant) (prefill ++ text)%string)))
              mapped).
Proof.
  intros Hpre Hnth Hp Hname HK Hc HN.
  destruct (anthropic_earlier_step env req ps K participant prefill Hpre Hnth Hp HK Hc)
    as [text Hh].
  exists text.
  destruct (stateBefore_extends env req ps (S K) N HN) as (later & _ & Hlater & _).
  fold (historyBefore env req ps N) in Hlater.
  fold (historyBefore env req ps (S K)) in Hlater.
  assert (Hin : In (replyTurn participant (prefill ++ text)%string)
                   (historyBefore env req ps N)).
  { rewrite Hlater, Hh. apply in_or_app. left. apply in_or_app. right. now left. }
  assert (Hreply : attributed (replyTurn participant (prefill ++ text)%string)
                   = prefixed (name participant) (prefill ++ text)%string)
    by (apply attributed_some; [reflexivity | exact Hname]).
  split.
  - unfold openaiInput.
    replace (mkOpenAIInput assistant
               (plainContent (prefixed (name participant) (prefill ++ text)%string)))
      with (openaiInputItem (replyTurn participant (prefill ++ text)%string))
      by (unfold openaiInputItem; simpl; now rewrite Hreply).
    now apply in_map.
  - intros mapped Hmapped.
    destruct (In_nth_error _ _ Hin) as [i Hi].
    destruct (anthropicMessages_nth _ mapped i _ Hmapped Hi) as (m & Hm & Hmi).
    unfold anthropicMessage in Hm. simpl in Hm. rewrite Hreply in Hm.
    inversion Hm; subst m. eapply nth_error_In; eassumption.
Qed.

Lemma prefill_reaches_later_requests_witness :
  exists text,
    In (mkOpenAIInput assistant
          (plainContent (prefixed (name claude) ("Sure, " ++ text)%string)))
       (openaiInput (historyBefore bothAnswer (chat [claude; gpt] (Some "Sure, "%string))
                                   [claude; gpt] 1))
    /\ (forall mapped,
           anthropicMessages (historyBefore bothAnswer (chat [claude; gpt] (Some "Sure, "%string))
                                            [claude; gpt] 1) = Ok mapped ->
           In (mkAnthropicMessage assistant
                 (contentText (prefixed (name claude) ("Sure, " ++ text)%string)))
              mapped).
Proof.
  apply (prefill_reaches_later_requests
           bothAnswer (chat [claude; gpt] (Some "Sure, "%string)) [claude; gpt] 0 claude
           "Sure, " 1).
  - reflexivity.
  - reflexivity.
  - reflexivity.
  - discriminate.
  - simpl. lia.
  - vm_compute. reflexivity.
  - lia.
Defined.

(** * Properties of the utility functions *)




(** X18.  [getDefaultTemperature] gives a temperature
    [validateParticipant] accepts: a participant with id, name, provider
    and model, and the default temperature of its model, is valid. *)
Theorem default_temperature_is_valid pid pname pprovider pmodel :
  pid <> ""%string -> pname <> ""%string -> pprovider <> ""%string -> pmodel <> ""%string ->
  validateParticipant
    (mkInput (Some pid) (Some pname) (Some pprovider) (defined pmodel)
             (Some (getDefaultTemperature pmodel)))
  = Ok (mkValidation true []).
Proof.
  intros Hi Hn Hp Hm. unfold validateParticipant.
  cbn [in_id in_name in_provider in_model in_temperature optional].
  rewrite !(truthyStr_intro _ Hi), !(truthyStr_intro _ Hn),
          !(truthyStr_intro _ Hp), !(truthyStr_intro _ Hm).
  unfold getDefaultTemperature.
  destruct (pprovider =? "openai"); [|reflexivity].
  destruct (requiresFixedTemperature pmodel); reflexivity.
Qed.

Lemma default_temperature_is_valid_witness :
  validateParticipant
    (mkInput (Some "gpt-1"%string) (Some "GPT-5"%string) (Some "openai"%string)
             (defined "gpt-5"%string) (Some (getDefaultTemperature "gpt-5")))
  = Ok (mkValidation true []).
Proof.
  apply (default_temperature_is_valid "gpt-1" "GPT-5" "openai" "gpt-5"); discriminate.
Defined.

(** X19.  For a model name that is not the name of a property inherited
    from [Object.prototype], [getDefaultMaxTokens] is a number between 16000
    and 64000.  With such a value as a participant's [maxTokens], and no
    budget on the participant or the request, the thinking budget is the
    2000 fallback. *)
Theorem default_max_tokens_bounds model :
  existsb (String.eqb model) objectPrototypeKeys = false ->
  exists n,
    getDefaultMaxTokens model = numberValue n
    /\ (16000 <= n <= 64000)%Z
    /\ (forall participant,
           maxTokens participant = Some n ->
           anthropicBudgetTokens participant = None ->
           thinkBudget participant None = 2000%Z).
Proof.
  intros Hkey.
  assert (Hn : exists n, getDefaultMaxTokens model = numberValue n
                         /\ (16000 <= n <= 64000)%Z).
  { unfold getDefaultMaxTokens, readProperty. rewrite Hkey.
    unfold tokenLimits, ownProperty.
    repeat match goal with
           | |- context [if (?k =? model)%string then _ else _] =>
               destruct (k =? model)%string;
               [eexists; split; [reflexivity | lia]|]
           end.
    eexists; split; [reflexivity | lia]. }
  destruct Hn as (n & Hn & Hbounds). exists n. repeat split; try assumption; try lia.
  intros participant Hmax Hb. unfold thinkBudget. rewrite Hb, Hmax. simpl.
  destruct (Z.eqb_spec n 0); lia.
Qed.

Lemma default_max_tokens_bounds_witness :
  exists n,
    getDefaultMaxTokens "o3-mini" = numberValue n
    /\ (16000 <= n <= 64000)%Z
    /\ (forall participant,
           maxTokens participant = Some n ->
           anthropicBudgetTokens participant = None ->
           thinkBudget participant None = 2000%Z).
Proof.
  apply (default_max_tokens_bounds "o3-mini"). reflexivity.
Defined.

(** X20.  The handler and the validator disagree on a missing
    temperature.  An OpenAI participant with a fixed-temperature model and
    no temperature is valid, and the OpenAI adapter sends it with
    temperature 0.9; the same participant with that 0.9 written out is
    refused by [validateParticipant]. *)
Theorem missing_temperature_defaults_to_a_refused_one participant input sp :
  provider participant = "openai"%string ->
  requiresFixedTemperature (model participant) = true ->
  temperature participant = None ->
  id participant <> ""%string ->
  name participant <> ""%string ->
  validateParticipant (inputOf participant) = Ok (mkValidation true [])
  /\ oc_temperature (openaiConfig participant input sp) = (9 # 10)%Q
  /\ validateParticipant (inputOf (withTemperature participant (Some (9 # 10)%Q)))
     = Ok (mkValidation false [model participant ++ " requires temperature = 1.0"]%string).
Proof.
  intros Hp Hfix Ht Hi Hn.
  assert (Hm : model participant <> ""%string).
  { intros H. rewrite H in Hfix. discriminate. }
  unfold validateParticipant, inputOf, withTemperature, openaiConfig.
  cbn [in_id in_name in_provider in_model in_temperature optional
       id name provider model temperature oc_temperature].
  rewrite Hp, Ht, Hfix.
  rewrite !(truthyStr_intro _ Hi), !(truthyStr_intro _ Hn), !(truthyStr_intro _ Hm).
  repeat split.
Qed.

Lemma missing_temperature_defaults_to_a_refused_one_witness :
  oc_temperature (openaiConfig (withTemperature gpt None) [] "") = (9 # 10)%Q
  /\ validateParticipant (inputOf (withTemperature (withTemperature gpt None)
                                                   (Some (9 # 10)%Q)))
     = Ok (mkValidation false ["gpt-5 requires temperature = 1.0"%string]).
Proof.
  apply (missing_temperature_defaults_to_a_refused_one (withTemperature gpt None) [] "");
    try reflexivity; discriminate.
Defined.

(** * Properties of the client hook *)

(** ** What [sendMessage] comes to *)

Lemma POST_accepts env req ps msgs :
  participants req = Some ps -> ps <> [] ->
  (needs "openai" ps = true -> truthyStr (openaiKey req) = true) ->
  (needs "anthropic" ps = true -> truthyStr (anthropicKey req) = true) ->
  messages req = defined msgs ->
  POST env req = eventStream (sse (start env req ps)).
Proof.
  intros Hps Hne Ho Ha Hmsgs.
  rewrite (POST_passes env req ps Hps Hne Ho Ha), Hmsgs. reflexivity.
Qed.

Lemma sendMessage_streams env clock hook userMessage ps config :
  hookAccepts hook userMessage ps config -> ps <> [] ->
  POST env (requestBody (hook_messages hook ++ [newUserMessage clock userMessage]) ps config)
  = eventStream
      (sse (start env (requestBody (hook_messages hook ++ [newUserMessage clock userMessage])
                                   ps config) ps))
  /\ sendMessage env clock hook userMessage ps config
     = (Ok tt,
        setIsLoading false
          (processText ps (participantBubbles clock 0 ps) (initialResponses ps)
             (mkHook ((hook_messages hook ++ [newUserMessage clock userMessage])
                        ++ participantBubbles clock 0 ps)
                     true (onErrorCalls hook) (onCompleteCalls hook))
             (sse (start env (requestBody (hook_messages hook
                                             ++ [newUserMessage clock userMessage])
                                          ps config) ps)))).
Proof.
  intros (Hb & Hl & Ho & Ha) Hne.
  assert (HPOST : POST env (requestBody (hook_messages hook
                                          ++ [newUserMessage clock userMessage]) ps config)
                  = eventStream
                      (sse (start env (requestBody (hook_messages hook
                                                      ++ [newUserMessage clock userMessage])
                                                   ps config) ps)))
    by (eapply POST_accepts; [reflexivity | exact Hne | exact Ho | exact Ha | reflexivity]).
  split; [exact HPOST|].
  unfold sendMessage. rewrite Hb, Hl. simpl orb. cbv iota.
  destruct (needs "openai" ps); [rewrite Ho by reflexivity|];
    (destruct (needs "anthropic" ps); [rewrite Ha by reflexivity|]);
    simpl andb; cbv iota zeta; rewrite HPOST; reflexivity.
Qed.

(** X21.  [sendMessage] does nothing for a blank message or while
    loading.  It throws, after calling [onError] and without touching the
    messages or sending anything, when a key is missing for a provider in
    use.  Otherwise it sends the request, and the handler never refuses that
    request for a key: with participants it answers with the event stream;
    with an empty list it answers 400, and the hook then appends its error
    message, calls [onError] and stops loading. *)
Theorem sendMessage_outcomes env clock hook userMessage ps config :
  (blank userMessage = true \/ hook_isLoading hook = true ->
   sendMessage env clock hook userMessage ps config = (Ok tt, hook))
  /\ (blank userMessage = false -> hook_isLoading hook = false ->
      needs "openai" ps = true -> truthyStr (cfg_openaiKey config) = false ->
      sendMessage env clock hook userMessage ps config
      = (Throw openaiKeyError,
         onError "OpenAI API Key is required for OpenAI participants" hook))
  /\ (blank userMessage = false -> hook_isLoading hook = false ->
      (needs "openai" ps = true -> truthyStr (cfg_openaiKey config) = true) ->
      needs "anthropic" ps = true -> truthyStr (cfg_anthropicKey config) = false ->
      sendMessage env clock hook userMessage ps config
      = (Throw anthropicKeyError,
         onError "Anthropic API Key is required for Anthropic participants" hook))
  /\ (hookAccepts hook userMessage ps config -> ps = [] ->
      sendMessage env clock hook userMessage ps config
      = (Ok tt,
         mkHook (hook_messages hook
                   ++ [newUserMessage clock userMessage;
                       synergyError clock "HTTP error! status: 400"])
                false
                (onErrorCalls hook ++ ["HTTP error! status: 400"%string])
                (onCompleteCalls hook)))
  /\ (hookAccepts hook userMessage ps config -> ps <> [] ->
      let newMessages := hook_messages hook ++ [newUserMessage clock userMessage] in
      let body := requestBody newMessages ps config in
      let bubbles := participantBubbles clock 0 ps in
      POST env body = eventStream (sse (start env body ps))
      /\ sendMessage env clock hook userMessage ps config
         = (Ok tt,
            setIsLoading false
              (processText ps bubbles (initialResponses ps)
                 (mkHook (newMessages ++ bubbles) true
                         (onErrorCalls hook) (onCompleteCalls hook))
                 (sse (start env body ps))))).
Proof.
  unfold hookAccepts. split; [|split; [|split; [|split]]].
  - unfold sendMessage. intros [-> | ->]; [reflexivity | now rewrite orb_true_r].
  - intros Hb Hl Hn Hk. unfold sendMessage. now rewrite Hb, Hl, Hn, Hk.
  - intros Hb Hl Ho Hn Hk. unfold sendMessage. rewrite Hb, Hl, Hn, Hk. simpl.
    destruct (needs "openai" ps); [now rewrite Ho|reflexivity].
  - intros (Hb & Hl & _ & _) ->. unfold sendMessage. rewrite Hb, Hl.
    unfold setIsLoading, setMessages, onError. simpl.
    rewrite app_nil_r, <- app_assoc. reflexivity.
  - intros Hacc Hne. cbv zeta.
    exact (sendMessage_streams env clock hook userMessage ps config Hacc Hne).
Qed.

(** ** The map of responses, the index of a participant, the update of a
    bubble *)

Lemma mapGet_set_same entries key value :
  mapGet (mapSet entries key value) key = Some value.
Proof.
  induction entries as [|[k v] rest IH]; simpl.
  - now rewrite String.eqb_refl.
  - destruct (k =? key)%string eqn:Hk; simpl; now rewrite Hk.
Qed.

Lemma mapGet_set_other entries key value key' :
  key' <> key -> mapGet (mapSet entries key value) key' = mapGet entries key'.
Proof.
  intros Hne. induction entries as [|[k v] rest IH]; simpl.
  - destruct (String.eqb_spec key key'); [congruence | reflexivity].
  - destruct (String.eqb_spec k key) as [->|Hk]; simpl.
    + destruct (String.eqb_spec key key'); [congruence | reflexivity].
    + now rewrite IH.
Qed.

Lemma mapSet_allEmpty entries key :
  allEmpty entries -> allEmpty (mapSet entries key "").
Proof.
  unfold allEmpty. induction entries as [|[k v] rest IH]; intros H; simpl.
  - repeat constructor.
  - inversion H; subst. destruct (k =? key)%string; constructor; auto.
Qed.

Lemma initialResponses_empty ps key :
  orStr (mapGet (initialResponses ps) key) "" = ""%string.
Proof.
  assert (Hall : allEmpty (initialResponses ps)).
  { unfold initialResponses.
    assert (Hgen : forall entries, allEmpty entries ->
              allEmpty (fold_left (fun es p => mapSet es (name p) "") ps entries)).
    { induction ps as [|p rest IH]; intros entries He; simpl; [exact He|].
      apply IH. now apply mapSet_allEmpty. }
    apply Hgen. constructor. }
  induction Hall as [|[k v] rest Hkv _ IH]; simpl; [reflexivity|].
  simpl in Hkv. subst v. destruct (k =? key)%string; [reflexivity | exact IH].
Qed.

Lemma findIndex_ext {A : Type} (f g : A -> bool) xs :
  (forall x, In x xs -> f x = g x) -> findIndex f xs = findIndex g xs.
Proof.
  induction xs as [|x rest IH]; intros H; simpl; [reflexivity|].
  rewrite (H x (or_introl eq_refl)), IH; [reflexivity|].
  intros y Hy. apply H. now right.
Qed.

Lemma findIndex_name ps : forall k participant,
  NoDup (map name ps) ->
  nth_error ps k = Some participant ->
  findIndex (fun q => name q =? name participant)%string ps = Some k.
Proof.
  induction ps as [|q rest IH]; intros k participant Hnd Hnth.
  - destruct k; discriminate.
  - simpl in Hnd. inversion Hnd as [|? ? Hnotin Hnd']; subst.
    destruct k as [|k]; simpl in *.
    + inversion Hnth; subst. now rewrite String.eqb_refl.
    + destruct (String.eqb_spec (name q) (name participant)) as [Heq|_].
      * exfalso. apply Hnotin. rewrite Heq. apply in_map.
        eapply nth_error_In; eassumption.
      * now rewrite (IH k participant Hnd' Hnth).
Qed.

Lemma participantBubbles_nth clock qs : forall from i participant,
  nth_error qs i = Some participant ->
  nth_error (participantBubbles clock from qs) i
  = Some (bubbleOf clock (from + i) participant).
Proof.
  induction qs as [|q rest IH]; intros from i participant H.
  - destruct i; discriminate.
  - destruct i as [|i]; simpl in *.
    + inversion H; subst. now rewrite Nat.add_0_r.
    + rewrite (IH (S from) i participant H). now rewrite Nat.add_succ_r.
Qed.

Lemma updateById_hit id f pre b post :
  cm_id b = id ->
  NoDup (map cm_id (pre ++ b :: post)) ->
  updateById id f (pre ++ b :: post) = pre ++ f b :: post.
Proof.
  intros Hid Hnd. unfold updateById. rewrite map_app. simpl.
  rewrite Hid, Z.eqb_refl.
  rewrite map_app in Hnd. simpl in Hnd.
  apply NoDup_remove_2 in Hnd. rewrite Hid in Hnd.
  assert (Hkeep : forall msgs, ~ In id (map cm_id msgs) ->
            map (fun msg => if (cm_id msg =? id)%Z then f msg else msg) msgs = msgs).
  { induction msgs as [|m ms IH]; intros Hnot; simpl; [reflexivity|].
    destruct (Z.eqb_spec (cm_id m) id) as [Heq|_].
    - exfalso. apply Hnot. left. exact Heq.
    - rewrite IH; [reflexivity|]. intros Hin. apply Hnot. now right. }
  rewrite !Hkeep; [reflexivity | |];
    intros Hin; apply Hnd; apply in_or_app; [now right | now left].
Qed.

(** ** The events of a run, as the hook handles them *)

Section HookEvents.

Variable clock : Clock.
Variable ps : list SynergyParticipant.
Hypothesis Hnames : NoDup (map name ps).
Hypothesis Hnonempty : forall participant, In participant ps -> name participant <> ""%string.

Lemma orStr_name participant d :
  In participant ps -> orStr (Some (name participant)) d = name participant.
Proof.
  intros Hin. unfold orStr. now rewrite (truthyStr_intro _ (Hnonempty participant Hin)).
Qed.

Lemma findIndex_chunk k participant dataModel :
  nth_error ps k = Some participant ->
  findIndex (fun q => (name q =? name participant)
                      || ((name participant =? "") && (model q =? dataModel)))%string ps
  = Some k.
Proof.
  intros Hnth.
  assert (Hin : In participant ps) by (eapply nth_error_In; eassumption).
  rewrite (findIndex_ext _ (fun q => name q =? name participant)%string).
  - now apply findIndex_name.
  - intros q _. pose proof (Hnonempty participant Hin) as Hne.
    apply String.eqb_neq in Hne. rewrite Hne. simpl. apply orb_false_r.
Qed.

Lemma chunk_handled k participant R hook pre b post text :
  nth_error ps k = Some participant ->
  hook_messages hook = pre ++ b :: post ->
  NoDup (map cm_id (pre ++ b :: post)) ->
  bubbleFor clock k participant b ->
  onEvent ps (participantBubbles clock 0 ps) R hook
          (chunk (name participant) (model participant) (provider participant) text)
  = goOn (mapSet R (name participant)
                 (orStr (mapGet R (name participant)) "" ++ text)%string)
         (mkHook (pre ++ withContent b (orStr (mapGet R (name participant)) "" ++ text)%string
                      :: post)
                 (hook_isLoading hook) (onErrorCalls hook) (onCompleteCalls hook)).
Proof.
  intros Hnth Hmsgs Hnd (Hid & Hmodel & Hpname).
  assert (Hin : In participant ps) by (eapply nth_error_In; eassumption).
  unfold onEvent.
  rewrite (findIndex_chunk k participant (model participant) Hnth).
  rewrite (participantBubbles_nth clock ps 0 k participant Hnth). simpl Nat.add.
  unfold setMessages. rewrite Hmsgs.
  rewrite (updateById_hit _ _ pre b post Hid Hnd).
  f_equal. f_equal. f_equal. f_equal.
  unfold withChunk, withContent. rewrite Hmodel, Hpname, (orStr_name participant _ Hin).
  reflexivity.
Qed.

Lemma error_handled k participant R hook pre b post e :
  nth_error ps k = Some participant ->
  hook_messages hook = pre ++ b :: post ->
  NoDup (map cm_id (pre ++ b :: post)) ->
  bubbleFor clock k participant b ->
  onEvent ps (participantBubbles clock 0 ps) R hook (errorEvent participant e)
  = goOn R
         (mkHook (pre ++ withError b ("❌ " ++ name participant ++ " error: " ++ errorText e)%string
                      :: post)
                 (hook_isLoading hook) (onErrorCalls hook) (onCompleteCalls hook)).
Proof.
  intros Hnth Hmsgs Hnd (Hid & _ & _).
  unfold onEvent, errorEvent.
  rewrite (findIndex_name ps k participant Hnames Hnth).
  rewrite (participantBubbles_nth clock ps 0 k participant Hnth). simpl Nat.add.
  unfold setMessages. rewrite Hmsgs.
  now rewrite (updateById_hit _ _ pre b post Hid Hnd).
Qed.

Lemma bubbleFor_withContent k participant b text :
  bubbleFor clock k participant b -> bubbleFor clock k participant (withContent b text).
Proof. intros (H1 & H2 & H3). repeat split; assumption. Qed.

Lemma chunks_handled k participant pre post chunks : forall R hook b rest,
  nth_error ps k = Some participant ->
  Forall (chunkOf participant) chunks ->
  hook_messages hook = pre ++ b :: post ->
  NoDup (map cm_id (pre ++ b :: post)) ->
  bubbleFor clock k participant b ->
  exists R',
    processText ps (participantBubbles clock 0 ps) R hook (chunks ++ rest)
    = processText ps (participantBubbles clock 0 ps) R'
        (mkHook (pre ++ afterChunks b (orStr (mapGet R (name participant)) "") chunks :: post)
                (hook_isLoading hook) (onErrorCalls hook) (onCompleteCalls hook))
        rest
    /\ orStr (mapGet R' (name participant)) ""
       = (orStr (mapGet R (name participant)) "" ++ transcript chunks)%string
    /\ (forall key, key <> name participant -> mapGet R' key = mapGet R key).
Proof.
  induction chunks as [|ev chunks IH]; intros R hook b rest Hnth Hchunks Hmsgs Hnd Hb.
  - exists R. simpl. rewrite append_empty_r, <- Hmsgs.
    repeat split. now destruct hook.
  - inversion Hchunks as [|? ? [text ->] Hrest]; subst.
    change ((chunk (name participant) (model participant) (provider participant) text :: chunks)
              ++ rest)
      with (chunk (name participant) (model participant) (provider participant) text
              :: (chunks ++ rest)).
    cbn [processText].
    rewrite (chunk_handled k participant R hook pre b post text Hnth Hmsgs Hnd Hb).
    set (acc := orStr (mapGet R (name participant)) "").
    set (R1 := mapSet R (name participant) (acc ++ text)%string).
    set (b1 := withContent b (acc ++ text)%string).
    destruct (IH R1 (mkHook (pre ++ b1 :: post) (hook_isLoading hook)
                            (onErrorCalls hook) (onCompleteCalls hook))
                 b1 rest Hnth Hrest eq_refl)
      as (R' & Hrun & Hacc & Hother).
    + rewrite map_app in *. simpl in *. exact Hnd.
    + now apply bubbleFor_withContent.
    + assert (Hget : orStr (mapGet R1 (name participant)) "" = (acc ++ text)%string).
      { subst R1. rewrite mapGet_set_same. apply orStr_empty. }
      exists R'. rewrite Hrun. cbn [hook_isLoading onErrorCalls onCompleteCalls].
      rewrite Hget in *. split; [|split].
      * f_equal. f_equal. f_equal.
        unfold afterChunks. simpl transcript.
        destruct chunks as [|ev' chunks'].
        -- simpl. subst b1. now rewrite append_empty_r.
        -- subst b1. unfold withContent. simpl. now rewrite append_assoc.
      * rewrite Hacc. simpl. now rewrite append_assoc.
      * intros key Hkey. rewrite (Hother key Hkey). subst R1.
        now apply mapGet_set_other.
Qed.

Lemma errorOf_chunks participant chunks :
  Forall (chunkOf participant) chunks -> errorOf chunks = None.
Proof.
  induction 1 as [|ev evs [text ->] _ IH]; [reflexivity | exact IH].
Qed.

Lemma errorOf_chunks_then participant chunks who message rest :
  Forall (chunkOf participant) chunks ->
  errorOf (chunks ++ error who message :: rest) = Some message.
Proof.
  induction 1 as [|ev evs [text ->] _ IH]; [reflexivity | exact IH].
Qed.

Lemma shown_id b block : cm_id (shown b block) = cm_id b.
Proof.
  unfold shown. destruct (errorOf block); [reflexivity|]. now destruct block.
Qed.

(** The events of one participant, handled from a state in which nothing
    was accumulated for it yet. *)
Lemma block_handled k participant pre post block R hook rest :
  nth_error ps k = Some participant ->
  blockOf participant block ->
  hook_messages hook = pre ++ bubbleOf clock k participant :: post ->
  NoDup (map cm_id (pre ++ bubbleOf clock k participant :: post)) ->
  orStr (mapGet R (name participant)) "" = ""%string ->
  exists R',
    processText ps (participantBubbles clock 0 ps) R hook (block ++ rest)
    = processText ps (participantBubbles clock 0 ps) R'
        (mkHook (pre ++ shown (bubbleOf clock k participant) block :: post)
                (hook_isLoading hook) (onErrorCalls hook) (onCompleteCalls hook))
        rest
    /\ (forall key, key <> name participant -> mapGet R' key = mapGet R key).
Proof.
  intros Hnth (chunks & tail & -> & Hchunks & Htail) Hmsgs Hnd Hacc.
  assert (Hb : bubbleFor clock k participant (bubbleOf clock k participant))
    by (repeat split).
  rewrite <- app_assoc.
  destruct (chunks_handled k participant pre post chunks R hook
              (bubbleOf clock k participant) (tail ++ rest) Hnth Hchunks Hmsgs Hnd Hb)
    as (R' & Hrun & _ & Hother).
  rewrite Hrun, Hacc. exists R'. split; [|exact Hother].
  destruct Htail as [->|[e ->]].
  - simpl. rewrite app_nil_r. f_equal. f_equal. f_equal.
    unfold shown, afterChunks. rewrite (errorOf_chunks participant chunks Hchunks).
    now destruct chunks.
  - change ([errorEvent participant e] ++ rest) with (errorEvent participant e :: rest).
    cbn [processText].
    rewrite (error_handled k participant R'
               (mkHook (pre ++ afterChunks (bubbleOf clock k participant) "" chunks :: post)
                       (hook_isLoading hook) (onErrorCalls hook) (onCompleteCalls hook))
               pre (afterChunks (bubbleOf clock k participant) "" chunks) post e
               Hnth eq_refl).
    + cbn [hook_isLoading onErrorCalls onCompleteCalls]. f_equal. f_equal. f_equal.
      unfold shown, errorEvent.
      rewrite (errorOf_chunks_then participant chunks _ _ [] Hchunks).
      unfold afterChunks. now destruct chunks.
    + rewrite map_app in *. simpl in *.
      replace (cm_id (afterChunks (bubbleOf clock k participant) "" chunks))
        with (cm_id (bubbleOf clock k participant)); [exact Hnd|].
      unfold afterChunks. now destruct chunks.
    + unfold afterChunks. destruct chunks; [exact Hb|].
      now apply bubbleFor_withContent.
Qed.

(** The events of the participants [qs], which stand in the list from
    index [from] on, handled block by block. *)
Lemma blocks_handled qs blocks :
  Forall2 blockOf qs blocks ->
  forall from pre R hook rest,
    (forall i q, nth_error qs i = Some q -> nth_error ps (from + i) = Some q) ->
    hook_messages hook = pre ++ participantBubbles clock from qs ->
    NoDup (map cm_id (pre ++ participantBubbles clock from qs)) ->
    (forall q, In q qs -> orStr (mapGet R (name q)) "" = ""%string) ->
    exists R',
      processText ps (participantBubbles clock 0 ps) R hook (concat blocks ++ rest)
      = processText ps (participantBubbles clock 0 ps) R'
          (mkHook (pre ++ map (fun bb => shown (fst bb) (snd bb))
                              (combine (participantBubbles clock from qs) blocks))
                  (hook_isLoading hook) (onErrorCalls hook) (onCompleteCalls hook))
          rest.
Proof.
  induction 1 as [|q block qs blocks Hblock _ IH]; intros from pre R hook rest Hidx Hmsgs Hnd HR.
  - exists R. simpl in *. rewrite <- Hmsgs. now destruct hook.
  - assert (Hq : nth_error ps from = Some q).
    { rewrite <- (Nat.add_0_r from). now apply Hidx. }
    change (participantBubbles clock from (q :: qs))
      with (bubbleOf clock from q :: participantBubbles clock (S from) qs) in *.
    simpl concat. rewrite <- app_assoc.
    destruct (block_handled from q pre (participantBubbles clock (S from) qs) block R hook
                (concat blocks ++ rest) Hq Hblock Hmsgs Hnd (HR q (or_introl eq_refl)))
      as (R1 & Hrun & Hother).
    rewrite Hrun.
    destruct (IH (S from) (pre ++ [shown (bubbleOf clock from q) block]) R1
                 (mkHook (pre ++ shown (bubbleOf clock from q) block
                              :: participantBubbles clock (S from) qs)
                         (hook_isLoading hook) (onErrorCalls hook) (onCompleteCalls hook))
                 rest)
      as (R' & Hrun').
    + intros i q' Hq'. rewrite Nat.add_succ_l, <- Nat.add_succ_r. now apply Hidx.
    + simpl. now rewrite <- app_assoc.
    + rewrite <- app_assoc. simpl.
      rewrite map_app in *. simpl in *. now rewrite shown_id.
    + intros q' Hin'. rewrite Hother; [apply HR; now right|].
      (* two participants at different positions have different names *)
      destruct (In_nth_error qs q' Hin') as [i Hi].
      pose proof (Hidx (S i) q' Hi) as Hpos'.
      intros Heq.
      assert (Hsame : nth_error (map name ps) (from + S i) = nth_error (map name ps) from).
      { rewrite !nth_error_map, Hpos', Hq. simpl. now rewrite Heq. }
      apply (proj1 (NoDup_nth_error (map name ps)) Hnames) in Hsame; [lia|].
      rewrite length_map. eapply nth_error_length; eassumption.
    + exists R'. rewrite Hrun'. cbn [hook_isLoading onErrorCalls onCompleteCalls].
      simpl. now rewrite <- app_assoc.
Qed.

End HookEvents.

(** Grouped events, handled. *)
Lemma hook_shows_blocks clock ps blocks before hook :
  NoDup (map name ps) ->
  (forall participant, In participant ps -> name participant <> ""%string) ->
  Forall2 blockOf ps blocks ->
  hook_messages hook = before ++ participantBubbles clock 0 ps ->
  NoDup (map cm_id (before ++ participantBubbles clock 0 ps)) ->
  processText ps (participantBubbles clock 0 ps) (initialResponses ps) hook
              (concat blocks ++ [complete])
  = mkHook (before ++ map (fun bb => shown (fst bb) (snd bb))
                          (combine (participantBubbles clock 0 ps) blocks))
           false (onErrorCalls hook) (S (onCompleteCalls hook)).
Proof.
  intros Hnames Hnonempty Hblocks Hmsgs Hnd.
  destruct (blocks_handled clock ps Hnames Hnonempty ps blocks Hblocks 0 before
              (initialResponses ps) hook [complete])
    as (R' & Hrun); [| exact Hmsgs | exact Hnd | |].
  - intros i q Hq. exact Hq.
  - intros q _. apply initialResponses_empty.
  - rewrite Hrun. reflexivity.
Qed.

(** X22.  Given the events of a run grouped by participant and closed by
    the completion event, and participants whose names are not empty and
    all different, and messages whose ids are all different: the hook leaves
    the messages before the bubbles as they were and makes each bubble show
    the events of its own participant, the error message if there is one,
    else the text of the chunks one after the other; it then stops loading
    and calls [onComplete] once. *)
Theorem hook_shows_each_participant clock ps blocks before hook :
  NoDup (map name ps) ->
  (forall participant, In participant ps -> name participant <> ""%string) ->
  Forall2 blockOf ps blocks ->
  hook_messages hook = before ++ participantBubbles clock 0 ps ->
  NoDup (map cm_id (before ++ participantBubbles clock 0 ps)) ->
  processText ps (participantBubbles clock 0 ps) (initialResponses ps) hook
              (concat blocks ++ [complete])
  = mkHook (before ++ map (fun bb => shown (fst bb) (snd bb))
                          (combine (participantBubbles clock 0 ps) blocks))
           false (onErrorCalls hook) (S (onCompleteCalls hook)).
Proof.
  exact (hook_shows_blocks clock ps blocks before hook).
Qed.

Lemma hook_shows_each_participant_witness :
  processText [gpt; claude] (participantBubbles noon 0 [gpt; claude])
              (initialResponses [gpt; claude])
              (mkHook (participantBubbles noon 0 [gpt; claude]) true [] 0)
              (concat [[chunk "GPT-5" "gpt-5" "openai" "Hi";
                        chunk "GPT-5" "gpt-5" "openai" " all"];
                       [errorEvent claude unauthorized]] ++ [complete])
  = mkHook [withContent (bubbleOf noon 0 gpt) "Hi all";
            withError (bubbleOf noon 1 claude)
                      "❌ Claude Sonnet 4.5 error: 401 Unauthorized"]
           false [] 1.
Proof.
  apply (hook_shows_each_participant noon [gpt; claude]
           [[chunk "GPT-5" "gpt-5" "openai" "Hi"; chunk "GPT-5" "gpt-5" "openai" " all"];
            [errorEvent claude unauthorized]]
           [] (mkHook (participantBubbles noon 0 [gpt; claude]) true [] 0)).
  - repeat constructor; simpl; intuition discriminate.
  - intros participant [<-|[<-|[]]]; discriminate.
  - constructor; [|constructor; [|constructor]].
    + exists [chunk "GPT-5" "gpt-5" "openai" "Hi"; chunk "GPT-5" "gpt-5" "openai" " all"], [].
      repeat split; [|now left].
      repeat constructor; eexists; reflexivity.
    + exists [], [errorEvent claude unauthorized].
      repeat split; [constructor | right; now exists unauthorized].
  - reflexivity.
  - repeat constructor; simpl; intuition discriminate.
Defined.

(** ** An exchange, from the hook to the handler and back *)

Lemma skipn_length_app {A : Type} (xs ys : list A) : skipn (length xs) (xs ++ ys) = ys.
Proof. induction xs as [|x xs IH]; [reflexivity | exact IH]. Qed.

Lemma blockAt_step env req ps k :
  sse (stateBefore env req ps (S k))
  = sse (stateBefore env req ps k) ++ blockAt env req ps k.
Proof.
  destruct (stateBefore_step env req ps k) as (_ & evs & _ & Hs).
  unfold blockAt. now rewrite Hs, skipn_length_app.
Qed.

Lemma blockAt_blockOf env req ps k participant :
  nth_error ps k = Some participant -> blockOf participant (blockAt env req ps k).
Proof.
  intros Hnth. unfold blockAt.
  rewrite (stateBefore_S env req ps k participant Hnth).
  destruct (iteration_shape env req ps k participant (stateBefore env req ps k));
    rewrite Hiteration; simpl.
  - rewrite skipn_length_app. exists relayed, []. rewrite app_nil_r.
    repeat split; [exact Hchunks | now left].
  - rewrite skipn_length_app. exists relayed, [errorEvent participant e].
    repeat split; [exact Hchunks | right; now exists e].
  - rewrite skipn_all. exists [], []. repeat split; [constructor | now left].
Qed.

Lemma blocks_of_run env req ps N :
  N <= length ps ->
  sse (stateBefore env req ps N) = concat (map (blockAt env req ps) (seq 0 N))
  /\ Forall2 blockOf (firstn N ps) (map (blockAt env req ps) (seq 0 N)).
Proof.
  induction N as [|N IH]; intros HN.
  - split; [reflexivity | constructor].
  - destruct IH as [Hsse Hblocks]; [lia|].
    destruct (nth_error ps N) as [participant|] eqn:Hnth;
      [|apply nth_error_None in Hnth; lia].
    rewrite (firstn_snoc ps N participant Hnth), seq_S, map_app, concat_app.
    cbn [map concat Nat.add]. rewrite app_nil_r. split.
    + now rewrite blockAt_step, Hsse.
    + apply Forall2_app; [exact Hblocks|]. constructor; [|constructor].
      now apply blockAt_blockOf.
Qed.

Lemma shownFrom_combine env req ps bubbles : forall from,
  map (fun bb => shown (fst bb) (snd bb))
      (combine bubbles (map (blockAt env req ps) (seq from (length bubbles))))
  = shownFrom env req ps from bubbles.
Proof.
  induction bubbles as [|b rest IH]; intros from; simpl; [reflexivity|].
  now rewrite IH.
Qed.

Lemma participantBubbles_length clock qs : forall from,
  length (participantBubbles clock from qs) = length qs.
Proof.
  induction qs as [|q rest IH]; intros from; simpl; [reflexivity | now rewrite IH].
Qed.

(** An accepted exchange, whole: what the hook holds when [sendMessage]
    is done. *)
Lemma exchange env clock hook userMessage ps config :
  hookAccepts hook userMessage ps config ->
  ps <> [] ->
  NoDup (map name ps) ->
  (forall participant, In participant ps -> name participant <> ""%string) ->
  NoDup (map cm_id (hook_messages hook
                      ++ newUserMessage clock userMessage :: participantBubbles clock 0 ps)) ->
  sendMessage env clock hook userMessage ps config
  = (Ok tt,
     mkHook (hook_messages hook
               ++ newUserMessage clock userMessage
               :: shownFrom env
                    (requestBody (hook_messages hook ++ [newUserMessage clock userMessage])
                                 ps config)
                    ps 0 (participantBubbles clock 0 ps))
            false (onErrorCalls hook) (S (onCompleteCalls hook))).
Proof.
  intros Hacc Hne Hnames Hnonempty Hnd.
  destruct (sendMessage_streams env clock hook userMessage ps config Hacc Hne) as [_ ->].
  set (body := requestBody (hook_messages hook ++ [newUserMessage clock userMessage]) ps config).
  rewrite start_loop. cbn [sse].
  destruct (blocks_of_run env body ps (length ps) (le_n _)) as [Hsse Hblocks].
  rewrite firstn_all in Hblocks. rewrite Hsse.
  rewrite (hook_shows_blocks clock ps (map (blockAt env body ps) (seq 0 (length ps)))
             (hook_messages hook ++ [newUserMessage clock userMessage]));
    try assumption; try reflexivity.
  - unfold setIsLoading. cbn [hook_messages hook_isLoading onErrorCalls onCompleteCalls].
    replace (seq 0 (length ps)) with (seq 0 (length (participantBubbles clock 0 ps)))
      by now rewrite participantBubbles_length.
    rewrite shownFrom_combine, <- app_assoc. reflexivity.
  - rewrite <- app_assoc. exact Hnd.
Qed.

Lemma shownFrom_nth env req ps bubbles : forall from i b,
  nth_error bubbles i = Some b ->
  nth_error (shownFrom env req ps from bubbles) i
  = Some (shown b (blockAt env req ps (from + i))).
Proof.
  induction bubbles as [|b' rest IH]; intros from i b H.
  - destruct i; discriminate.
  - destruct i as [|i]; simpl in *.
    + inversion H; subst. now rewrite Nat.add_0_r.
    + rewrite (IH (S from) i b H). now rewrite Nat.add_succ_r.
Qed.

(** The bubble of participant [K] when the exchange is done. *)
Lemma exchange_bubble env clock hook userMessage ps config K participant :
  hookAccepts hook userMessage ps config ->
  NoDup (map name ps) ->
  (forall q, In q ps -> name q <> ""%string) ->
  NoDup (map cm_id (hook_messages hook
                      ++ newUserMessage clock userMessage :: participantBubbles clock 0 ps)) ->
  nth_error ps K = Some participant ->
  nth_error (hook_messages (snd (sendMessage env clock hook userMessage ps config)))
            (length (hook_messages hook) + 1 + K)
  = Some (shown (bubbleOf clock K participant)
                (blockAt env
                   (requestBody (hook_messages hook ++ [newUserMessage clock userMessage])
                                ps config)
                   ps K)).
Proof.
  intros Hacc Hnames Hnonempty Hnd Hnth.
  assert (Hne : ps <> []) by (intros ->; destruct K; discriminate).
  rewrite (exchange env clock hook userMessage ps config Hacc Hne Hnames Hnonempty Hnd).
  cbn [snd hook_messages].
  rewrite nth_error_app2 by lia.
  replace (length (hook_messages hook) + 1 + K - length (hook_messages hook)) with (S K)
    by lia.
  cbn [nth_error].
  rewrite (shownFrom_nth _ _ _ _ 0 K (bubbleOf clock K participant)); [reflexivity|].
  now apply (participantBubbles_nth clock ps 0 K participant).
Qed.

(** X23.  An accepted exchange with participants whose names are not
    empty and all different, on a clock that gives ids all different: when
    [sendMessage] is done, the hook holds the earlier messages, the user
    message, and one bubble for each participant that shows the events of
    that participant's iteration in the handler's run; it is not loading,
    [onComplete] was called once and [onError] not at all. *)
Theorem exchange_shows_the_run env clock hook userMessage ps config :
  hookAccepts hook userMessage ps config ->
  ps <> [] ->
  NoDup (map name ps) ->
  (forall participant, In participant ps -> name participant <> ""%string) ->
  NoDup (map cm_id (hook_messages hook
                      ++ newUserMessage clock userMessage :: participantBubbles clock 0 ps)) ->
  sendMessage env clock hook userMessage ps config
  = (Ok tt,
     mkHook (hook_messages hook
               ++ newUserMessage clock userMessage
               :: shownFrom env
                    (requestBody (hook_messages hook ++ [newUserMessage clock userMessage])
                                 ps config)
                    ps 0 (participantBubbles clock 0 ps))
            false (onErrorCalls hook) (S (onCompleteCalls hook))).
Proof.
  exact (exchange env clock hook userMessage ps config).
Qed.

Lemma exchange_shows_the_run_witness :
  sendMessage openaiRefuses noon atRest "hi" [gpt; claude] bothKeys
  = (Ok tt,
     mkHook [newUserMessage noon "hi";
             withError (bubbleOf noon 0 gpt) "❌ GPT-5 error: 401 Unauthorized";
             withContent (bubbleOf noon 1 claude) "Hello"]
            false [] 1).
Proof.
  rewrite (exchange_shows_the_run openaiRefuses noon atRest "hi" [gpt; claude] bothKeys).
  - reflexivity.
  - repeat split; try reflexivity.
  - discriminate.
  - repeat constructor; simpl; intuition discriminate.
  - intros participant [<-|[<-|[]]]; discriminate.
  - repeat constructor; simpl; intuition discriminate.
Defined.

(** X24.  In such an exchange, the bubble of an OpenAI participant that
    completed shows the very text the handler recorded as its reply, the
    text the later participants of the run were given. *)
Theorem bubble_shows_the_recorded_reply env clock hook userMessage ps config K participant :
  hookAccepts hook userMessage ps config ->
  NoDup (map name ps) ->
  (forall q, In q ps -> name q <> ""%string) ->
  NoDup (map cm_id (hook_messages hook
                      ++ newUserMessage clock userMessage :: participantBubbles clock 0 ps)) ->
  nth_error ps K = Some participant ->
  provider participant = "openai"%string ->
  completed env (requestBody (hook_messages hook ++ [newUserMessage clock userMessage])
                             ps config) ps K = true ->
  exists text,
    nth_error (hook_messages (snd (sendMessage env clock hook userMessage ps config)))
              (length (hook_messages hook) + 1 + K)
    = Some (withContent (bubbleOf clock K participant) text)
    /\ historyBefore env (requestBody (hook_messages hook ++ [newUserMessage clock userMessage])
                                      ps config) ps (S K)
       = historyBefore env (requestBody (hook_messages hook
                                           ++ [newUserMessage clock userMessage])
                                        ps config) ps K
           ++ [replyTurn participant text].
Proof.
  intros Hacc Hnames Hnonempty Hnd Hnth Hp Hc.
  set (body := requestBody (hook_messages hook ++ [newUserMessage clock userMessage]) ps config)
    in *.
  destruct (openai_completed_step env body ps K participant Hnth Hp Hc)
    as (relayed & Hchunks & Hsse & Hhistory).
  exists (transcript relayed). split; [|exact Hhistory].
  rewrite (exchange_bubble env clock hook userMessage ps config K participant
             Hacc Hnames Hnonempty Hnd Hnth).
  fold body. f_equal.
  assert (Hblock : blockAt env body ps K = relayed).
  { unfold blockAt. now rewrite Hsse, skipn_length_app. }
  rewrite Hblock. unfold shown. rewrite (errorOf_chunks participant relayed Hchunks).
  now destruct relayed.
Qed.

Lemma bubble_shows_the_recorded_reply_witness :
  exists text,
    nth_error (hook_messages (snd (sendMessage bothAnswer noon atRest "hi" [gpt; claude] bothKeys)))
              (length (hook_messages atRest) + 1 + 0)
    = Some (withContent (bubbleOf noon 0 gpt) text)
    /\ historyBefore bothAnswer
         (requestBody (hook_messages atRest ++ [newUserMessage noon "hi"]) [gpt; claude] bothKeys)
         [gpt; claude] 1
       = historyBefore bothAnswer
           (requestBody (hook_messages atRest ++ [newUserMessage noon "hi"])
                        [gpt; claude] bothKeys)
           [gpt; claude] 0
           ++ [replyTurn gpt text].
Proof.
  apply (bubble_shows_the_recorded_reply bothAnswer noon atRest "hi" [gpt; claude] bothKeys 0 gpt).
  - repeat split; try reflexivity.
  - repeat constructor; simpl; intuition discriminate.
  - intros participant [<-|[<-|[]]]; discriminate.
  - repeat constructor; simpl; intuition discriminate.
  - reflexivity.
  - reflexivity.
  - vm_compute. reflexivity.
Defined.

Lemma raised_block env req ps K participant e :
  nth_error ps K = Some participant ->
  attempt env req ps K participant = Throw e ->
  exists relayed,
    Forall (chunkOf participant) relayed
    /\ blockAt env req ps K = relayed ++ [errorEvent participant e].
Proof.
  intros Hnth Hthrow. unfold attempt in Hthrow. unfold blockAt.
  rewrite (stateBefore_S env req ps K participant Hnth).
  destruct (iteration_shape env req ps K participant (stateBefore env req ps K));
    rewrite Hdispatch in Hthrow; simpl in Hthrow; try discriminate.
  inversion Hthrow; subst e0. rewrite Hiteration. simpl.
  exists relayed. split; [exact Hchunks | apply skipn_length_app].
Qed.

(** X25.  Nothing filters an error out of the conversation.  In such an
    exchange, the bubble of a participant whose adapter call threw shows the
    error message and is marked as an error; and whatever is sent next from
    the hook it leaves, the handler's processed history of that request
    holds the error message as an assistant turn attributed to that
    participant. *)
Theorem error_bubble_becomes_a_turn
    env clock hook userMessage ps config K participant e :
  hookAccepts hook userMessage ps config ->
  NoDup (map name ps) ->
  (forall q, In q ps -> name q <> ""%string) ->
  NoDup (map cm_id (hook_messages hook
                      ++ newUserMessage clock userMessage :: participantBubbles clock 0 ps)) ->
  nth_error ps K = Some participant ->
  attempt env (requestBody (hook_messages hook ++ [newUserMessage clock userMessage])
                           ps config) ps K participant = Throw e ->
  let message := ("❌ " ++ name participant ++ " error: " ++ errorText e)%string in
  let hook' := snd (sendMessage env clock hook userMessage ps config) in
  nth_error (hook_messages hook') (length (hook_messages hook) + 1 + K)
  = Some (withError (bubbleOf clock K participant) message)
  /\ cm_content (withError (bubbleOf clock K participant) message) = message
  /\ (forall clock' userMessage' ps' config',
         In (mkTurn assistant message (Some (name participant)) None None)
            (processedMessages
               (messages (requestBody (hook_messages hook'
                                         ++ [newUserMessage clock' userMessage'])
                                      ps' config')))).
Proof.
  intros Hacc Hnames Hnonempty Hnd Hnth Hthrow message hook'.
  assert (Hin : In participant ps) by (eapply nth_error_In; eassumption).
  assert (Hbubble : nth_error (hook_messages hook') (length (hook_messages hook) + 1 + K)
                    = Some (withError (bubbleOf clock K participant) message)).
  { subst hook'.
    rewrite (exchange_bubble env clock hook userMessage ps config K participant
               Hacc Hnames Hnonempty Hnd Hnth).
    destruct (raised_block _ _ _ _ _ _ Hnth Hthrow) as (relayed & Hchunks & ->).
    unfold shown, errorEvent.
    now rewrite (errorOf_chunks_then participant relayed _ _ [] Hchunks). }
  split; [exact Hbubble|]. split; [reflexivity|].
  intros clock' userMessage' ps' config'.
  apply nth_error_In in Hbubble.
  unfold requestBody, processedMessages. cbn [messages].
  assert (Hturn : processMessage (toWire (withError (bubbleOf clock K participant) message))
                  = mkTurn assistant message (Some (name participant)) None None).
  { unfold processMessage, toWire, withError, bubbleOf. simpl.
    f_equal. f_equal. apply (orStr_name ps Hnonempty participant _ Hin). }
  rewrite <- Hturn. apply in_map. apply filter_In. split; [|reflexivity].
  apply in_map. apply in_or_app. now left.
Qed.

Lemma error_bubble_becomes_a_turn_witness :
  In (mkTurn assistant "❌ GPT-5 error: 401 Unauthorized" (Some "GPT-5"%string) None None)
     (processedMessages
        (messages (requestBody
                     (hook_messages
                        (snd (sendMessage openaiRefuses noon atRest "hi" [gpt; claude] bothKeys))
                        ++ [newUserMessage noon "again"])
                     [gpt; claude] bothKeys))).
Proof.
  assert (Hacc : hookAccepts atRest "hi" [gpt; claude] bothKeys)
    by (repeat split; try reflexivity).
  assert (Hnames : NoDup (map name [gpt; claude]))
    by (repeat constructor; simpl; intuition discriminate).
  assert (Hnonempty : forall q, In q [gpt; claude] -> name q <> ""%string)
    by (intros q [<-|[<-|[]]]; discriminate).
  assert (Hnd : NoDup (map cm_id (hook_messages atRest
                                    ++ newUserMessage noon "hi"
                                    :: participantBubbles noon 0 [gpt; claude])))
    by (repeat constructor; simpl; intuition discriminate).
  assert (Hthrow : attempt openaiRefuses
                     (requestBody (hook_messages atRest ++ [newUserMessage noon "hi"])
                                  [gpt; claude] bothKeys)
                     [gpt; claude] 0 gpt = Throw unauthorized)
    by (vm_compute; reflexivity).
  exact (proj2 (proj2 (error_bubble_becomes_a_turn
                         openaiRefuses noon atRest "hi" [gpt; claude] bothKeys 0 gpt unauthorized
                         Hacc Hnames Hnonempty Hnd eq_refl Hthrow))
           noon "again"%string [gpt; claude] bothKeys).
Defined.

(** ** Participants that share a name *)

Lemma findIndex_first {A : Type} (f : A -> bool) xs : forall t,
  findIndex f xs = Some t ->
  (exists x, nth_error xs t = Some x /\ f x = true)
  /\ (forall t' x', t' < t -> nth_error xs t' = Some x' -> f x' = false).
Proof.
  induction xs as [|x rest IH]; intros t H; simpl in H; [discriminate|].
  destruct (f x) eqn:Hfx.
  - inversion H; subst t. split; [exists x; now split | intros t' x' Hlt; lia].
  - destruct (findIndex f rest) as [t0|] eqn:Hrest; [|discriminate].
    inversion H; subst t. destruct (IH t0 eq_refl) as [Hhit Hbefore].
    split; [exact Hhit|].
    intros [|t'] x' Hlt Hx'; simpl in Hx'.
    + now inversion Hx'; subst.
    + apply (Hbefore t' x'); [lia | exact Hx'].
Qed.

Lemma updateById_ids id f prev :
  (forall msg, cm_id (f msg) = cm_id msg) ->
  map cm_id (updateById id f prev) = map cm_id prev.
Proof.
  intros Hf. unfold updateById. rewrite map_map. apply map_ext.
  intros msg. destruct (cm_id msg =? id)%Z; [apply Hf | reflexivity].
Qed.

Lemma updateById_miss id f prev m b :
  nth_error prev m = Some b -> cm_id b <> id ->
  nth_error (updateById id f prev) m = Some b.
Proof.
  intros Hm Hid. unfold updateById. rewrite nth_error_map, Hm. simpl.
  apply Z.eqb_neq in Hid. now rewrite Hid.
Qed.

(** X27.  When two participants have the same name, the hook never
    updates the bubble of the later one: whatever events of named
    participants it handles, the chunks and the error of the later
    participant go by name to the earlier one's bubble, and a message with
    the later bubble's id stays as it was. *)
Theorem shadowed_bubble_is_never_updated clock ps i j p q :
  nth_error ps i = Some p ->
  nth_error ps j = Some q ->
  i < j ->
  name p = name q ->
  NoDup (map cm_id (participantBubbles clock 0 ps)) ->
  forall events R hook,
    Forall namedEvent events ->
    forall m b,
      nth_error (hook_messages hook) m = Some b ->
      cm_id b = cm_id (bubbleOf clock j q) ->
      nth_error (hook_messages
                   (processText ps (participantBubbles clock 0 ps) R hook events)) m
      = Some b.
Proof.
  intros Hp Hq Hij Hsame Hids.
  (* an update aimed at the bubble found for an event never aims at bubble [j] *)
  assert (Hmiss : forall (f : SynergyParticipant -> bool) t bubble,
             (f q = true -> f p = true) ->
             findIndex f ps = Some t ->
             nth_error (participantBubbles clock 0 ps) t = Some bubble ->
             cm_id (bubbleOf clock j q) <> cm_id bubble).
  { intros f t bubble Hfq Hfind Hbubble Heq.
    destruct (findIndex_first f ps t Hfind) as [(x & Hx & Hfx) Hbefore].
    assert (Htj : t = j).
    { assert (Hbj := participantBubbles_nth clock ps 0 j q Hq). cbn [Nat.add] in Hbj.
      apply (proj1 (NoDup_nth_error (map cm_id (participantBubbles clock 0 ps))) Hids).
      - rewrite length_map. apply nth_error_Some. congruence.
      - rewrite !nth_error_map, Hbubble, Hbj. cbn [option_map]. now rewrite Heq. }
    subst t. rewrite Hq in Hx. inversion Hx; subst x.
    rewrite (Hbefore i p Hij Hp) in Hfq. specialize (Hfq Hfx). discriminate. }
  induction events as [|ev events IH]; intros R hook Hnamed m b Hm Hid; [exact Hm|].
  inversion Hnamed as [|? ? Hev Hrest]; subst.
  cbn [processText].
  destruct ev as [n dataModel prov text|who message|]; cbn [onEvent].
  - (* a chunk *)
    simpl in Hev. apply String.eqb_neq in Hev.
    destruct (findIndex _ ps) as [t|] eqn:Hfind; [|now apply IH].
    destruct (nth_error (participantBubbles clock 0 ps) t) as [bubble|] eqn:Hbubble;
      [|now apply IH].
    apply IH; [exact Hrest | | exact Hid].
    unfold setMessages. cbn [hook_messages].
    apply updateById_miss; [exact Hm|]. rewrite Hid.
    refine (Hmiss _ t bubble _ Hfind Hbubble). cbv beta.
    rewrite Hsame, Hev. simpl. trivial.
  - (* an error *)
    destruct (findIndex _ ps) as [t|] eqn:Hfind; [|now apply IH].
    destruct (nth_error (participantBubbles clock 0 ps) t) as [bubble|] eqn:Hbubble;
      [|now apply IH].
    apply IH; [exact Hrest | | exact Hid].
    unfold setMessages. cbn [hook_messages].
    apply updateById_miss; [exact Hm|]. rewrite Hid.
    refine (Hmiss _ t bubble _ Hfind Hbubble). cbv beta.
    destruct who; [now rewrite Hsame | discriminate].
  - (* the completion event *)
    exact Hm.
Qed.

Lemma shadowed_bubble_is_never_updated_witness :
  nth_error (hook_messages
               (snd (sendMessage bothAnswer noon atRest "hi" [gpt; gpt] bothKeys))) 2
  = Some (bubbleOf noon 1 gpt).
Proof.
  assert (Hids : NoDup (map cm_id (participantBubbles noon 0 [gpt; gpt])))
    by (repeat constructor; simpl; intuition discriminate).
  assert (Hnamed : Forall namedEvent
                     [chunk "GPT-5" "gpt-5" "openai" "Hi";
                      chunk "GPT-5" "gpt-5" "openai" "Hi"; complete])
    by (repeat constructor; discriminate).
  exact (shadowed_bubble_is_never_updated noon [gpt; gpt] 0 1 gpt gpt
           eq_refl eq_refl (le_n 1) eq_refl Hids
           [chunk "GPT-5" "gpt-5" "openai" "Hi"; chunk "GPT-5" "gpt-5" "openai" "Hi"; complete]
           (initialResponses [gpt; gpt])
           (mkHook ([newUserMessage noon "hi"] ++ participantBubbles noon 0 [gpt; gpt])
                   true [] 0)
           Hnamed 2 (bubbleOf noon 1 gpt) eq_refl eq_refl).
Defined.
